(** * Contract-analysis backend: the orchestrator and its gatekeeper

    A shallow embedding of [app/services/ai_advisor.py] (the function
    [analyze_contract] with its registry [ASSISTANT_MAP] and its regex
    post-processing), of [app/routers/general.py] (the function
    [_process_analysis]) and of [app/services/law_advisor.py] (the function
    [analyze_labor_contract]).

    Python [str] values are sequences of Unicode code points, so a string is
    a [list N] here.  The library functions the code calls ([re.sub],
    [re.search], [str.strip], [json.loads]) are given as executable
    definitions; the external collaborators (the remote engine, the database
    session, the local file system) are scripts that say what each call
    answers, and every call the code makes is recorded in a trace. *)

From Stdlib Require Import List NArith Ascii String Bool Arith Lia.
Import ListNotations.

Set Implicit Arguments.
Set Warnings "-register-all".

(** ** Python strings *)

Module PyStr.

Definition codepoint := N.
Definition pystr := list codepoint.

Fixpoint bytes_of (s : string) : list N :=
  match s with
  | EmptyString => []
  | String a t => N_of_ascii a :: bytes_of t
  end.

(** UTF-8 decoding of a literal of this file; [need] continuation bytes are
    still to be read into [acc]. *)
Fixpoint utf8_go (need : nat) (acc : N) (b : list N) : pystr :=
  match b with
  | [] => []
  | x :: t =>
      match need with
      | S k =>
          let acc' := (acc * 64 + x mod 64)%N in
          match k with
          | O => acc' :: utf8_go 0 0%N t
          | S _ => utf8_go k acc' t
          end
      | O =>
          if (x <? 128)%N then x :: utf8_go 0 0%N t
          else if (x <? 224)%N then utf8_go 1 (x mod 32)%N t
          else if (x <? 240)%N then utf8_go 2 (x mod 16)%N t
          else utf8_go 3 (x mod 8)%N t
      end
  end.

(** [py "text"] is the Python string written [text]. *)
Definition py (s : string) : pystr := utf8_go 0 0%N (bytes_of s).

Definition dquote : codepoint := 34%N.
Definition squote : codepoint := 39%N.

(** [pyq "text"] is [py "text"] with every apostrophe standing for a double
    quote: [pyq "{'a':1}"] is the seven characters of the JSON text whose
    key is a. *)
Definition pyq (s : string) : pystr :=
  map (fun c => if (c =? squote)%N then dquote else c) (py s).

Fixpoint str_eqb (a b : pystr) : bool :=
  match a, b with
  | [], [] => true
  | x :: a', y :: b' => (x =? y)%N && str_eqb a' b'
  | _, _ => false
  end.

Fixpoint starts_with (p s : pystr) : bool :=
  match p, s with
  | [], _ => true
  | x :: p', y :: s' => (x =? y)%N && starts_with p' s'
  | _ :: _, [] => false
  end.

(** [needle in s] *)
Fixpoint contains (needle s : pystr) : bool :=
  starts_with needle s ||
  match s with
  | [] => false
  | _ :: t => contains needle t
  end.

Definition nl : codepoint := 10%N.
Definition is_nl (c : codepoint) : bool := (c =? nl)%N.

(** [str.isspace] on one code point; it is also the class [\s] of [re] on
    [str] patterns. *)
Definition is_space (c : codepoint) : bool :=
  ((9 <=? c) && (c <=? 13) || (28 <=? c) && (c <=? 32) ||
   (c =? 133) || (c =? 160) || (c =? 5760) ||
   (8192 <=? c) && (c <=? 8202) ||
   (c =? 8232) || (c =? 8233) || (c =? 8239) || (c =? 8287) ||
   (c =? 12288))%N.

Fixpoint lstrip (s : pystr) : pystr :=
  match s with
  | c :: t => if is_space c then lstrip t else s
  | [] => []
  end.

Definition rstrip (s : pystr) : pystr := rev (lstrip (rev s)).

(** [s.strip()] *)
Definition strip (s : pystr) : pystr := rstrip (lstrip s).

End PyStr.
Import PyStr.

(** ** The fragment of [re] the code uses *)

Module Re.

(** Patterns, with the flags of the call already resolved: [Bol] and [Eol] are
    [^] and [$] under [re.MULTILINE]; a class is a predicate on one code
    point; the two stars repeat a one-character class. *)
Inductive regex : Type :=
| Eps : regex
| Chr : codepoint -> regex
| Bol : regex
| Eol : regex
| Star : (codepoint -> bool) -> regex        (* x*  , greedy *)
| LazyStar : (codepoint -> bool) -> regex    (* x*? , lazy *)
| Cat : regex -> regex -> regex
| Alt : regex -> regex -> regex.

Fixpoint Lit (s : pystr) : regex :=
  match s with
  | [] => Eps
  | c :: t => Cat (Chr c) (Lit t)
  end.

Definition space : codepoint -> bool := is_space.            (* \s *)
Definition dot : codepoint -> bool := fun c => negb (is_nl c). (* .  *)
Definition dot_all : codepoint -> bool := fun _ => true.      (* . under re.DOTALL *)

(** A continuation gets the line-start flag and the text left. *)
Definition cont := bool -> pystr -> option pystr.

Fixpoint star_greedy (p : codepoint -> bool) (k : cont) (bol : bool)
    (s : pystr) : option pystr :=
  match s with
  | c :: t =>
      if p c then
        match star_greedy p k (is_nl c) t with
        | Some r => Some r
        | None => k bol s
        end
      else k bol s
  | [] => k bol s
  end.

Fixpoint star_lazy (p : codepoint -> bool) (k : cont) (bol : bool)
    (s : pystr) : option pystr :=
  match k bol s with
  | Some r => Some r
  | None =>
      match s with
      | c :: t => if p c then star_lazy p k (is_nl c) t else None
      | [] => None
      end
  end.

(** Backtracking matcher: the first way of matching [r] at the head of [s]
    that lets the continuation succeed, in the order [re] tries them.
    [bol] says that [s] starts a line. *)
Fixpoint run (r : regex) (k : cont) (bol : bool) (s : pystr) : option pystr :=
  match r with
  | Eps => k bol s
  | Chr c =>
      match s with
      | d :: t => if (c =? d)%N then k (is_nl d) t else None
      | [] => None
      end
  | Bol => if bol then k bol s else None
  | Eol =>
      match s with
      | [] => k bol s
      | d :: _ => if is_nl d then k bol s else None
      end
  | Star p => star_greedy p k bol s
  | LazyStar p => star_lazy p k bol s
  | Cat r1 r2 => run r1 (run r2 k) bol s
  | Alt r1 r2 =>
      match run r1 k bol s with
      | Some x => Some x
      | None => run r2 k bol s
      end
  end.

(** The text left after the match of [r] at the head of [s], if any. *)
Definition match_at (r : regex) (bol : bool) (s : pystr) : option pystr :=
  run r (fun _ rest => Some rest) bol s.

(** [re.sub(r, "", s)]: the leftmost matches, left to right, are dropped.
    [skip] characters of a match found earlier are still to be dropped.  An
    empty match replaced by the empty string changes nothing. *)
Fixpoint sub_go (r : regex) (skip : nat) (bol : bool) (s : pystr) : pystr :=
  match s with
  | [] => []
  | c :: t =>
      match skip with
      | S k => sub_go r k (is_nl c) t
      | O =>
          match match_at r bol s with
          | Some rest =>
              match List.length s - List.length rest with
              | S k => sub_go r k (is_nl c) t
              | O => c :: sub_go r 0 (is_nl c) t
              end
          | None => c :: sub_go r 0 (is_nl c) t
          end
      end
  end.

Definition sub_empty (r : regex) (s : pystr) : pystr := sub_go r 0 true s.

(** [re.search(r, s)]: the text of the leftmost match ([group(0)]). *)
Fixpoint search_go (r : regex) (bol : bool) (s : pystr) : option pystr :=
  match match_at r bol s with
  | Some rest => Some (firstn (List.length s - List.length rest) s)
  | None =>
      match s with
      | [] => None
      | c :: t => search_go r (is_nl c) t
      end
  end.

Definition search (r : regex) (s : pystr) : option pystr := search_go r true s.

End Re.
Import Re.

(** ** Result post-processing of [analyze_contract] (ai_advisor.py, 115-128) *)

Definition backtick : codepoint := 96%N.
Definition cite_open : codepoint := 12304%N.   (* U+3010, the opening lenticular bracket *)
Definition cite_close : codepoint := 12305%N.  (* U+3011 *)
Definition lbrace : codepoint := 123%N.
Definition rbrace : codepoint := 125%N.

(** r"^```json\s*|\s*```$" with re.MULTILINE *)
Definition fence_re : regex :=
  Alt (Cat Bol (Cat (Lit (py "```json")) (Star space)))
      (Cat (Star space) (Cat (Lit (py "```")) Eol)).

(** r"【.*?】" *)
Definition cite_re : regex :=
  Cat (Chr cite_open) (Cat (LazyStar dot) (Chr cite_close)).

(** r"(\{.*\})" with re.DOTALL; group 1 is the whole match *)
Definition brace_re : regex :=
  Cat (Chr lbrace) (Cat (Star dot_all) (Chr rbrace)).

Definition sanitize (raw_text : pystr) : pystr :=
  let json_str := sub_empty fence_re (strip raw_text) in
  let json_str := sub_empty cite_re json_str in
  match search brace_re json_str with
  | Some m => m
  | None => json_str
  end.

(** ** [json.loads] *)

Module Json.

(** The value [json.loads] builds.  A number keeps its lexeme; [JInt] is a
    Python [int], [JFloat] a [float] (a lexeme with a fraction or an
    exponent, or one of NaN, Infinity, -Infinity).  An object is a [dict]:
    an association list without repeated keys, in insertion order. *)
Inductive json : Type :=
| JNull : json
| JBool : bool -> json
| JInt : pystr -> json
| JFloat : pystr -> json
| JStr : pystr -> json
| JArr : list json -> json
| JObj : list (pystr * json) -> json.

(** [d[k] = v] *)
Fixpoint dict_set (k : pystr) (v : json) (d : list (pystr * json))
    : list (pystr * json) :=
  match d with
  | [] => [(k, v)]
  | (k', v') :: t =>
      if str_eqb k k' then (k, v) :: t else (k', v') :: dict_set k v t
  end.

(** [dict(pairs)] *)
Definition dict_of_pairs (pairs : list (pystr * json)) : list (pystr * json) :=
  fold_left (fun d kv => dict_set (fst kv) (snd kv) d) pairs [].

(** [d.get(k)] without a default: [None] when the key is missing. *)
Fixpoint dict_get (k : pystr) (d : list (pystr * json)) : option json :=
  match d with
  | [] => None
  | (k', v) :: t => if str_eqb k k' then Some v else dict_get k t
  end.

Definition backslash : codepoint := 92%N.
Definition lbracket : codepoint := 91%N.
Definition rbracket : codepoint := 93%N.
Definition comma : codepoint := 44%N.
Definition colon : codepoint := 58%N.
Definition minus : codepoint := 45%N.
Definition period : codepoint := 46%N.

(** WHITESPACE of json.decoder: space, tab, line feed, carriage return. *)
Definition is_json_ws (c : codepoint) : bool :=
  ((c =? 32) || (c =? 9) || (c =? 10) || (c =? 13))%N.

Fixpoint skip_ws (s : pystr) : pystr :=
  match s with
  | c :: t => if is_json_ws c then skip_ws t else s
  | [] => []
  end.

Definition is_digit (c : codepoint) : bool := ((48 <=? c) && (c <=? 57))%N.

Definition hex_val (c : codepoint) : option N :=
  if is_digit c then Some (c - 48)%N
  else if ((97 <=? c) && (c <=? 102))%N then Some (c - 87)%N
  else if ((65 <=? c) && (c <=? 70))%N then Some (c - 55)%N
  else None.

Definition hex4 (a b c d : codepoint) : option N :=
  match hex_val a, hex_val b, hex_val c, hex_val d with
  | Some x, Some y, Some z, Some w => Some (((x * 16 + y) * 16 + z) * 16 + w)%N
  | _, _, _, _ => None
  end.

(** The escapes other than \u (BACKSLASH of json.decoder). *)
Definition unescape (e : codepoint) : option codepoint :=
  if (e =? 34)%N then Some 34%N          (* a double quote *)
  else if (e =? 92)%N then Some 92%N     (* a backslash *)
  else if (e =? 47)%N then Some 47%N     (* a slash *)
  else if (e =? 98)%N then Some 8%N      (* b: backspace *)
  else if (e =? 102)%N then Some 12%N    (* f: form feed *)
  else if (e =? 110)%N then Some 10%N    (* n: line feed *)
  else if (e =? 114)%N then Some 13%N    (* r: carriage return *)
  else if (e =? 116)%N then Some 9%N     (* t: tab *)
  else None.

Definition is_high_surrogate (u : N) : bool := ((55296 <=? u) && (u <=? 56319))%N.
Definition is_low_surrogate (u : N) : bool := ((56320 <=? u) && (u <=? 57343))%N.
Definition join_surrogates (hi lo : N) : N :=
  (65536 + (hi - 55296) * 1024 + (lo - 56320))%N.

Definition letter_u : codepoint := 117%N.

(** [scanstring] in strict mode, entered after the opening quote: the decoded
    content and the text after the closing quote. *)
Fixpoint scanstring (s : pystr) : option (pystr * pystr) :=
  match s with
  | [] => None
  | c :: t =>
      if (c =? dquote)%N then Some ([], t)
      else if (c =? backslash)%N then
        match t with
        | [] => None
        | e :: t1 =>
            if (e =? letter_u)%N then
              match t1 with
              | h1 :: h2 :: h3 :: h4 :: t2 =>
                  match hex4 h1 h2 h3 h4 with
                  | None => None
                  | Some u1 =>
                      let lone :=
                        match scanstring t2 with
                        | Some (r, rest) => Some (u1 :: r, rest)
                        | None => None
                        end in
                      if is_high_surrogate u1 then
                        match t2 with
                        | b :: l :: g1 :: g2 :: g3 :: g4 :: t3 =>
                            if ((b =? backslash) && (l =? letter_u))%N then
                              match hex4 g1 g2 g3 g4 with
                              | None => None
                              | Some u2 =>
                                  if is_low_surrogate u2 then
                                    match scanstring t3 with
                                    | Some (r, rest) =>
                                        Some (join_surrogates u1 u2 :: r, rest)
                                    | None => None
                                    end
                                  else lone
                              end
                            else lone
                        | _ => lone
                        end
                      else lone
                  end
              | _ => None
              end
            else
              match unescape e with
              | None => None
              | Some ch =>
                  match scanstring t1 with
                  | Some (r, rest) => Some (ch :: r, rest)
                  | None => None
                  end
              end
        end
      else if (c <? 32)%N then None
      else
        match scanstring t with
        | Some (r, rest) => Some (c :: r, rest)
        | None => None
        end
  end.

Fixpoint span_digits (s : pystr) : pystr * pystr :=
  match s with
  | c :: t =>
      if is_digit c then let (d, r) := span_digits t in (c :: d, r) else ([], s)
  | [] => ([], [])
  end.

(** The integer part of NUMBER_RE: an optional minus sign, then 0 or a
    nonzero digit followed by digits. *)
Definition scan_int (s : pystr) : option (pystr * pystr) :=
  let (sign, s1) :=
    match s with
    | c :: t => if (c =? minus)%N then ([c], t) else ([], s)
    | [] => ([], s)
    end in
  match s1 with
  | c :: t =>
      if (c =? 48)%N then Some (sign ++ [c], t)
      else if is_digit c then
        let (d, r) := span_digits t in Some (sign ++ c :: d, r)
      else None
  | [] => None
  end.

(** The optional fraction of NUMBER_RE: a period and one or more digits. *)
Definition scan_frac (s : pystr) : pystr * pystr :=
  match s with
  | p :: t =>
      if (p =? period)%N then
        match span_digits t with
        | ([], _) => ([], s)
        | (d, r) => (p :: d, r)
        end
      else ([], s)
  | [] => ([], s)
  end.

(** The optional exponent of NUMBER_RE: e or E, an optional sign, one or more
    digits. *)
Definition scan_exp (s : pystr) : pystr * pystr :=
  match s with
  | e :: t =>
      if ((e =? 101) || (e =? 69))%N then
        let (sign, t1) :=
          match t with
          | c :: t' => if ((c =? 45) || (c =? 43))%N then ([c], t') else ([], t)
          | [] => ([], t)
          end in
        match span_digits t1 with
        | ([], _) => ([], s)
        | (d, r) => (e :: sign ++ d, r)
        end
      else ([], s)
  | [] => ([], s)
  end.

(** NUMBER_RE at the head of [s]: the value and the text left. *)
Definition scan_number (s : pystr) : option (json * pystr) :=
  match scan_int s with
  | None => None
  | Some (i, s1) =>
      let (f, s2) := scan_frac s1 in
      let (e, s3) := scan_exp s2 in
      match f, e with
      | [], [] => Some (JInt i, s3)
      | _, _ => Some (JFloat (i ++ f ++ e), s3)
      end
  end.

Definition scan_constant (s : pystr) : option (json * pystr) :=
  if starts_with (py "null") s then Some (JNull, skipn 4 s)
  else if starts_with (py "true") s then Some (JBool true, skipn 4 s)
  else if starts_with (py "false") s then Some (JBool false, skipn 5 s)
  else
    match scan_number s with
    | Some r => Some r
    | None =>
        if starts_with (py "NaN") s then Some (JFloat (py "NaN"), skipn 3 s)
        else if starts_with (py "Infinity") s
        then Some (JFloat (py "Infinity"), skipn 8 s)
        else if starts_with (py "-Infinity") s
        then Some (JFloat (py "-Infinity"), skipn 9 s)
        else None
    end.

(** [scan_once], [JSONObject] and [JSONArray].  [object_members] is entered
    after the opening quote of a key with the pairs read so far,
    [array_items] at the start of a value.  Every call is on a shorter text
    with one unit of fuel less. *)
Fixpoint scan_once (fuel : nat) (s : pystr) : option (json * pystr) :=
  match fuel with
  | O => None
  | S n =>
      match s with
      | [] => None
      | c :: t =>
          if (c =? dquote)%N then
            match scanstring t with
            | Some (str, rest) => Some (JStr str, rest)
            | None => None
            end
          else if (c =? lbrace)%N then
            match skip_ws t with
            | d :: t1 =>
                if (d =? rbrace)%N then Some (JObj [], t1)
                else if (d =? dquote)%N then object_members n t1 []
                else None
            | [] => None
            end
          else if (c =? lbracket)%N then
            match skip_ws t with
            | d :: t1 =>
                if (d =? rbracket)%N then Some (JArr [], t1)
                else array_items n (d :: t1) []
            | [] => None
            end
          else scan_constant s
      end
  end
with object_members (fuel : nat) (s : pystr) (pairs : list (pystr * json))
    : option (json * pystr) :=
  match fuel with
  | O => None
  | S n =>
      match scanstring s with
      | None => None
      | Some (key, s1) =>
          match skip_ws s1 with
          | c :: s2 =>
              if (c =? colon)%N then
                match scan_once n (skip_ws s2) with
                | None => None
                | Some (value, s3) =>
                    let pairs' := pairs ++ [(key, value)] in
                    match skip_ws s3 with
                    | d :: s4 =>
                        if (d =? rbrace)%N
                        then Some (JObj (dict_of_pairs pairs'), s4)
                        else if (d =? comma)%N then
                          match skip_ws s4 with
                          | q :: s5 =>
                              if (q =? dquote)%N
                              then object_members n s5 pairs'
                              else None
                          | [] => None
                          end
                        else None
                    | [] => None
                    end
                end
              else None
          | [] => None
          end
      end
  end
with array_items (fuel : nat) (s : pystr) (values : list json)
    : option (json * pystr) :=
  match fuel with
  | O => None
  | S n =>
      match scan_once n s with
      | None => None
      | Some (value, s1) =>
          let values' := values ++ [value] in
          match skip_ws s1 with
          | d :: s2 =>
              if (d =? rbracket)%N then Some (JArr values', s2)
              else if (d =? comma)%N then array_items n (skip_ws s2) values'
              else None
          | [] => None
          end
      end
  end.

(** [json.loads(s)]; [None] is [json.JSONDecodeError].  The fuel is more than
    the nesting of any text of this length. *)
Definition json_loads (s : pystr) : option json :=
  match scan_once (S (List.length s)) (skip_ws s) with
  | Some (v, rest) =>
      match skip_ws rest with
      | [] => Some v
      | _ :: _ => None
      end
  | None => None
  end.

End Json.
Import Json.

(** ** Exceptions, state and the calls to collaborators *)

Module Py.

(** An instance of a subclass of [Exception] raised by a library or a
    collaborator; [exc_str] is what [str(e)] gives. *)
Record py_exception : Type := { exc_type : pystr; exc_str : pystr }.

(** What [_process_analysis] can raise: fastapi's [HTTPException] with the
    value passed as [detail], or any other exception. *)
Inductive exn : Type :=
| HTTPException (status_code : N) (detail : json)
| PyExc (e : py_exception).

Record Document : Type :=
  { doc_id : pystr; doc_filename : pystr; doc_owner_id : pystr;
    doc_status : pystr }.

Record Clause : Type :=
  { cl_id : pystr; cl_document_id : pystr; cl_clause_number : pystr;
    cl_title : pystr; cl_body : pystr }.

Record ClauseAnalysis : Type :=
  { an_id : pystr; an_clause_id : pystr; an_risk_level : pystr;
    an_summary : pystr; an_suggestion : pystr }.

Inductive db_row : Type :=
| RowDocument (d : Document)
| RowClause (c : Clause)
| RowAnalysis (a : ClauseAnalysis).

(** One entry per call made to a collaborator, in the order of the calls; a
    call is recorded whether it returns or raises. *)
Inductive event : Type :=
| EOpenRead (file_path : pystr)                      (* open(file_path, "rb") *)
| EFilesCreate (file_path : pystr)                   (* client.files.create *)
| EThreadsCreate (instructions file_id : pystr)      (* client.beta.threads.create *)
| ERunsCreateAndPoll (thread_id assistant_id : pystr)
| EMessagesList (thread_id : pystr)                  (* client.beta.threads.messages.list *)
| EFilesDelete (file_id : pystr)                     (* client.files.delete *)
| EMkdir
| ESaveUpload (path : pystr)
| ERemove (path : pystr)                             (* os.remove *)
| EDbAdd (row : db_row)
| EDbFlush
| EDbCommit
| EDbRefresh
| EDbRollback.

(** The state the two functions run in: the trace of calls, whether the
    temporary file exists, and [user_file_obj], the local variable of
    [analyze_contract] that its [finally] block reads. *)
Record state : Type :=
  { trace : list event;
    temp_file_exists : bool;
    user_file_obj : option pystr }.

Section Monad.

Variable E : Type.

Inductive outcome (A : Type) : Type :=
| Value (a : A)
| Raise (e : E).

Definition M (A : Type) : Type := state -> outcome A * state.

Definition ret {A} (a : A) : M A := fun st => (Value a, st).

Definition raise {A} (e : E) : M A := fun st => (Raise A e, st).

Definition bind {A B} (c : M A) (k : A -> M B) : M B :=
  fun st =>
    match c st with
    | (Value a, st1) => k a st1
    | (Raise _ e, st1) => (Raise B e, st1)
    end.

(** try: [body] except: [handler] *)
Definition try_except {A} (body : M A) (handler : E -> M A) : M A :=
  fun st =>
    match body st with
    | (Value a, st1) => (Value a, st1)
    | (Raise _ e, st1) => handler e st1
    end.

(** try: [body] finally: [final].  The block [final] runs on every way out of
    [body]; the result of [body] stands unless [final] itself raises. *)
Definition try_finally {A} (body : M A) (final : M unit) : M A :=
  fun st =>
    match body st with
    | (r, st1) =>
        match final st1 with
        | (Value _, st2) => (r, st2)
        | (Raise _ e, st2) => (Raise A e, st2)
        end
    end.

Definition log (ev : event) : M unit :=
  fun st =>
    (Value tt,
     {| trace := trace st ++ [ev];
        temp_file_exists := temp_file_exists st;
        user_file_obj := user_file_obj st |}).

Definition get_user_file_obj : M (option pystr) :=
  fun st => (Value (user_file_obj st), st).

Definition set_user_file_obj (v : option pystr) : M unit :=
  fun st =>
    (Value tt,
     {| trace := trace st;
        temp_file_exists := temp_file_exists st;
        user_file_obj := v |}).

Definition get_temp_file_exists : M bool :=
  fun st => (Value (temp_file_exists st), st).

Definition set_temp_file_exists (b : bool) : M unit :=
  fun st =>
    (Value tt,
     {| trace := trace st;
        temp_file_exists := b;
        user_file_obj := user_file_obj st |}).

End Monad.

Arguments Value {E A} a.
Arguments Raise {E A} e.
Arguments ret {E A} a.
Arguments raise {E A} e.
Arguments bind {E A B} c k.
Arguments try_except {E A} body handler.
Arguments try_finally {E A} body final.
Arguments log {E} ev.
Arguments get_user_file_obj {E}.
Arguments set_user_file_obj {E} v.
Arguments get_temp_file_exists {E}.
Arguments set_temp_file_exists {E} b.

(** A callee that raises [py_exception] run where [exn] is raised. *)
Definition lift {A} (c : M py_exception A) : M exn A :=
  fun st =>
    match c st with
    | (Value a, st1) => (Value a, st1)
    | (Raise e, st1) => (Raise (PyExc e), st1)
    end.

End Py.
Import Py.

Declare Scope py_scope.
Delimit Scope py_scope with py.
Notation "x <- c ;; k" := (bind c (fun x => k))
  (at level 61, c at next level, right associativity) : py_scope.
Notation "c ;; k" := (bind c (fun _ => k))
  (at level 61, right associativity) : py_scope.
Open Scope py_scope.

(** A call to a collaborator: recorded, then it returns or raises as the
    script says. *)
Definition call {A} (ev : event) (answer : py_exception + A) : M py_exception A :=
  log ev ;;
  match answer with
  | inl e => raise e
  | inr a => ret a
  end.

Definition may_raise (r : option py_exception) : py_exception + unit :=
  match r with
  | Some e => inl e
  | None => inr tt
  end.

(** ** app/services/ai_advisor.py *)

(** The remote engine (the OpenAI client) and the local file the caller
    names: what each call of [analyze_contract] answers. *)
Record engine : Type :=
  { open_rb : pystr -> option py_exception;
    (* open(file_path, "rb"); None: the file opens *)
    files_create : pystr -> py_exception + pystr;
    (* client.files.create(file=f, purpose="assistants"): the id of the file object *)
    threads_create : pystr -> pystr -> py_exception + pystr;
    (* client.beta.threads.create for these instructions and file id: thread.id *)
    runs_create_and_poll : pystr -> pystr -> py_exception + pystr;
    (* create_and_poll(thread_id, assistant_id): run.status *)
    messages_first_text : pystr -> py_exception + pystr;
    (* messages.list(thread_id) and then data[0].content[0].text.value *)
    files_delete : pystr -> option py_exception
    (* client.files.delete(file_id); None: it returns *) }.

(** [os.getenv] *)
Definition environ := pystr -> option pystr.

Definition ASSISTANT_MAP (getenv : environ) : list (pystr * option pystr) :=
  [ (py "REAL_ESTATE", getenv (py "REAL_ESTATE_ASSISTANT_ID"));
    (py "WORK", getenv (py "WORK_ASSISTANT_ID"));
    (py "CONSUMER", getenv (py "CONSUMER_ASSISTANT_ID"));
    (py "NDA", getenv (py "NDA_ASSISTANT_ID"));
    (py "GENERAL", getenv (py "GENERAL_ASSISTANT_ID")) ].

(** [d.get(k)] on the registry: [None] is Python's None, for a missing key
    as for a key bound to None. *)
Fixpoint map_get (k : pystr) (d : list (pystr * option pystr)) : option pystr :=
  match d with
  | [] => None
  | (k', v) :: t => if str_eqb k k' then v else map_get k t
  end.

(** [assistant_id = ASSISTANT_MAP.get(category)] followed by the test
    [if not assistant_id]: None and the empty string are both rejected. *)
Definition resolve (getenv : environ) (category : pystr) : option pystr :=
  match map_get category (ASSISTANT_MAP getenv) with
  | None => None
  | Some [] => None
  | Some (c :: id) => Some (c :: id)
  end.

Definition instructions_REAL_ESTATE : pystr :=
  py "이 부동산 계약서를 분석해서 전세 사기 위험 요소(깡통전세 등)와 " ++
  py "임차인에게 불리한 특약사항 독소조항을 JSON으로 뽑아줘." ++
  py "특히 'analysis'와 'legal_basis' 필드는 문장이 끊기지 않도록 간결하고 명확하게 작성해줘.".

Definition instructions_WORK : pystr :=
  py "이 계약서(근로계약 또는 용역계약)를 분석해서 " ++
  py "근로기준법이나 하도급법을 위반하는 독소조항을 JSON으로 뽑아줘. " ++
  py "특히 위장도급(무늬만 프리랜서) 여부를 꼼꼼히 체크해줘." ++
  py "특히 'analysis'와 'legal_basis' 필드는 문장이 끊기지 않도록 간결하고 명확하게 작성해줘.".

Definition instructions_CONSUMER : pystr :=
  py "이 소비자 서비스 계약서(헬스장, 예식장 등)를 분석해서 " ++
  py "방문판매법이나 약관규제법에 위반되는 '환불 불가' 독소조항을 JSON으로 뽑아줘." ++
  py "특히 'analysis'와 'legal_basis' 필드는 문장이 끊기지 않도록 간결하고 명확하게 작성해줘.".

Definition instructions_NDA : pystr :=
  py "이 비밀유지서약서(NDA) 또는 전직금지약정서를 분석해서 " ++
  py "부정경쟁방지법 및 헌법상 직업선택의 자유를 침해하는 독소 조항을 JSON으로 뽑아줘. " ++
  py "특히 다음 3가지를 중점적으로 체크해줘: " ++
  py "1. 경업금지(이직 제한) 기간이 1년을 초과하여 과도한지, " ++
  py "2. 비밀의 범위가 '공지된 사실'까지 포함할 정도로 너무 포괄적인지, " ++
  py "3. 위약벌(손해배상)이 실손해 입증 없이 과도하게 설정되었는지. " ++
  py "분석 결과('analysis', 'legal_basis')는 비문이나 끊김 없이 명확한 한국어로 작성해줘.".

Definition instructions_GENERAL : pystr :=
  py "이 문서를 분석해줘. " ++
  py "1. 먼저 이게 계약서가 맞는지 확인해. (아니면 contract_type_detected: 'NOT_A_CONTRACT' 반환) " ++
  py "2. 맞다면, 민법의 '신의성실의 원칙'과 '약관규제법'을 기준으로 " ++
  py "한쪽에게 일방적으로 불리하거나 불공정한 독소 조항을 JSON으로 찾아줘. " ++
  py "분석 결과('analysis', 'legal_basis')는 비문이나 끊김 없이 명확한 한국어로 작성해줘.".

(** The if/elif chain on [category]; [None] is its final [else]. *)
Definition instructions_for (category : pystr) : option pystr :=
  if str_eqb category (py "REAL_ESTATE") then Some instructions_REAL_ESTATE
  else if str_eqb category (py "WORK") then Some instructions_WORK
  else if str_eqb category (py "CONSUMER") then Some instructions_CONSUMER
  else if str_eqb category (py "NDA") then Some instructions_NDA
  else if str_eqb category (py "GENERAL") then Some instructions_GENERAL
  else None.

(** The four error payloads, as the f-strings build them. *)
Definition error_no_assistant (category : pystr) : pystr :=
  pyq "{'error': 'Assistant ID를 찾을 수 없습니다. (Category: " ++ category ++ pyq ")'}".

Definition error_bad_category : pystr :=
  pyq "{'error': '잘못된 카테고리입니다.'}".

Definition error_run_failed (status : pystr) : pystr :=
  pyq "{'error': 'AI 분석 실패', 'status': '" ++ status ++ pyq "'}".

Definition error_internal (details : pystr) : pystr :=
  pyq "{'error': '서버 내부 에러', 'details': '" ++ details ++ pyq "'}".

(** Steps 3 to 6, the body of the [try]. *)
Definition analyze_try (eng : engine) (file_path instructions assistant_id : pystr)
    : M py_exception pystr :=
  call (EOpenRead file_path) (may_raise (open_rb eng file_path)) ;;
  fid <- call (EFilesCreate file_path) (files_create eng file_path) ;;
  set_user_file_obj (Some fid) ;;
  thread_id <- call (EThreadsCreate instructions fid)
                 (threads_create eng instructions fid) ;;
  status <- call (ERunsCreateAndPoll thread_id assistant_id)
              (runs_create_and_poll eng thread_id assistant_id) ;;
  if str_eqb status (py "completed") then
    raw_text <- call (EMessagesList thread_id) (messages_first_text eng thread_id) ;;
    ret (sanitize raw_text)
  else
    ret (error_run_failed status).

(** Step 7, the [finally] block. *)
Definition analyze_finally (eng : engine) : M py_exception unit :=
  obj <- get_user_file_obj ;;
  match obj with
  | Some fid =>
      try_except (call (EFilesDelete fid) (may_raise (files_delete eng fid)))
                 (fun _ => ret tt)
  | None => ret tt
  end.

Definition analyze_contract (getenv : environ) (eng : engine)
    (file_path category : pystr) : M py_exception pystr :=
  match resolve getenv category with
  | None => ret (error_no_assistant category)
  | Some assistant_id =>
      match instructions_for category with
      | None => ret error_bad_category
      | Some instructions =>
          set_user_file_obj None ;;
          try_finally
            (try_except
               (analyze_try eng file_path instructions assistant_id)
               (fun e => ret (error_internal (exc_str e))))
            (analyze_finally eng)
      end
  end.

(** ** app/routers/general.py *)

Definition type_name (v : json) : pystr :=
  match v with
  | JNull => py "NoneType"
  | JBool _ => py "bool"
  | JInt _ => py "int"
  | JFloat _ => py "float"
  | JStr _ => py "str"
  | JArr _ => py "list"
  | JObj _ => py "dict"
  end.

Definition AttributeError_get (v : json) : py_exception :=
  {| exc_type := py "AttributeError";
     exc_str := py "'" ++ type_name v ++ py "' object has no attribute 'get'" |}.

(** [v.get(k, default)]: a dict answers; any other value has no [get]. *)
Definition py_get (v : json) (k : pystr) (default : json) : M exn json :=
  match v with
  | JObj d =>
      ret (match dict_get k d with
           | Some x => x
           | None => default
           end)
  | _ => raise (PyExc (AttributeError_get v))
  end.

(** [v == s] for a string literal [s] *)
Definition eq_str (v : json) (s : pystr) : bool :=
  match v with
  | JStr x => str_eqb x s
  | _ => false
  end.

Definition default_reject_message : pystr := py "유효한 계약서 파일이 아닙니다.".

(** The Gatekeeper (lines 80-90): the inner [try] with its
    [except json.JSONDecodeError: pass]. *)
Definition gatekeeper (ai_result_json : pystr) : M exn unit :=
  match json_loads ai_result_json with
  | None => ret tt
  | Some result_dict =>
      summary <- py_get result_dict (py "summary") (JObj []) ;;
      contract_type <- py_get summary (py "contract_type_detected") (JStr []) ;;
      if eq_str contract_type (py "NOT_A_CONTRACT") then
        summary' <- py_get result_dict (py "summary") (JObj []) ;;
        error_msg <- py_get summary' (py "overall_comment")
                       (JStr default_reject_message) ;;
        raise (HTTPException 400 error_msg)
      else ret tt
  end.

(** Step 3: [(report_title, summary_text)] *)
Definition report_labels (category : pystr) : pystr * pystr :=
  if str_eqb category (py "WORK") then
    (py "일터(Work) 법률 자문 리포트", py "근로기준법 및 하도급법 기반 정밀 분석")
  else if str_eqb category (py "CONSUMER") then
    (py "소비자(Consumer) 권익 보호 리포트", py "소비자분쟁해결기준 및 방문판매법 기반 분석")
  else if str_eqb category (py "NDA") then
    (py "지식재산(IP) & 커리어 보호 리포트", py "부정경쟁방지법 및 영업비밀 보호 판례 기반 분석")
  else if str_eqb category (py "GENERAL") then
    (py "일반 법률 문서 분석 리포트", py "민법(신의성실의 원칙) 및 약관규제법 기반 분석")
  else
    (py "법률 자문 리포트", py "AI 법률 자문 결과").

(** The risk check (lines 130-132): a scan for a literal. *)
Definition risk_marker : pystr := pyq "'risk_level': 'HIGH'".

Definition risk_level_of (ai_result_json : pystr) : pystr :=
  if contains risk_marker ai_result_json then py "HIGH" else py "LOW".

Inductive save_outcome : Type :=
| SaveOk
| SaveOpenFails (e : py_exception)   (* open(temp_file_path, "wb") raises *)
| SaveCopyFails (e : py_exception).  (* shutil.copyfileobj raises *)

Inductive db_site : Type :=
| AddDocument | FlushDocument | AddClause | FlushClause | AddAnalysis
| Commit | Refresh | Rollback.

(** What the collaborators of [_process_analysis] answer during one call. *)
Record world : Type :=
  { getenv : environ;
    eng : engine;
    mkdir_raises : option py_exception;    (* temp_dir.mkdir(exist_ok=True) *)
    temp_path_str : pystr -> pystr;        (* str(Path("temp_files") / name) *)
    uuid_temp : pystr;                     (* the four uuid.uuid4(), in order *)
    uuid_doc : pystr;
    uuid_clause : pystr;
    uuid_analysis : pystr;
    save_upload : save_outcome;
    remove_raises : option py_exception;   (* os.remove(temp_file_path) *)
    db_raises : db_site -> option py_exception;
    created_at : pystr                     (* new_doc.created_at after db.refresh *) }.

Record UploadFile : Type := { filename : pystr }.
Record User : Type := { user_id : pystr }.

Record DocumentResponse : Type :=
  { resp_id : pystr; resp_filename : pystr; resp_status : pystr;
    resp_created_at : pystr; resp_risk_count : N }.

Definition db (w : world) (site : db_site) (ev : event) : M exn unit :=
  lift (call ev (may_raise (db_raises w site))).

(** Step 1: [with open(temp_file_path, "wb") as buffer: shutil.copyfileobj] *)
Definition save_temp (w : world) (temp_file_path : pystr) : M exn unit :=
  lift (log (ESaveUpload temp_file_path)) ;;
  match save_upload w with
  | SaveOk => set_temp_file_exists true
  | SaveOpenFails e => raise (PyExc e)
  | SaveCopyFails e => set_temp_file_exists true ;; raise (PyExc e)
  end.

(** Steps 3 and 4 and the response. *)
Definition persist (w : world) (file : UploadFile) (user : User)
    (category ai_result_json : pystr) : M exn DocumentResponse :=
  let (report_title, summary_text) := report_labels category in
  let new_doc :=
    {| doc_id := uuid_doc w; doc_filename := filename file;
       doc_owner_id := user_id user; doc_status := py "done" |} in
  db w AddDocument (EDbAdd (RowDocument new_doc)) ;;
  db w FlushDocument EDbFlush ;;
  let new_clause :=
    {| cl_id := uuid_clause w; cl_document_id := doc_id new_doc;
       cl_clause_number := py "계약 종합 분석"; cl_title := report_title;
       cl_body := py "첨부된 계약서 원본 참조" |} in
  db w AddClause (EDbAdd (RowClause new_clause)) ;;
  db w FlushClause EDbFlush ;;
  let risk_level := risk_level_of ai_result_json in
  let new_analysis :=
    {| an_id := uuid_analysis w; an_clause_id := cl_id new_clause;
       an_risk_level := risk_level; an_summary := summary_text;
       an_suggestion := ai_result_json |} in
  db w AddAnalysis (EDbAdd (RowAnalysis new_analysis)) ;;
  db w Commit EDbCommit ;;
  db w Refresh EDbRefresh ;;
  ret {| resp_id := doc_id new_doc; resp_filename := doc_filename new_doc;
         resp_status := doc_status new_doc; resp_created_at := created_at w;
         resp_risk_count := if str_eqb risk_level (py "HIGH") then 1%N else 0%N |}.

(** The body of the outer [try]. *)
Definition process_try (w : world) (file : UploadFile) (user : User)
    (category temp_file_path : pystr) : M exn DocumentResponse :=
  save_temp w temp_file_path ;;
  ai_result_json <- lift (analyze_contract (getenv w) (eng w) temp_file_path category) ;;
  gatekeeper ai_result_json ;;
  persist w file user category ai_result_json.

(** The two [except] clauses of the outer [try]. *)
Definition process_except (w : world) (category : pystr) (e : exn)
    : M exn DocumentResponse :=
  match e with
  | HTTPException _ _ =>
      db w Rollback EDbRollback ;;
      raise e
  | PyExc pe =>
      db w Rollback EDbRollback ;;
      raise (HTTPException 500
               (JStr (category ++ py " 분석 실패: " ++ exc_str pe)))
  end.

Definition process_finally (w : world) (temp_file_path : pystr) : M exn unit :=
  present <- get_temp_file_exists ;;
  if present then
    lift (call (ERemove temp_file_path) (may_raise (remove_raises w))) ;;
    set_temp_file_exists false
  else ret tt.

Definition _process_analysis (w : world) (file : UploadFile) (user : User)
    (category : pystr) : M exn DocumentResponse :=
  lift (call EMkdir (may_raise (mkdir_raises w))) ;;
  let temp_file_path :=
    temp_path_str w (category ++ py "_" ++ uuid_temp w ++ py "_" ++ filename file) in
  try_finally
    (try_except (process_try w file user category temp_file_path)
                (process_except w category))
    (process_finally w temp_file_path).

(** The state a call starts in: nothing recorded yet. *)
Definition initial : state :=
  {| trace := []; temp_file_exists := false; user_file_obj := None |}.

(** ** Vocabulary of the properties *)

Definition is_delete (ev : event) : bool :=
  match ev with
  | EFilesDelete _ => true
  | _ => false
  end.

(** How many times [client.files.delete] was called in a trace. *)
Definition deletions (evs : list event) : nat := List.length (filter is_delete evs).

Definition is_engine_event (ev : event) : bool :=
  match ev with
  | EOpenRead _ | EFilesCreate _ | EThreadsCreate _ _
  | ERunsCreateAndPoll _ _ | EMessagesList _ | EFilesDelete _ => true
  | _ => false
  end.

(** The file id when the call gets as far as the upload and the upload
    returns. *)
Definition uploaded (genv : environ) (en : engine) (file_path category : pystr)
    : option pystr :=
  match resolve genv category with
  | None => None
  | Some _ =>
      match open_rb en file_path with
      | Some _ => None
      | None =>
          match files_create en file_path with
          | inr fid => Some fid
          | inl _ => None
          end
      end
  end.

(** The same engine with another answer of [client.files.delete]. *)
Definition with_files_delete (en : engine) (d : pystr -> option py_exception)
    : engine :=
  {| open_rb := open_rb en;
     files_create := files_create en;
     threads_create := threads_create en;
     runs_create_and_poll := runs_create_and_poll en;
     messages_first_text := messages_first_text en;
     files_delete := d |}.

(** The ways steps 3 to 6 fail, each with the payload the caller gets. *)
Inductive engine_failure (en : engine) (file_path instructions assistant_id : pystr)
    : pystr -> Prop :=
| fail_open : forall e,
    open_rb en file_path = Some e ->
    engine_failure en file_path instructions assistant_id (error_internal (exc_str e))
| fail_upload : forall e,
    open_rb en file_path = None ->
    files_create en file_path = inl e ->
    engine_failure en file_path instructions assistant_id (error_internal (exc_str e))
| fail_job : forall fid e,
    open_rb en file_path = None ->
    files_create en file_path = inr fid ->
    threads_create en instructions fid = inl e ->
    engine_failure en file_path instructions assistant_id (error_internal (exc_str e))
| fail_poll : forall fid tid e,
    open_rb en file_path = None ->
    files_create en file_path = inr fid ->
    threads_create en instructions fid = inr tid ->
    runs_create_and_poll en tid assistant_id = inl e ->
    engine_failure en file_path instructions assistant_id (error_internal (exc_str e))
| fail_status : forall fid tid status,
    open_rb en file_path = None ->
    files_create en file_path = inr fid ->
    threads_create en instructions fid = inr tid ->
    runs_create_and_poll en tid assistant_id = inr status ->
    str_eqb status (py "completed") = false ->
    engine_failure en file_path instructions assistant_id (error_run_failed status)
| fail_retrieve : forall fid tid status e,
    open_rb en file_path = None ->
    files_create en file_path = inr fid ->
    threads_create en instructions fid = inr tid ->
    runs_create_and_poll en tid assistant_id = inr status ->
    str_eqb status (py "completed") = true ->
    messages_first_text en tid = inl e ->
    engine_failure en file_path instructions assistant_id (error_internal (exc_str e)).

(** The block [analyze_contract] runs once the category is resolved:
    [user_file_obj = None], then the [try] with its [except] and [finally]. *)
Definition guarded_run (en : engine) (file_path instructions assistant_id : pystr)
    : M py_exception pystr :=
  set_user_file_obj None ;;
  try_finally
    (try_except (analyze_try en file_path instructions assistant_id)
                (fun e => ret (error_internal (exc_str e))))
    (analyze_finally en).

(** ** Concrete collaborators, for the examples *)

(** Only the assistants of the WORK and GENERAL categories are configured. *)
Definition demo_env : environ :=
  fun k =>
    if str_eqb k (py "WORK_ASSISTANT_ID") then Some (py "asst_work")
    else if str_eqb k (py "GENERAL_ASSISTANT_ID") then Some (py "asst_general")
    else None.

(** An engine on which every call returns; the run ends with [status] and
    the first response message is [text]. *)
Definition demo_engine (status text : pystr) : engine :=
  {| open_rb := fun _ => None;
     files_create := fun _ => inr (py "file-1");
     threads_create := fun _ _ => inr (py "thread_1");
     runs_create_and_poll := fun _ _ => inr status;
     messages_first_text := fun _ => inr text;
     files_delete := fun _ => None |}.

Definition ConnectionError : py_exception :=
  {| exc_type := py "APIConnectionError"; exc_str := py "Connection error." |}.

(** An engine whose upload raises. *)
Definition demo_engine_upload_fails : engine :=
  {| open_rb := fun _ => None;
     files_create := fun _ => inl ConnectionError;
     threads_create := fun _ _ => inr (py "thread_1");
     runs_create_and_poll := fun _ _ => inr (py "completed");
     messages_first_text := fun _ => inr [];
     files_delete := fun _ => None |}.

(** Collaborators of [_process_analysis] that all return. *)
Definition demo_world (en : engine) : world :=
  {| getenv := demo_env;
     eng := en;
     mkdir_raises := None;
     temp_path_str := fun name => py "temp_files/" ++ name;
     uuid_temp := py "u0";
     uuid_doc := py "u1";
     uuid_clause := py "u2";
     uuid_analysis := py "u3";
     save_upload := SaveOk;
     remove_raises := None;
     db_raises := fun _ => None;
     created_at := py "2024-01-01T00:00:00" |}.

Definition demo_file : UploadFile := {| filename := py "contract.pdf" |}.
Definition demo_user : User := {| user_id := py "user-1" |}.

(** ** Vocabulary of the gatekeeper properties *)

(** The value at [summary.<field>] of a parsed result: the top level is an
    object, its summary is an object, and the field is there. *)
Definition summary_field (result : json) (field : pystr) : option json :=
  match result with
  | JObj d =>
      match dict_get (py "summary") d with
      | Some (JObj sm) => dict_get field sm
      | _ => None
      end
  | _ => None
  end.

Definition not_a_dict (v : json) : bool :=
  match v with
  | JObj _ => false
  | _ => true
  end.


(** The analysis row and the response a completed call produces from the
    orchestrator's output. *)
Definition stored_analysis (w : world) (category ai_result_json : pystr)
    : ClauseAnalysis :=
  {| an_id := uuid_analysis w; an_clause_id := uuid_clause w;
     an_risk_level := risk_level_of ai_result_json;
     an_summary := snd (report_labels category);
     an_suggestion := ai_result_json |}.

Definition response (w : world) (file : UploadFile) (ai_result_json : pystr)
    : DocumentResponse :=
  {| resp_id := uuid_doc w; resp_filename := filename file;
     resp_status := py "done"; resp_created_at := created_at w;
     resp_risk_count :=
       if str_eqb (risk_level_of ai_result_json) (py "HIGH") then 1%N else 0%N |}.

Definition temp_path (w : world) (file : UploadFile) (category : pystr) : pystr :=
  temp_path_str w (category ++ py "_" ++ uuid_temp w ++ py "_" ++ filename file).

(** The database calls of a call that persists its result. *)
Definition persist_events (w : world) (file : UploadFile) (user : User)
    (category ai_result_json : pystr) : list event :=
  [ EDbAdd (RowDocument
              {| doc_id := uuid_doc w; doc_filename := filename file;
                 doc_owner_id := user_id user; doc_status := py "done" |});
    EDbFlush;
    EDbAdd (RowClause
              {| cl_id := uuid_clause w; cl_document_id := uuid_doc w;
                 cl_clause_number := py "계약 종합 분석";
                 cl_title := fst (report_labels category);
                 cl_body := py "첨부된 계약서 원본 참조" |});
    EDbFlush;
    EDbAdd (RowAnalysis (stored_analysis w category ai_result_json));
    EDbCommit;
    EDbRefresh ].

(** What is left of [_process_analysis] once the orchestrator has returned
    [ai]: the gatekeeper and the persistence, inside the handlers. *)
Definition after_analysis (w : world) (file : UploadFile) (user : User)
    (category ai : pystr) : M exn DocumentResponse :=
  try_finally
    (try_except (gatekeeper ai ;; persist w file user category ai)
                (process_except w category))
    (process_finally w (temp_path w file category)).

(** The response text of the end-to-end example, and the same text with the
    space after the colon that the scanned literal has. *)
Definition high_compact : pystr := pyq "{'risk_level':'HIGH','clauses':[]}".
Definition high_spaced : pystr := pyq "{'risk_level': 'HIGH','clauses':[]}".


(** A character that stands for itself inside a JSON string: no double
    quote, no backslash, no control character. *)
Definition plain_char (c : codepoint) : bool :=
  negb ((c =? dquote) || (c =? backslash) || (c <? 32))%N.

(** ** Vocabulary of the further properties *)

(** The engine calls of one analysis, in the order the code makes them, for
    a file uploaded as [fid] and a thread created as [tid]. *)
Definition pipeline (file_path instructions assistant_id fid tid : pystr)
    : list event :=
  [ EOpenRead file_path;
    EFilesCreate file_path;
    EThreadsCreate instructions fid;
    ERunsCreateAndPoll tid assistant_id;
    EMessagesList tid ].

(** The database calls of [persist], in the order the code makes them. *)
Definition db_sites_in_order : list db_site :=
  [AddDocument; FlushDocument; AddClause; FlushClause; AddAnalysis; Commit; Refresh].

(** The first database call of [persist] that raises, with what it raises. *)
Fixpoint first_failure (raises : db_site -> option py_exception)
    (sites : list db_site) : option (db_site * py_exception) :=
  match sites with
  | [] => None
  | s :: rest =>
      match raises s with
      | Some e => Some (s, e)
      | None => first_failure raises rest
      end
  end.

Definition is_commit (ev : event) : bool :=
  match ev with
  | EDbCommit => true
  | _ => false
  end.

Definition is_rollback (ev : event) : bool :=
  match ev with
  | EDbRollback => true
  | _ => false
  end.

Definition is_refresh_site (s : db_site) : bool :=
  match s with
  | Refresh => true
  | _ => false
  end.

Definition is_refresh (ev : event) : bool :=
  match ev with
  | EDbRefresh => true
  | _ => false
  end.

Definition is_commit_site (s : db_site) : bool :=
  match s with
  | Commit => true
  | _ => false
  end.

Definition IntegrityError : py_exception :=
  {| exc_type := py "IntegrityError"; exc_str := py "connection lost" |}.

(** Collaborators on which everything returns except [db.refresh]. *)
Definition demo_world_refresh_fails (en : engine) : world :=
  {| getenv := demo_env;
     eng := en;
     mkdir_raises := None;
     temp_path_str := fun name => py "temp_files/" ++ name;
     uuid_temp := py "u0";
     uuid_doc := py "u1";
     uuid_clause := py "u2";
     uuid_analysis := py "u3";
     save_upload := SaveOk;
     remove_raises := None;
     db_raises := fun s => if is_refresh_site s then Some IntegrityError else None;
     created_at := py "2024-01-01T00:00:00" |}.

(** ** Vocabulary of the sanitizer properties *)

(** The text after steps (1) and (2) of the post-processing, before the
    brace extraction. *)
Definition cleaned (raw_text : pystr) : pystr :=
  sub_empty cite_re (sub_empty fence_re (strip raw_text)).

(** Where the lazy [.*?】] stops: the text after the first closing bracket,
    if it comes before any line feed. *)
Fixpoint lazy_close (t : pystr) : option pystr :=
  match t with
  | [] => None
  | c :: t' =>
      if (cite_close =? c)%N then Some t'
      else if is_nl c then None
      else lazy_close t'
  end.

(** Where the greedy [.*\}] stops: the text after the last closing brace. *)
Fixpoint after_last_rbrace (t : pystr) : option pystr :=
  match t with
  | [] => None
  | c :: t' =>
      match after_last_rbrace t' with
      | Some r => Some r
      | None => if (rbrace =? c)%N then Some t' else None
      end
  end.

Definition is_backtick (c : codepoint) : bool := (c =? backtick)%N.

(** The characters the sanitizer looks for that JSON allows inside strings
    only: the backtick and the two citation brackets. *)
Definition string_only (c : codepoint) : bool :=
  ((c =? backtick) || (c =? cite_open) || (c =? cite_close))%N.

(** No character of the class [P] sits at the start or at the end of a line
    of [s]: each has a character before it and one after it, and neither is
    a line feed.  [prev] is the character before [s], if any. *)
Fixpoint guarded (P : codepoint -> bool) (prev : option codepoint) (s : pystr)
    : bool :=
  match s with
  | [] => true
  | c :: t =>
      (if P c then
         match prev with
         | Some p => negb (is_nl p)
         | None => false
         end
         && match t with
            | d :: _ => negb (is_nl d)
            | [] => false
            end
       else true)
      && guarded P (Some c) t
  end.

(** The line-start flag of the matcher after the character [prev]. *)
Definition bol_of (prev : option codepoint) : bool :=
  match prev with
  | Some p => is_nl p
  | None => true
  end.

Definition has (c : codepoint) (s : pystr) : bool := existsb (N.eqb c) s.

(** Step (1) alone, which is also all that [analyze_labor_contract] does to
    the response text. *)
Definition unfence (raw_text : pystr) : pystr :=
  sub_empty fence_re (strip raw_text).

(** What follows the three backticks of a closing fence: [$] under
    re.MULTILINE. *)
Definition at_eol (s : pystr) : bool :=
  match s with
  | [] => true
  | d :: _ => is_nl d
  end.

(** The continuation of the second alternative of [fence_re] after its
    [\s*]: three backticks and the end of a line. *)
Definition closing_fence : cont :=
  run (Cat (Lit (py "```")) Eol) (fun _ rest => Some rest).

(** A text with a first and a last character, neither of them white space:
    [strip] leaves it as it is. *)
Definition trimmed (s : pystr) : bool :=
  match s with
  | c :: _ => negb (is_space c)
  | [] => false
  end
  && match rev s with
     | l :: _ => negb (is_space l)
     | [] => false
     end.

(** The characters of a JSON number. *)
Definition number_char (c : codepoint) : bool :=
  (is_digit c || (c =? 45) || (c =? 43) || (c =? 46) || (c =? 101) || (c =? 69))%N.

Definition outside_strings (c : codepoint) : bool := negb (string_only c).

(** Reading [s] leaves [r]: what was read is guarded, for the backtick and
    the citation brackets, after the character [prev]. *)
Definition reads (prev : option codepoint) (s r : pystr) : Prop :=
  exists pre, s = pre ++ r /\ guarded string_only prev pre = true.

(** The characters of a JSON number or literal. *)
Definition constant_char (c : codepoint) : bool :=
  (number_char c || (65 <=? c) && (c <=? 90) || (97 <=? c) && (c <=? 122))%N.

(** ** app/services/law_advisor.py *)

(** The content of the one user message of the thread. *)
Definition labor_instructions : pystr :=
  py "이 근로계약서를 분석해서 독소 조항을 JSON으로 알려줘.".

Definition labor_error_unset : pystr :=
  pyq "{'error': 'ASSISTANT_ID가 설정되지 않았습니다.'}".

Definition labor_error_status (status : pystr) : pystr :=
  pyq "{'error': '분석 실패', 'status': '" ++ status ++ pyq "'}".

Definition labor_error_exception (details : pystr) : pystr :=
  pyq "{'error': '에러 발생', 'details': '" ++ details ++ pyq "'}".

(** Steps 1 to 4, the body of the [try]. *)
Definition labor_try (eng : engine) (file_path assistant_id : pystr)
    : M py_exception pystr :=
  call (EOpenRead file_path) (may_raise (open_rb eng file_path)) ;;
  fid <- call (EFilesCreate file_path) (files_create eng file_path) ;;
  set_user_file_obj (Some fid) ;;
  thread_id <- call (EThreadsCreate labor_instructions fid)
                 (threads_create eng labor_instructions fid) ;;
  status <- call (ERunsCreateAndPoll thread_id assistant_id)
              (runs_create_and_poll eng thread_id assistant_id) ;;
  if str_eqb status (py "completed") then
    raw_value <- call (EMessagesList thread_id) (messages_first_text eng thread_id) ;;
    ret (unfence raw_value)
  else
    ret (labor_error_status status).

(** [ASSISTANT_ID = os.getenv("ASSISTANT_ID")] is read when the module is
    loaded; [if not ASSISTANT_ID] rejects None and the empty string.  The
    [finally] block is the one of [analyze_contract]. *)
Definition analyze_labor_contract (getenv : environ) (eng : engine)
    (file_path : pystr) : M py_exception pystr :=
  match getenv (py "ASSISTANT_ID") with
  | None => ret labor_error_unset
  | Some [] => ret labor_error_unset
  | Some (c :: id) =>
      set_user_file_obj None ;;
      try_finally
        (try_except
           (labor_try eng file_path (c :: id))
           (fun e => ret (labor_error_exception (exc_str e))))
        (analyze_finally eng)
  end.

(** An environment with the labour assistant configured. *)
Definition labor_env : environ :=
  fun k => if str_eqb k (py "ASSISTANT_ID") then Some (py "asst_labor") else None.

(** ** Vocabulary of the failure payloads *)

(** The text of an object with the key error and one more key, both bound
    to strings of plain characters, as the f-strings of the orchestrator
    write it. *)
Definition two_strings_text (v1 k2 v2 : pystr) : pystr :=
  lbrace :: dquote
    :: py "error" ++ dquote :: colon :: 32%N :: dquote
    :: v1 ++ dquote :: comma :: 32%N :: dquote
    :: k2 ++ dquote :: colon :: 32%N :: dquote
    :: v2 ++ [dquote; rbrace].

(** [subseq a b]: [a] is [b] with some of its characters deleted. *)
Inductive subseq : pystr -> pystr -> Prop :=
| subseq_nil : subseq [] []
| subseq_keep : forall c a b, subseq a b -> subseq (c :: a) (c :: b)
| subseq_drop : forall c a b, subseq a b -> subseq a (c :: b).

(** ** Vocabulary of the engine's failures *)

Inductive failure_kind : Type :=
| RaisedException     (* a call raised [e]; the text is [str(e)] *)
| RunNotCompleted.    (* the run ended; the text is [run.status] *)

(** The first engine call of one analysis that fails, with the text the
    payload embeds: the text of the exception a call raised (the calls
    before it having returned), or the status of a run that did not end as
    completed. *)
Inductive engine_fault (en : engine) (file_path instructions assistant_id : pystr)
    : failure_kind -> pystr -> Prop :=
| fault_open : forall e,
    open_rb en file_path = Some e ->
    engine_fault en file_path instructions assistant_id RaisedException (exc_str e)
| fault_upload : forall e,
    open_rb en file_path = None ->
    files_create en file_path = inl e ->
    engine_fault en file_path instructions assistant_id RaisedException (exc_str e)
| fault_job : forall fid e,
    open_rb en file_path = None ->
    files_create en file_path = inr fid ->
    threads_create en instructions fid = inl e ->
    engine_fault en file_path instructions assistant_id RaisedException (exc_str e)
| fault_poll : forall fid tid e,
    open_rb en file_path = None ->
    files_create en file_path = inr fid ->
    threads_create en instructions fid = inr tid ->
    runs_create_and_poll en tid assistant_id = inl e ->
    engine_fault en file_path instructions assistant_id RaisedException (exc_str e)
| fault_retrieve : forall fid tid status e,
    open_rb en file_path = None ->
    files_create en file_path = inr fid ->
    threads_create en instructions fid = inr tid ->
    runs_create_and_poll en tid assistant_id = inr status ->
    str_eqb status (py "completed") = true ->
    messages_first_text en tid = inl e ->
    engine_fault en file_path instructions assistant_id RaisedException (exc_str e)
| fault_status : forall fid tid status,
    open_rb en file_path = None ->
    files_create en file_path = inr fid ->
    threads_create en instructions fid = inr tid ->
    runs_create_and_poll en tid assistant_id = inr status ->
    str_eqb status (py "completed") = false ->
    engine_fault en file_path instructions assistant_id RunNotCompleted status.

(** Every engine call returns, the run ends as completed and the first
    response text is [raw_text]. *)
Definition engine_completes (en : engine)
    (file_path instructions assistant_id raw_text : pystr) : Prop :=
  exists fid tid status,
    open_rb en file_path = None /\
    files_create en file_path = inr fid /\
    threads_create en instructions fid = inr tid /\
    runs_create_and_poll en tid assistant_id = inr status /\
    str_eqb status (py "completed") = true /\
    messages_first_text en tid = inr raw_text.

(** An exception whose text has double quotes, as the messages of the
    client library do when they quote a name. *)
Definition QuotedError : py_exception :=
  {| exc_type := py "BadRequestError";
     exc_str := pyq "Invalid value for 'purpose'" |}.

(** An engine whose upload raises it. *)
Definition demo_engine_quoted_error : engine :=
  {| open_rb := fun _ => None;
     files_create := fun _ => inl QuotedError;
     threads_create := fun _ _ => inr (py "thread_1");
     runs_create_and_poll := fun _ _ => inr (py "completed");
     messages_first_text := fun _ => inr [];
     files_delete := fun _ => None |}.

(** * Proofs *)

Unset Implicit Arguments.

Ltac monad_step :=
  cbv beta iota zeta delta
      [bind ret raise call log try_except try_finally may_raise lift
       get_user_file_obj set_user_file_obj get_temp_file_exists
       set_temp_file_exists analyze_try analyze_finally];
  cbn [trace user_file_obj temp_file_exists fst snd].

(** Case analysis on the next answer of a collaborator the run is stuck on. *)
Ltac oracle_case :=
  match goal with
  | |- context [match ?x with _ => _ end] =>
      lazymatch x with
      | open_rb _ _ => destruct x eqn:?
      | files_create _ _ => destruct x eqn:?
      | threads_create _ _ _ => destruct x eqn:?
      | runs_create_and_poll _ _ _ => destruct x eqn:?
      | messages_first_text _ _ => destruct x eqn:?
      | files_delete _ _ => destruct x eqn:?
      | str_eqb _ (py "completed") => destruct x eqn:?
      end
  | |- context [if ?x then _ else _] =>
      lazymatch x with
      | str_eqb _ (py "completed") => destruct x eqn:?
      end
  end.

Ltac run_analyze := monad_step; repeat (oracle_case; monad_step).

(** C8: the json-labelled fenced block around {"a":1} sanitizes to
    exactly {"a":1}. *)
Theorem sanitize_fenced_example :
  sanitize (py "```json" ++ [nl] ++ pyq "{'a':1}" ++ [nl] ++ py "```")
  = pyq "{'a':1}".
Proof. vm_compute. reflexivity. Qed.

(** ** The orchestrator *)

Section AnalyzeContract.

Variable genv : environ.
Variable en : engine.
Variable file_path category : pystr.

(** The final [else] of the instruction chain is dead code: a category the
    registry resolves is one of its five keys. *)
Lemma resolve_has_instructions :
  forall assistant_id,
    resolve genv category = Some assistant_id ->
    exists instructions, instructions_for category = Some instructions.
Proof.
  unfold resolve, instructions_for, ASSISTANT_MAP, map_get.
  intros assistant_id H.
  destruct (str_eqb category (py "REAL_ESTATE")); [eauto|].
  destruct (str_eqb category (py "WORK")); [eauto|].
  destruct (str_eqb category (py "CONSUMER")); [eauto|].
  destruct (str_eqb category (py "NDA")); [eauto|].
  destruct (str_eqb category (py "GENERAL")); [eauto|].
  discriminate.
Qed.

Lemma analyze_contract_resolved :
  forall assistant_id instructions,
    resolve genv category = Some assistant_id ->
    instructions_for category = Some instructions ->
    analyze_contract genv en file_path category
    = guarded_run en file_path instructions assistant_id.
Proof.
  intros a i Hr Hi. unfold analyze_contract. rewrite Hr, Hi. reflexivity.
Qed.

(** Every way through the guarded block returns a string. *)
Lemma guarded_run_returns :
  forall instructions assistant_id st,
    exists s, fst (guarded_run en file_path instructions assistant_id st) = Value s.
Proof.
  intros i a st. unfold guarded_run. run_analyze; eauto.
Qed.

Lemma guarded_run_failure :
  forall instructions assistant_id st payload,
    engine_failure en file_path instructions assistant_id payload ->
    fst (guarded_run en file_path instructions assistant_id st) = Value payload.
Proof.
  intros i a st payload H. unfold guarded_run.
  destruct H; monad_step;
    repeat match goal with
           | H : _ = _ |- _ => rewrite H; clear H; monad_step
           end;
    run_analyze; reflexivity.
Qed.

(** The calls the guarded block makes: engine calls only, and one deletion
    exactly when the upload returned a file, as the last call. *)
Lemma guarded_run_trace :
  forall instructions assistant_id st,
    exists evs,
      trace (snd (guarded_run en file_path instructions assistant_id st))
      = trace st ++ evs /\
      forallb is_engine_event evs = true /\
      match open_rb en file_path, files_create en file_path with
      | None, inr fid =>
          deletions evs = 1 /\ exists evs', evs = evs' ++ [EFilesDelete fid]
      | _, _ => deletions evs = 0
      end.
Proof.
  intros i a st. unfold guarded_run. run_analyze;
    repeat rewrite <- app_assoc; cbn [app];
    eexists; (split; [reflexivity|]); (split; [reflexivity|]);
    try reflexivity;
    (split; [reflexivity|]);
    match goal with
    | |- exists evs', ?l = _ =>
        let r := eval cbv [removelast] in (removelast l) in exists r; reflexivity
    end.
Qed.

Lemma guarded_run_ignores_delete_answer :
  forall d instructions assistant_id st,
    fst (guarded_run (with_files_delete en d) file_path instructions assistant_id st)
    = fst (guarded_run en file_path instructions assistant_id st).
Proof.
  intros d i a st. unfold guarded_run, with_files_delete.
  monad_step. cbn [open_rb files_create threads_create runs_create_and_poll
                   messages_first_text files_delete].
  run_analyze; try reflexivity;
    destruct (d _); reflexivity.
Qed.

End AnalyzeContract.

(** An unresolved category: the error payload, and the state as it was. *)
Lemma unresolved_category_aux :
  forall genv en file_path category st,
    resolve genv category = None ->
    analyze_contract genv en file_path category st
    = (Value (error_no_assistant category), st).
Proof.
  intros genv en file_path category st H.
  unfold analyze_contract. rewrite H. reflexivity.
Qed.

(** C4: a category the registry does not resolve makes [analyze_contract]
    return its error payload at once: the state, and so the trace of calls,
    is unchanged: no upload, no thread, no run.  The resolution is the pure
    function [resolve]. *)
Theorem unresolved_category_no_engine_interaction :
  forall genv en file_path category st,
    resolve genv category = None ->
    analyze_contract genv en file_path category st
    = (Value (error_no_assistant category), st).
Proof.
  intros genv en file_path category st H.
  apply unresolved_category_aux. exact H.
Qed.

Lemma unresolved_category_no_engine_interaction_witness :
  resolve demo_env (py "FOO") = None /\
  analyze_contract demo_env (demo_engine (py "completed") []) (py "f.pdf")
    (py "FOO") initial
  = (Value (error_no_assistant (py "FOO")), initial).
Proof.
  split; [reflexivity|].
  apply (unresolved_category_no_engine_interaction
           demo_env (demo_engine (py "completed") []) (py "f.pdf") (py "FOO") initial).
  reflexivity.
Defined.

(** C1, as the code has it: [client.files.delete] is called once, as the
    last call, when the upload returned, and not at all otherwise; what it
    answers never changes the result of the call. *)
Theorem artifact_deleted_once_iff_uploaded :
  forall genv en file_path category st,
    (exists evs,
        trace (snd (analyze_contract genv en file_path category st))
        = trace st ++ evs /\
        match uploaded genv en file_path category with
        | Some fid =>
            deletions evs = 1 /\ exists evs', evs = evs' ++ [EFilesDelete fid]
        | None => deletions evs = 0
        end) /\
    (forall d,
        fst (analyze_contract genv (with_files_delete en d) file_path category st)
        = fst (analyze_contract genv en file_path category st)).
Proof.
  intros genv en file_path category st.
  unfold uploaded.
  destruct (resolve genv category) as [a|] eqn:Hr.
  - destruct (resolve_has_instructions genv category _ Hr) as [i Hi].
    rewrite (analyze_contract_resolved genv en file_path category _ _ Hr Hi).
    split.
    + destruct (guarded_run_trace en file_path i a st) as [evs [Ht [_ Hd]]].
      exists evs. split; [exact Ht|].
      destruct (open_rb en file_path); [exact Hd|].
      destruct (files_create en file_path); exact Hd.
    + intro d.
      rewrite (analyze_contract_resolved genv (with_files_delete en d)
                 file_path category _ _ Hr Hi).
      apply guarded_run_ignores_delete_answer.
  - split.
    + exists []. rewrite unresolved_category_aux by exact Hr.
      rewrite app_nil_r. split; reflexivity.
    + intro d. rewrite !unresolved_category_aux by exact Hr. reflexivity.
Qed.

(** C1, as the claim has it, fails: when the upload raises, the call returns
    an error payload and [client.files.delete] is not called at all. *)
Lemma deletion_not_invoked_when_upload_fails :
  let r := analyze_contract demo_env demo_engine_upload_fails (py "f.pdf")
             (py "WORK") initial in
  fst r = Value (error_internal (py "Connection error.")) /\
  deletions (trace (snd r)) <> 1.
Proof.
  vm_compute. split; [reflexivity|discriminate].
Qed.

(** ** The gatekeeper *)

Lemma str_eqb_refl : forall a, str_eqb a a = true.
Proof.
  induction a as [|x a IH]; [reflexivity|].
  cbn. rewrite N.eqb_refl. exact IH.
Qed.

Lemma str_eqb_eq : forall a b, str_eqb a b = true <-> a = b.
Proof.
  induction a as [|x a IH]; destruct b as [|y b]; cbn; split; intro H;
    try reflexivity; try discriminate.
  - apply andb_true_iff in H. destruct H as [H1 H2].
    apply N.eqb_eq in H1. apply IH in H2. congruence.
  - inversion H; subst. rewrite N.eqb_refl. apply str_eqb_refl.
Qed.

Lemma eq_str_false : forall v s, v <> JStr s -> eq_str v s = false.
Proof.
  intros v s H. destruct v; try reflexivity.
  cbn. destruct (str_eqb p s) eqn:E; [|reflexivity].
  apply str_eqb_eq in E. congruence.
Qed.



Lemma gatekeeper_passes :
  forall ai result v,
    json_loads ai = Some result ->
    summary_field result (py "contract_type_detected") = Some v ->
    v <> JStr (py "NOT_A_CONTRACT") ->
    gatekeeper ai = ret tt.
Proof.
  intros ai result v Hp Hf Hv. unfold gatekeeper. rewrite Hp.
  unfold summary_field in Hf.
  destruct result; try discriminate.
  destruct (dict_get (py "summary") l) as [sv|] eqn:Hs; [|discriminate].
  destruct sv; try discriminate.
  cbv beta iota zeta delta [py_get bind ret raise].
  rewrite Hs. cbv beta iota zeta.
  rewrite Hf. rewrite (eq_str_false _ _ Hv). reflexivity.
Qed.

Lemma gatekeeper_attribute_error :
  forall ai result x,
    json_loads ai = Some result ->
    (not_a_dict result = true /\ x = result) \/
    (exists d, result = JObj d /\ dict_get (py "summary") d = Some x /\
               not_a_dict x = true) ->
    gatekeeper ai = raise (PyExc (AttributeError_get x)).
Proof.
  intros ai result x Hp H. unfold gatekeeper. rewrite Hp.
  destruct H as [[Hn ->]|[d [-> [Hs Hn]]]].
  - destruct result; try discriminate; reflexivity.
  - cbv beta iota zeta delta [py_get bind ret raise]. rewrite Hs.
    destruct x; try discriminate; reflexivity.
Qed.

(** ** [_process_analysis] around the orchestrator *)

Lemma guarded_run_temp :
  forall en file_path instructions assistant_id st,
    temp_file_exists (snd (guarded_run en file_path instructions assistant_id st))
    = temp_file_exists st.
Proof.
  intros. unfold guarded_run. run_analyze; reflexivity.
Qed.

Lemma analyze_contract_returns :
  forall genv en file_path category st,
    exists s, fst (analyze_contract genv en file_path category st) = Value s.
Proof.
  intros genv en file_path category st.
  destruct (resolve genv category) as [a|] eqn:Hr.
  - destruct (resolve_has_instructions genv category _ Hr) as [i Hi].
    rewrite (analyze_contract_resolved genv en file_path category _ _ Hr Hi).
    apply guarded_run_returns.
  - rewrite unresolved_category_aux by exact Hr. cbn [fst]. eauto.
Qed.

(** The orchestrator only talks to the engine, and leaves the temporary
    file alone. *)
Lemma analyze_contract_effects :
  forall genv en file_path category st,
    exists evs,
      trace (snd (analyze_contract genv en file_path category st)) = trace st ++ evs /\
      forallb is_engine_event evs = true /\
      temp_file_exists (snd (analyze_contract genv en file_path category st))
      = temp_file_exists st.
Proof.
  intros genv en file_path category st.
  destruct (resolve genv category) as [a|] eqn:Hr.
  - destruct (resolve_has_instructions genv category _ Hr) as [i Hi].
    rewrite (analyze_contract_resolved genv en file_path category _ _ Hr Hi).
    destruct (guarded_run_trace en file_path i a st) as [evs [Ht [He _]]].
    exists evs. repeat split; try assumption. apply guarded_run_temp.
  - rewrite unresolved_category_aux by exact Hr.
    exists []. cbn. rewrite app_nil_r. repeat split.
Qed.

Ltac process_step :=
  cbv beta iota zeta delta
      [bind ret raise call log try_except try_finally may_raise lift
       get_user_file_obj set_user_file_obj get_temp_file_exists
       set_temp_file_exists db save_temp process_try process_except
       process_finally _process_analysis after_analysis];
  cbn [trace user_file_obj temp_file_exists fst snd].

Section ProcessAnalysis.

Variable w : world.
Variable file : UploadFile.
Variable user : User.
Variable category : pystr.
Variable ai : pystr.

Hypothesis mkdir_ok : mkdir_raises w = None.
Hypothesis save_ok : save_upload w = SaveOk.
Hypothesis remove_ok : remove_raises w = None.
Hypothesis analysis :
  forall st,
    fst (analyze_contract (getenv w) (eng w) (temp_path w file category) category st)
    = Value ai.

Lemma process_analysis_unfold :
  forall st,
    exists st2 evs,
      forallb is_engine_event evs = true /\
      trace st2
      = trace st ++ EMkdir :: ESaveUpload (temp_path w file category) :: evs /\
      temp_file_exists st2 = true /\
      _process_analysis w file user category st = after_analysis w file user category ai st2.
Proof.
  intro st.
  process_step. rewrite mkdir_ok, save_ok. process_step.
  fold (temp_path w file category).
  match goal with
  | |- context [analyze_contract ?g ?e ?p ?c ?s] =>
      pose proof (analysis s) as Hv;
      destruct (analyze_contract_effects g e p c s) as [evs [Ht [He Hx]]];
      destruct (analyze_contract g e p c s) as [o st2] eqn:E
  end.
  cbn [fst snd trace temp_file_exists] in *. subst o.
  process_step.
  exists st2, evs. split; [exact He|].
  split; [rewrite Ht; repeat rewrite <- app_assoc; reflexivity|].
  split; [exact Hx|].
  reflexivity.
Qed.


(** The gatekeeper raises [e]: the rollback, then what the handler raises. *)
Lemma after_analysis_raises :
  forall st2 e,
    gatekeeper ai = raise e ->
    db_raises w Rollback = None ->
    temp_file_exists st2 = true ->
    fst (after_analysis w file user category ai st2)
    = Raise (match e with
             | HTTPException _ _ => e
             | PyExc pe =>
                 HTTPException 500
                   (JStr (category ++ py " 분석 실패: " ++ exc_str pe))
             end) /\
    trace (snd (after_analysis w file user category ai st2))
    = trace st2 ++ [EDbRollback; ERemove (temp_path w file category)].
Proof.
  intros st2 e Hg Hdb Hx. unfold after_analysis. rewrite Hg.
  process_step. destruct e; process_step; rewrite Hdb; process_step;
    rewrite Hx, remove_ok; process_step;
    repeat rewrite <- app_assoc; split; reflexivity.
Qed.

End ProcessAnalysis.

Section ProcessAnalysisCases.

Variable w : world.
Variable file : UploadFile.
Variable user : User.
Variable category : pystr.
Variable ai : pystr.

Hypothesis mkdir_ok : mkdir_raises w = None.
Hypothesis save_ok : save_upload w = SaveOk.
Hypothesis remove_ok : remove_raises w = None.
Hypothesis analysis :
  forall st,
    fst (analyze_contract (getenv w) (eng w) (temp_path w file category) category st)
    = Value ai.


Lemma process_raises :
  forall st e,
    gatekeeper ai = raise e ->
    db_raises w Rollback = None ->
    fst (_process_analysis w file user category st)
    = Raise (match e with
             | HTTPException _ _ => e
             | PyExc pe =>
                 HTTPException 500
                   (JStr (category ++ py " 분석 실패: " ++ exc_str pe))
             end) /\
    exists evs,
      forallb is_engine_event evs = true /\
      trace (snd (_process_analysis w file user category st))
      = trace st ++ EMkdir :: ESaveUpload (temp_path w file category) :: evs
        ++ [EDbRollback; ERemove (temp_path w file category)].
Proof.
  intros st e Hg Hdb.
  destruct (process_analysis_unfold w file user category ai
              mkdir_ok save_ok analysis st)
    as [st2 [evs [He [Ht2 [Hx ->]]]]].
  destruct (after_analysis_raises w file user category ai remove_ok st2 e Hg Hdb Hx) as [Hv Ht].
  split; [exact Hv|].
  exists evs. split; [exact He|].
  rewrite Ht, Ht2. rewrite <- app_assoc. reflexivity.
Qed.

End ProcessAnalysisCases.





(** C10: when the orchestrator's output parses but its top level is not an
    object, or its summary is not an object, the [get] raises
    AttributeError, the broad handler rolls the transaction back, nothing is
    stored, and the call raises HTTPException 500. *)
Theorem gatekeeper_attribute_error_is_500 :
  forall w file user category ai st result x,
    mkdir_raises w = None ->
    save_upload w = SaveOk ->
    remove_raises w = None ->
    db_raises w Rollback = None ->
    (forall st',
        fst (analyze_contract (getenv w) (eng w) (temp_path w file category)
               category st') = Value ai) ->
    json_loads ai = Some result ->
    (not_a_dict result = true /\ x = result) \/
    (exists d, result = JObj d /\ dict_get (py "summary") d = Some x /\
               not_a_dict x = true) ->
    let r := _process_analysis w file user category st in
    fst r = Raise (HTTPException 500
                     (JStr (category ++ py " 분석 실패: "
                              ++ exc_str (AttributeError_get x)))) /\
    exists evs,
      forallb is_engine_event evs = true /\
      trace (snd r)
      = trace st ++ EMkdir :: ESaveUpload (temp_path w file category) :: evs
        ++ [EDbRollback; ERemove (temp_path w file category)].
Proof.
  intros w file user category ai st result x Hm Hs Hr Hdb Ha Hp Hx r. subst r.
  exact (process_raises w file user category ai Hm Hs Hr Ha st _
           (gatekeeper_attribute_error ai result x Hp Hx) Hdb).
Qed.

Lemma gatekeeper_attribute_error_is_500_witness :
  let w := demo_world (demo_engine (py "completed") (py "[1]")) in
  fst (_process_analysis w demo_file demo_user (py "WORK") initial)
  = Raise (HTTPException 500
             (JStr (py "WORK 분석 실패: 'list' object has no attribute 'get'"))).
Proof.
  intro w.
  destruct (gatekeeper_attribute_error_is_500 w demo_file demo_user (py "WORK")
              (py "[1]") initial (JArr [JInt (py "1")]) (JArr [JInt (py "1")])
              eq_refl eq_refl eq_refl eq_refl) as [H _].
  - intro st'. vm_compute. reflexivity.
  - vm_compute. reflexivity.
  - left. split; reflexivity.
  - rewrite H. vm_compute. reflexivity.
Defined.

(** ** End to end *)

Lemma guarded_run_completed :
  forall en file_path instructions assistant_id fid tid status raw st,
    open_rb en file_path = None ->
    files_create en file_path = inr fid ->
    threads_create en instructions fid = inr tid ->
    runs_create_and_poll en tid assistant_id = inr status ->
    str_eqb status (py "completed") = true ->
    messages_first_text en tid = inr raw ->
    fst (guarded_run en file_path instructions assistant_id st) = Value (sanitize raw).
Proof.
  intros en file_path i a fid tid status raw st Ho Hf Ht Hr Hs Hm.
  unfold guarded_run. monad_step.
  rewrite Ho; monad_step. rewrite Hf; monad_step. rewrite Ht; monad_step.
  rewrite Hr; monad_step. rewrite Hs; monad_step. rewrite Hm; monad_step.
  destruct (files_delete en fid); reflexivity.
Qed.

(** C3: at the response text of the claim the orchestrator returns the
    text unchanged, and the text is the JSON object whose risk_level is
    HIGH; but the risk check scans for the literal with a space after the
    colon, which the compact text does not have: the analysis is stored
    with risk level LOW and the response has risk count 0.  The same JSON
    value written with that space is stored with risk level HIGH. *)
Theorem compact_high_response_stored_as_low :
  let w := demo_world (demo_engine (py "completed") high_compact) in
  let r := _process_analysis w demo_file demo_user (py "WORK") initial in
  let w' := demo_world (demo_engine (py "completed") high_spaced) in
  let r' := _process_analysis w' demo_file demo_user (py "WORK") initial in
  fst (analyze_contract (getenv w) (eng w) (temp_path w demo_file (py "WORK"))
         (py "WORK") initial) = Value high_compact /\
  json_loads high_compact
  = Some (JObj [(py "risk_level", JStr (py "HIGH")); (py "clauses", JArr [])]) /\
  json_loads high_spaced = json_loads high_compact /\
  risk_marker = pyq "'risk_level': 'HIGH'" /\
  contains risk_marker high_compact = false /\
  fst r = Value {| resp_id := py "u1"; resp_filename := py "contract.pdf";
                   resp_status := py "done";
                   resp_created_at := py "2024-01-01T00:00:00";
                   resp_risk_count := 0 |} /\
  In (EDbAdd (RowAnalysis
                {| an_id := py "u3"; an_clause_id := py "u2";
                   an_risk_level := py "LOW";
                   an_summary := py "근로기준법 및 하도급법 기반 정밀 분석";
                   an_suggestion := high_compact |}))
     (trace (snd r)) /\
  fst r' = Value {| resp_id := py "u1"; resp_filename := py "contract.pdf";
                    resp_status := py "done";
                    resp_created_at := py "2024-01-01T00:00:00";
                    resp_risk_count := 1 |}.
Proof.
  vm_compute. repeat split; try reflexivity. tauto.
Qed.

(** ** An unresolved category through [_process_analysis] *)

Lemma scanstring_plain :
  forall a s,
    forallb plain_char a = true ->
    scanstring (a ++ s)
    = match scanstring s with
      | Some (r, rest) => Some (a ++ r, rest)
      | None => None
      end.
Proof.
  induction a as [|c a IH]; intros s H.
  - cbn [app]. destruct (scanstring s) as [[r rest]|]; reflexivity.
  - cbn [forallb] in H. apply andb_true_iff in H. destruct H as [Hc Ha].
    unfold plain_char in Hc. apply negb_true_iff in Hc.
    apply orb_false_iff in Hc. destruct Hc as [Hc H3].
    apply orb_false_iff in Hc. destruct Hc as [H1 H2].
    cbn [app scanstring]. rewrite H1, H2, H3.
    rewrite (IH s Ha). destruct (scanstring s) as [[r rest]|]; reflexivity.
Qed.

Lemma scan_once_string :
  forall f t,
    scan_once (S f) (dquote :: t)
    = match scanstring t with
      | Some (str, rest) => Some (JStr str, rest)
      | None => None
      end.
Proof. reflexivity. Qed.

Lemma scan_once_object_key :
  forall f t, scan_once (S f) (lbrace :: dquote :: t) = object_members f t [].
Proof. reflexivity. Qed.

(** The body of [object_members], one unit of fuel down. *)
Lemma object_members_unfold :
  forall f s pairs,
    object_members (S f) s pairs
    = match scanstring s with
      | None => None
      | Some (key, s1) =>
          match skip_ws s1 with
          | c :: s2 =>
              if (c =? colon)%N then
                match scan_once f (skip_ws s2) with
                | None => None
                | Some (value, s3) =>
                    let pairs' := pairs ++ [(key, value)] in
                    match skip_ws s3 with
                    | d :: s4 =>
                        if (d =? rbrace)%N
                        then Some (JObj (dict_of_pairs pairs'), s4)
                        else if (d =? comma)%N then
                          match skip_ws s4 with
                          | q :: s5 =>
                              if (q =? dquote)%N
                              then object_members f s5 pairs'
                              else None
                          | [] => None
                          end
                        else None
                    | [] => None
                    end
                end
              else None
          | [] => None
          end
      end.
Proof. reflexivity. Qed.

(** One member whose value is a string, closing the object. *)
Lemma object_members_last_string :
  forall f key s1 value rest pairs,
    scanstring s1 = Some (value, rbrace :: rest) ->
    forall s,
      scanstring s = Some (key, colon :: 32%N :: dquote :: s1) ->
      object_members (S (S f)) s pairs
      = Some (JObj (dict_of_pairs (pairs ++ [(key, JStr value)])), rest).
Proof.
  intros f key s1 value rest pairs Hv s Hk.
  rewrite object_members_unfold.
  rewrite Hk.
  change (skip_ws (colon :: 32%N :: dquote :: s1)) with (colon :: 32%N :: dquote :: s1).
  change (colon =? colon)%N with true. cbv iota.
  change (skip_ws (32%N :: dquote :: s1)) with (dquote :: s1).
  rewrite scan_once_string, Hv.
  reflexivity.
Qed.










(** * Further properties *)

(** ** The registry and the calls of [analyze_contract] *)

Lemma map_get_in :
  forall k d v, map_get k d = Some v -> In (k, Some v) d.
Proof.
  induction d as [|[k' o] d IH]; intros v H; cbn [map_get] in H; [discriminate|].
  destruct (str_eqb k k') eqn:E.
  - apply str_eqb_eq in E. subst. left. reflexivity.
  - right. apply IH. exact H.
Qed.

(** The registry resolves a category exactly when it is one of the five
    keys and the environment variable of that key is set to a non-empty
    string, which is then the assistant id. *)
Theorem resolve_iff_configured :
  forall genv category assistant_id,
    resolve genv category = Some assistant_id <->
    assistant_id <> [] /\
    exists key,
      In key [py "REAL_ESTATE"; py "WORK"; py "CONSUMER"; py "NDA"; py "GENERAL"] /\
      category = key /\
      genv (key ++ py "_ASSISTANT_ID") = Some assistant_id.
Proof.
  intros genv category a. split.
  - intro H. unfold resolve in H.
    destruct (map_get category (ASSISTANT_MAP genv)) as [[|c id]|] eqn:Hm;
      try discriminate.
    injection H as <-. split; [discriminate|].
    apply map_get_in in Hm. unfold ASSISTANT_MAP in Hm. cbn [In] in Hm.
    destruct Hm as [H|[H|[H|[H|[H|[]]]]]]; injection H as <- Hv;
      eexists; (split; [|split; [reflexivity|exact Hv]]); cbn [In]; tauto.
  - intros [Hne [key [Hin [-> Hg]]]].
    destruct a as [|c a]; [congruence|].
    cbn [In] in Hin. unfold resolve, ASSISTANT_MAP.
    destruct Hin as [<-|[<-|[<-|[<-|[<-|[]]]]]]; cbn [map_get];
      repeat match goal with
             | |- context [str_eqb ?x ?y] =>
                 let v := eval vm_compute in (str_eqb x y) in
                 change (str_eqb x y) with v; cbv iota
             end;
      match type of Hg with
      | genv ?k = _ =>
          match goal with
          | |- context [genv ?k2] => change k with k2 in Hg
          end
      end;
      rewrite Hg; reflexivity.
Qed.


(** The engine calls of one analysis are an initial part of the pipeline
    (open, upload, thread, run, retrieval), each made at most once, with the
    instructions of the category, the id of the uploaded file and the
    resolved assistant id; the deletion of the uploaded file follows, as
    the last call, exactly when the file opened and the upload returned,
    and nothing else is called. *)
Theorem engine_calls_follow_pipeline :
  forall genv en file_path category st assistant_id instructions,
    resolve genv category = Some assistant_id ->
    instructions_for category = Some instructions ->
    exists fid tid n del,
      trace (snd (analyze_contract genv en file_path category st))
      = trace st
        ++ firstn n (pipeline file_path instructions assistant_id fid tid) ++ del /\
      1 <= n /\
      ((open_rb en file_path = None /\ files_create en file_path = inr fid /\
        del = [EFilesDelete fid] /\ 2 <= n) \/
       ((open_rb en file_path <> None \/
         exists e, files_create en file_path = inl e) /\
        del = [] /\ n <= 2)).
Proof.
  intros genv en file_path category st a i Hr Hi.
  rewrite (analyze_contract_resolved genv en file_path category _ _ Hr Hi).
  unfold guarded_run, pipeline. run_analyze; repeat rewrite <- app_assoc; cbn [app].
  all: try match goal with
           | H : files_create _ _ = inr ?f |- _ =>
               match goal with
               | H2 : threads_create _ _ _ = inr ?t |- _ =>
                   exists f, t
               | _ => exists f, (@nil codepoint)
               end
           | _ => exists (@nil codepoint), (@nil codepoint)
           end.
  all: first
         [ exists 1, (@nil event); cbn [firstn app];
           split; [reflexivity|]; split; [lia|]; right;
           split; [left; discriminate|]; split; [reflexivity|lia]
         | exists 2, (@nil event); cbn [firstn app];
           split; [reflexivity|]; split; [lia|]; right;
           split; [right; eauto|]; split; [reflexivity|lia]
         | exists 2; eexists; cbn [firstn app];
           split; [reflexivity|]; split; [lia|]; left;
           split; [reflexivity|]; split; [reflexivity|];
           split; [reflexivity|lia]
         | exists 3; eexists; cbn [firstn app];
           split; [reflexivity|]; split; [lia|]; left;
           split; [reflexivity|]; split; [reflexivity|];
           split; [reflexivity|lia]
         | exists 4; eexists; cbn [firstn app];
           split; [reflexivity|]; split; [lia|]; left;
           split; [reflexivity|]; split; [reflexivity|];
           split; [reflexivity|lia]
         | exists 5; eexists; cbn [firstn app];
           split; [reflexivity|]; split; [lia|]; left;
           split; [reflexivity|]; split; [reflexivity|];
           split; [reflexivity|lia] ].
Qed.

Lemma engine_calls_follow_pipeline_witness :
  exists fid tid n del,
    trace (snd (analyze_contract demo_env (demo_engine (py "failed") [])
                  (py "f.pdf") (py "WORK") initial))
    = firstn n (pipeline (py "f.pdf") instructions_WORK (py "asst_work") fid tid)
      ++ del /\
    1 <= n.
Proof.
  destruct (engine_calls_follow_pipeline demo_env (demo_engine (py "failed") [])
              (py "f.pdf") (py "WORK") initial (py "asst_work") instructions_WORK
              eq_refl eq_refl) as [fid [tid [n [del [H [Hn _]]]]]].
  exists fid, tid, n, del. split; [exact H|exact Hn].
Defined.

(** ** The handlers of [_process_analysis] *)

Lemma gatekeeper_cases :
  forall ai,
    gatekeeper ai = ret tt \/
    (exists detail, gatekeeper ai = raise (HTTPException 400 detail)) \/
    (exists pe, gatekeeper ai = raise (PyExc pe)).
Proof.
  intro ai. unfold gatekeeper.
  destruct (json_loads ai) as [result|]; [|left; reflexivity].
  destruct result;
    try (right; right; eexists; reflexivity).
  cbv beta iota zeta delta [py_get bind ret raise].
  destruct (dict_get (py "summary") l) as [sv|].
  - destruct sv; try (right; right; eexists; reflexivity).
    destruct (eq_str
                match dict_get (py "contract_type_detected") l0 with
                | Some x => x
                | None => JStr []
                end (py "NOT_A_CONTRACT")).
    + right; left; eexists; reflexivity.
    + left; reflexivity.
  - cbv beta iota.
    destruct (eq_str
                match dict_get (py "contract_type_detected") [] with
                | Some x => x
                | None => JStr []
                end (py "NOT_A_CONTRACT")) eqn:E.
    + cbn in E. discriminate.
    + left; reflexivity.
Qed.

Ltac db_case H :=
  match type of H with
  | context [db_raises ?w ?s] =>
      let E := fresh "E" in
      destruct (db_raises w s) eqn:E; try rewrite E in H
  end.

(** The database calls all return: the rows are added and committed. *)
Lemma persist_ok :
  forall w file user category ai st,
    first_failure (db_raises w) db_sites_in_order = None ->
    persist w file user category ai st
    = (Value (response w file ai),
       {| trace := trace st ++ persist_events w file user category ai;
          temp_file_exists := temp_file_exists st;
          user_file_obj := user_file_obj st |}).
Proof.
  intros w file user category ai st H.
  unfold first_failure, db_sites_in_order in H.
  repeat (db_case H; try discriminate H).
  unfold persist, response, persist_events, stored_analysis.
  destruct (report_labels category) as [title summary].
  process_step.
  repeat match goal with
         | H : db_raises _ _ = None |- _ => rewrite H; clear H; process_step
         end.
  repeat rewrite <- app_assoc. reflexivity.
Qed.

(** A database call raises: [persist] raises the same, after the calls made
    so far; the commit is among them when it or the refresh is what failed,
    and the refresh, which follows a commit that returned, only when the
    refresh is what failed. *)
Lemma persist_fails :
  forall w file user category ai st s e,
    first_failure (db_raises w) db_sites_in_order = Some (s, e) ->
    exists evs,
      persist w file user category ai st
      = (Raise (PyExc e),
         {| trace := trace st ++ evs;
            temp_file_exists := temp_file_exists st;
            user_file_obj := user_file_obj st |}) /\
      existsb is_commit evs = is_commit_site s || is_refresh_site s /\
      existsb is_refresh evs = is_refresh_site s /\
      existsb is_rollback evs = false.
Proof.
  intros w file user category ai st s e H.
  unfold first_failure, db_sites_in_order in H.
  unfold persist.
  destruct (report_labels category) as [title summary].
  process_step.
  repeat (db_case H; process_step;
          match type of H with
          | Some _ = Some _ =>
              injection H as <- <-; repeat rewrite <- app_assoc;
              eexists; split; [reflexivity|]; repeat split; reflexivity
          | _ => idtac
          end).
  discriminate H.
Qed.

(** Case analysis on everything the collaborators can answer during one
    call of [_process_analysis]. *)
Ltac analysis_case :=
  match goal with
  | |- context [analyze_contract ?g ?e ?p ?c ?s] =>
      let ai := fresh "ai" in
      let Hai := fresh "Hai" in
      let evs := fresh "evs" in
      let Ht := fresh "Ht" in
      let He := fresh "He" in
      let Hx := fresh "Hx" in
      let o := fresh "o" in
      let st2 := fresh "st2" in
      destruct (analyze_contract_returns g e p c s) as [ai Hai];
      destruct (analyze_contract_effects g e p c s) as [evs [Ht [He Hx]]];
      let Hac := fresh "Hac" in
      destruct (analyze_contract g e p c s) as [o st2] eqn:Hac;
      cbn [fst snd trace temp_file_exists] in Hai, Ht, Hx; subst o
  end.

Ltac gate_case :=
  match goal with
  | |- context [gatekeeper ?ai] =>
      let Hg := fresh "Hg" in
      destruct (gatekeeper_cases ai) as [Hg|[[? Hg]|[? Hg]]]; rewrite Hg
  end.

Ltac persist_case :=
  match goal with
  | |- context [persist ?w ?f ?u ?c ?ai ?s] =>
      let Hff := fresh "Hff" in
      let Hp := fresh "Hp" in
      destruct (first_failure (db_raises w) db_sites_in_order) as [[? ?]|] eqn:Hff;
      [ destruct (persist_fails w f u c ai s _ _ Hff) as [? [Hp [? [? ?]]]]; rewrite Hp
      | rewrite (persist_ok w f u c ai s Hff) ]
  end.

Ltac process_cases :=
  process_step;
  repeat first
    [ analysis_case; process_step
    | gate_case; process_step
    | persist_case; process_step
    | match goal with
      | |- context [match mkdir_raises ?w with _ => _ end] =>
          destruct (mkdir_raises w) eqn:?; process_step
      | |- context [match save_upload ?w with _ => _ end] =>
          destruct (save_upload w) eqn:?; process_step
      | |- context [match db_raises ?w Rollback with _ => _ end] =>
          destruct (db_raises w Rollback) eqn:?; process_step
      | |- context [match remove_raises ?w with _ => _ end] =>
          destruct (remove_raises w) eqn:?; process_step
      | |- context [if temp_file_exists ?s then _ else _] =>
          match goal with
          | H : temp_file_exists s = _ |- _ => rewrite H; process_step
          | _ => destruct (temp_file_exists s) eqn:?; process_step
          end
      end ].

(** When creating the directory, rolling back and removing the temporary
    file do not raise, and the temporary file could be opened for writing,
    the caller gets the response or an HTTPException with status 400 (the
    gatekeeper) or 500 (anything else, with the category and the text of
    the exception in the detail), and nothing else.  A temporary file that
    could not be opened is left out: the [finally] block then asks whether
    a path exists that the system may refuse to examine. *)
Theorem process_analysis_outcomes :
  forall w file user category st,
    mkdir_raises w = None ->
    db_raises w Rollback = None ->
    remove_raises w = None ->
    (forall e, save_upload w <> SaveOpenFails e) ->
    let r := _process_analysis w file user category st in
    (exists resp, fst r = Value resp) \/
    (exists detail, fst r = Raise (HTTPException 400 detail)) \/
    (exists e,
        fst r = Raise (HTTPException 500
                         (JStr (category ++ py " 분석 실패: " ++ exc_str e)))).
Proof.
  intros w file user category st Hm Hrb Hrm Hopen r. subst r.
  process_step. rewrite Hm. process_cases;
    try (rewrite Hrb; process_step);
    repeat match goal with
           | H : temp_file_exists ?s = _ |- context [temp_file_exists ?s] =>
               rewrite H; process_step
           end;
    try (rewrite Hrm; process_step);
    try discriminate; eauto.
Qed.

Lemma process_analysis_outcomes_witness :
  exists e,
    fst (_process_analysis (demo_world demo_engine_upload_fails) demo_file demo_user
           (py "REAL_ESTATE") initial) = Value e.
Proof.
  destruct (process_analysis_outcomes (demo_world demo_engine_upload_fails)
              demo_file demo_user (py "REAL_ESTATE") initial
              eq_refl eq_refl eq_refl ltac:(discriminate)) as [H|[[d H]|[e H]]].
  - exact H.
  - vm_compute in H. discriminate H.
  - vm_compute in H. discriminate H.
Defined.

(** The temporary copy of the upload is gone when the call ends, however it
    ends, as long as [os.remove] itself does not raise. *)
Theorem temp_file_removed :
  forall w file user category st,
    remove_raises w = None ->
    temp_file_exists st = false ->
    temp_file_exists (snd (_process_analysis w file user category st)) = false.
Proof.
  intros w file user category st Hrm Hx0.
  process_cases; try discriminate; try reflexivity; try assumption;
    try congruence.
Qed.

Lemma temp_file_removed_witness :
  temp_file_exists
    (snd (_process_analysis (demo_world (demo_engine (py "completed") (py "[1]")))
            demo_file demo_user (py "WORK") initial)) = false.
Proof.
  apply (temp_file_removed (demo_world (demo_engine (py "completed") (py "[1]")))
           demo_file demo_user (py "WORK") initial); reflexivity.
Defined.

(** A call that returns a response has stored the orchestrator's output:
    the calls made are the directory, the upload copy, engine calls, the
    three adds with their flushes, the commit and the refresh, and the
    removal of the temporary file, in this order, with no rollback. *)
Theorem response_means_committed :
  forall w file user category st resp,
    fst (_process_analysis w file user category st) = Value resp ->
    exists ai evs,
      fst (analyze_contract (getenv w) (eng w) (temp_path w file category) category
             {| trace := (trace st ++ [EMkdir])
                         ++ [ESaveUpload (temp_path w file category)];
                temp_file_exists := true;
                user_file_obj := user_file_obj st |}) = Value ai /\
      forallb is_engine_event evs = true /\
      resp = response w file ai /\
      trace (snd (_process_analysis w file user category st))
      = trace st ++ EMkdir :: ESaveUpload (temp_path w file category) :: evs
        ++ persist_events w file user category ai
        ++ [ERemove (temp_path w file category)].
Proof.
  intros w file user category st resp.
  unfold temp_path.
  process_cases; intro Hval; try discriminate Hval.
  injection Hval as <-.
  match goal with
  | Hac : (Value _, _) = (Value _, _) |- _ => injection Hac as -> ->
  end.
  match goal with
  | Ht : trace ?s2 = _ ++ ?l |- context [trace ?s2] => exists ai, l; rewrite Ht
  end.
  split; [reflexivity|]. split; [assumption|]. split; [reflexivity|].
  repeat rewrite <- app_assoc. reflexivity.
Qed.

Lemma response_means_committed_witness :
  let w := demo_world (demo_engine (py "completed") high_spaced) in
  exists ai evs,
    trace (snd (_process_analysis w demo_file demo_user (py "WORK") initial))
    = EMkdir :: ESaveUpload (temp_path w demo_file (py "WORK")) :: evs
      ++ persist_events w demo_file demo_user (py "WORK") ai
      ++ [ERemove (temp_path w demo_file (py "WORK"))].
Proof.
  intro w.
  destruct (response_means_committed w demo_file demo_user (py "WORK") initial
              (response w demo_file high_spaced) eq_refl)
    as [ai [evs [_ [_ [_ H]]]]].
  exists ai, evs. exact H.
Defined.

(** A database call of the persistence raises after the gatekeeper let the
    result through: the caller gets HTTPException 500 with the category and
    the text of the exception, and the rollback is the last database call.
    The commit is never called when an earlier call raised; when it is the
    refresh that raised, the commit had already returned. *)
Theorem database_failure_is_500 :
  forall w file user category st ai s e,
    mkdir_raises w = None ->
    save_upload w = SaveOk ->
    db_raises w Rollback = None ->
    remove_raises w = None ->
    (forall st',
        fst (analyze_contract (getenv w) (eng w) (temp_path w file category)
               category st') = Value ai) ->
    gatekeeper ai = ret tt ->
    first_failure (db_raises w) db_sites_in_order = Some (s, e) ->
    let r := _process_analysis w file user category st in
    fst r = Raise (HTTPException 500
                     (JStr (category ++ py " 분석 실패: " ++ exc_str e))) /\
    exists evs dbevs,
      trace (snd r)
      = trace st ++ EMkdir :: ESaveUpload (temp_path w file category) :: evs
        ++ dbevs ++ [EDbRollback; ERemove (temp_path w file category)] /\
      forallb is_engine_event evs = true /\
      existsb is_commit dbevs = is_commit_site s || is_refresh_site s /\
      existsb is_refresh dbevs = is_refresh_site s /\
      existsb is_rollback dbevs = false.
Proof.
  intros w file user category st ai s e Hm Hs Hrb Hrm Ha Hg Hff r. subst r.
  destruct (process_analysis_unfold w file user category ai Hm Hs Ha st)
    as [st2 [evs [He [Ht [Hx ->]]]]].
  destruct (persist_fails w file user category ai st2 s e Hff)
    as [dbevs [Hp [Hc [Hf Hr]]]].
  unfold after_analysis. rewrite Hg. process_step.
  rewrite Hp. process_step. rewrite Hrb. process_step.
  rewrite Hx, Hrm. process_step.
  split; [reflexivity|].
  exists evs, dbevs. rewrite Ht.
  split; [repeat rewrite <- app_assoc; reflexivity|].
  split; [exact He|]. split; [exact Hc|]. split; [exact Hf|exact Hr].
Qed.

Lemma database_failure_is_500_witness :
  let w := demo_world_refresh_fails (demo_engine (py "completed") high_spaced) in
  fst (_process_analysis w demo_file demo_user (py "WORK") initial)
  = Raise (HTTPException 500 (JStr (py "WORK 분석 실패: connection lost"))).
Proof.
  intro w.
  destruct (database_failure_is_500 w demo_file demo_user (py "WORK") initial
              high_spaced Refresh IntegrityError
              eq_refl eq_refl eq_refl eq_refl) as [H _].
  - intro st'. vm_compute. reflexivity.
  - vm_compute. reflexivity.
  - reflexivity.
  - rewrite H. vm_compute. reflexivity.
Defined.

(** * The sanitizer *)

(** ** What the three patterns match *)

Lemma match_at_cite :
  forall bol s,
    match_at cite_re bol s
    = match s with
      | c :: t => if (cite_open =? c)%N then lazy_close t else None
      | [] => None
      end.
Proof.
  intros bol s. unfold match_at, cite_re. cbn [run].
  destruct s as [|c t]; [reflexivity|].
  destruct (cite_open =? c)%N; [|reflexivity].
  generalize (is_nl c). induction t as [|d t IH]; intro b.
  - reflexivity.
  - cbn [star_lazy run lazy_close]. destruct (cite_close =? d)%N; [reflexivity|].
    unfold dot. destruct (is_nl d); cbn [negb]; [reflexivity|]. apply IH.
Qed.

Lemma lazy_close_some :
  forall t rest,
    lazy_close t = Some rest ->
    exists m,
      t = m ++ cite_close :: rest /\ has cite_close m = false /\ has nl m = false.
Proof.
  induction t as [|c t IH]; intros rest H; cbn [lazy_close] in H; [discriminate|].
  destruct (cite_close =? c)%N eqn:Ec.
  - injection H as <-. apply N.eqb_eq in Ec. subst c. exists []. auto.
  - destruct (is_nl c) eqn:En; [discriminate|].
    destruct (IH rest H) as [m [-> [Hc Hn]]].
    exists (c :: m). unfold has in *. cbn [existsb app].
    rewrite Ec, Hc, Hn. unfold is_nl in En. rewrite N.eqb_sym in En. rewrite En.
    auto.
Qed.

Lemma lazy_close_app :
  forall m rest,
    has cite_close m = false -> has nl m = false ->
    lazy_close (m ++ cite_close :: rest) = Some rest.
Proof.
  induction m as [|c m IH]; intros rest Hc Hn; cbn [app lazy_close].
  - rewrite N.eqb_refl. reflexivity.
  - unfold has in *. cbn [existsb] in Hc, Hn.
    apply orb_false_iff in Hc. destruct Hc as [Hc1 Hc2].
    apply orb_false_iff in Hn. destruct Hn as [Hn1 Hn2].
    rewrite Hc1. unfold is_nl. rewrite N.eqb_sym, Hn1. apply IH; assumption.
Qed.

(** A line feed or the end of the text before any closing bracket: no
    marker starts here. *)
Lemma lazy_close_none_app :
  forall m rest,
    has cite_close m = false ->
    (rest = [] \/ exists r, rest = nl :: r) ->
    lazy_close (m ++ rest) = None.
Proof.
  induction m as [|c m IH]; intros rest Hc Hr; cbn [app].
  - destruct Hr as [->|[r ->]]; reflexivity.
  - unfold has in Hc. cbn [existsb] in Hc.
    apply orb_false_iff in Hc. destruct Hc as [Hc1 Hc2].
    cbn [lazy_close]. rewrite Hc1. destruct (is_nl c); [reflexivity|].
    apply IH; assumption.
Qed.

Lemma match_at_brace :
  forall bol s,
    match_at brace_re bol s
    = match s with
      | c :: t => if (lbrace =? c)%N then after_last_rbrace t else None
      | [] => None
      end.
Proof.
  intros bol s. unfold match_at, brace_re. cbn [run].
  destruct s as [|c t]; [reflexivity|].
  destruct (lbrace =? c)%N; [|reflexivity].
  generalize (is_nl c). induction t as [|d t IH]; intro b.
  - reflexivity.
  - cbn [star_greedy after_last_rbrace]. unfold dot_all at 1.
    rewrite IH. destruct (after_last_rbrace t); [reflexivity|].
    cbn [run]. reflexivity.
Qed.

Lemma after_last_rbrace_none :
  forall t, after_last_rbrace t = None <-> has rbrace t = false.
Proof.
  induction t as [|c t IH]; cbn [after_last_rbrace]; unfold has in *;
    cbn [existsb]; [tauto|].
  destruct (after_last_rbrace t) as [r|].
  - split; [discriminate|]. intro H. apply orb_false_iff in H.
    destruct H as [_ H]. apply IH in H. discriminate H.
  - destruct (rbrace =? c)%N; cbn [orb].
    + split; discriminate.
    + split; intros _; [apply IH|]; reflexivity.
Qed.

Lemma after_last_rbrace_app :
  forall m rest,
    has rbrace rest = false ->
    after_last_rbrace (m ++ rbrace :: rest) = Some rest.
Proof.
  induction m as [|c m IH]; intros rest H; cbn [app after_last_rbrace].
  - apply after_last_rbrace_none in H. rewrite H, N.eqb_refl. reflexivity.
  - rewrite (IH rest H). reflexivity.
Qed.

Lemma after_last_rbrace_some :
  forall t rest,
    after_last_rbrace t = Some rest ->
    exists m, t = m ++ rbrace :: rest /\ has rbrace rest = false.
Proof.
  induction t as [|c t IH]; intros rest H; cbn [after_last_rbrace] in H;
    [discriminate|].
  destruct (after_last_rbrace t) as [r|] eqn:E.
  - injection H as <-. destruct (IH r eq_refl) as [m [-> Hr]].
    exists (c :: m). auto.
  - destruct (rbrace =? c)%N eqn:Ec; [|discriminate].
    injection H as <-. apply N.eqb_eq in Ec. subst c.
    exists []. split; [reflexivity|]. apply after_last_rbrace_none. exact E.
Qed.

(** ** Step (2): the citation markers *)

Lemma sub_go_drop :
  forall r pre bol rest,
    sub_go r (List.length pre) bol (pre ++ rest)
    = sub_go r 0 (match rev pre with
                  | c :: _ => is_nl c
                  | [] => bol
                  end) rest.
Proof.
  intros r pre. induction pre as [|c pre IH]; intros bol rest.
  - reflexivity.
  - cbn [List.length app sub_go]. rewrite IH. cbn [rev].
    destruct (rev pre) as [|d l]; reflexivity.
Qed.

Lemma sub_cite_bol :
  forall n s b b', sub_go cite_re n b s = sub_go cite_re n b' s.
Proof.
  intros n s. revert n. induction s as [|c t IH]; intros n b b'; [reflexivity|].
  cbn [sub_go]. destruct n as [|n]; [|apply IH].
  rewrite (match_at_cite b), (match_at_cite b'). reflexivity.
Qed.

(** The step as a recursion on the text: a marker is skipped, any other
    character is kept. *)
Lemma sub_cite_nil : sub_empty cite_re [] = [].
Proof. reflexivity. Qed.

Lemma sub_cite_keep :
  forall c t,
    (cite_open =? c)%N = false \/ lazy_close t = None ->
    sub_empty cite_re (c :: t) = c :: sub_empty cite_re t.
Proof.
  intros c t H. unfold sub_empty. cbn [sub_go]. rewrite match_at_cite.
  rewrite (sub_cite_bol 0 t (is_nl c) true).
  destruct (cite_open =? c)%N; [|reflexivity].
  destruct H as [H|H]; [discriminate|]. rewrite H. reflexivity.
Qed.

Lemma sub_cite_marker :
  forall m rest,
    has cite_close m = false -> has nl m = false ->
    sub_empty cite_re (cite_open :: m ++ cite_close :: rest)
    = sub_empty cite_re rest.
Proof.
  intros m rest Hc Hn. unfold sub_empty. cbn [sub_go]. rewrite match_at_cite.
  rewrite N.eqb_refl, (lazy_close_app m rest Hc Hn).
  replace (List.length (cite_open :: m ++ cite_close :: rest) - List.length rest)
    with (S (List.length (m ++ [cite_close]))).
  - replace (m ++ cite_close :: rest) with ((m ++ [cite_close]) ++ rest)
      by (rewrite <- app_assoc; reflexivity).
    rewrite sub_go_drop. apply sub_cite_bol.
  - cbn [List.length]. rewrite !length_app. cbn [List.length]. lia.
Qed.

(** Induction along the way the step reads a text. *)
Lemma sub_cite_ind :
  forall P : pystr -> Prop,
    P [] ->
    (forall c t,
        (cite_open =? c)%N = false \/ lazy_close t = None ->
        P t -> P (c :: t)) ->
    (forall m rest,
        has cite_close m = false -> has nl m = false ->
        P rest -> P (cite_open :: m ++ cite_close :: rest)) ->
    forall s, P s.
Proof.
  intros P Hnil Hkeep Hmark s.
  remember (List.length s) as n eqn:En.
  revert s En. induction n as [n IH] using lt_wf_ind. intros s En.
  destruct s as [|c t]; [exact Hnil|].
  destruct (cite_open =? c)%N eqn:Ec.
  - destruct (lazy_close t) as [rest|] eqn:El.
    + destruct (lazy_close_some t rest El) as [m [-> [Hc Hn]]].
      apply N.eqb_eq in Ec. subst c.
      apply Hmark; try assumption.
      apply (IH (List.length rest)); [|reflexivity].
      subst n. cbn [List.length]. rewrite length_app. cbn [List.length]. lia.
    + apply Hkeep; [right; exact El|].
      apply (IH (List.length t)); [subst n; cbn; lia|reflexivity].
  - apply Hkeep; [left; exact Ec|].
    apply (IH (List.length t)); [subst n; cbn; lia|reflexivity].
Qed.

(** An opening bracket that starts no marker starts none after the step
    either. *)
Lemma lazy_close_none_sub :
  forall t, lazy_close t = None -> lazy_close (sub_empty cite_re t) = None.
Proof.
  induction t as [|c t IH]; intro H; [reflexivity|].
  cbn [lazy_close] in H.
  destruct (cite_close =? c)%N eqn:Ec; [discriminate|].
  destruct (is_nl c) eqn:En.
  - rewrite sub_cite_keep.
    + cbn [lazy_close]. rewrite Ec, En. reflexivity.
    + left. unfold is_nl in En. apply N.eqb_eq in En. subst c. reflexivity.
  - rewrite sub_cite_keep by (right; exact H).
    cbn [lazy_close]. rewrite Ec, En. apply IH. exact H.
Qed.

Lemma search_go_none_cons :
  forall r b c t,
    search_go r b (c :: t) = None <->
    match_at r b (c :: t) = None /\ search_go r (is_nl c) t = None.
Proof.
  intros r b c t. cbn [search_go].
  destruct (match_at r b (c :: t)); split.
  - discriminate.
  - intros [H _]. discriminate.
  - auto.
  - intros [_ H]. exact H.
Qed.

Lemma search_cite_bol :
  forall s b b', search_go cite_re b s = search_go cite_re b' s.
Proof.
  induction s as [|c t IH]; intros b b'.
  - cbn [search_go]. rewrite !match_at_cite. reflexivity.
  - cbn [search_go]. rewrite (match_at_cite b), (match_at_cite b'). reflexivity.
Qed.

(** After the step no marker is left anywhere in the text. *)
Lemma sub_cite_leaves_no_marker :
  forall s, search cite_re (sub_empty cite_re s) = None.
Proof.
  unfold search. intro s. pattern s. apply sub_cite_ind; clear s.
  - reflexivity.
  - intros c t H IH. rewrite (sub_cite_keep c t H).
    apply search_go_none_cons. split.
    + rewrite match_at_cite. destruct H as [H|H].
      * rewrite H. reflexivity.
      * destruct (cite_open =? c)%N; [|reflexivity].
        apply lazy_close_none_sub. exact H.
    + rewrite (search_cite_bol _ _ true). exact IH.
  - intros m rest Hc Hn IH. rewrite (sub_cite_marker m rest Hc Hn). exact IH.
Qed.

(** A text without markers is left as it is. *)
Lemma sub_cite_id :
  forall s, search cite_re s = None -> sub_empty cite_re s = s.
Proof.
  unfold search. induction s as [|c t IH]; intro H; [reflexivity|].
  apply search_go_none_cons in H. destruct H as [Hm Hs].
  rewrite match_at_cite in Hm.
  rewrite sub_cite_keep.
  - rewrite IH; [reflexivity|]. rewrite (search_cite_bol _ _ (is_nl c)). exact Hs.
  - destruct (cite_open =? c)%N; [right; exact Hm|left; reflexivity].
Qed.

(** No marker in a text, none in a part of it. *)
Lemma lazy_close_app_some :
  forall s b r, lazy_close s = Some r -> lazy_close (s ++ b) = Some (r ++ b).
Proof.
  induction s as [|c s IH]; intros b r H; cbn [lazy_close] in H; [discriminate|].
  cbn [app lazy_close]. destruct (cite_close =? c)%N.
  - injection H as <-. reflexivity.
  - destruct (is_nl c); [discriminate|]. apply IH. exact H.
Qed.

Lemma search_cite_none_prefix :
  forall s b, search cite_re (s ++ b) = None -> search cite_re s = None.
Proof.
  unfold search. induction s as [|c t IH]; intros b H.
  - cbn [search_go]. rewrite match_at_cite. reflexivity.
  - cbn [app] in H. apply search_go_none_cons in H. destruct H as [Hm Hs].
    apply search_go_none_cons. split.
    + rewrite match_at_cite in *. destruct (cite_open =? c)%N; [|reflexivity].
      destruct (lazy_close t) as [r|] eqn:E; [|reflexivity].
      rewrite (lazy_close_app_some t b r E) in Hm. discriminate Hm.
    + rewrite (search_cite_bol _ _ true). apply (IH b).
      rewrite (search_cite_bol _ _ (is_nl c)). exact Hs.
Qed.

Lemma search_cite_none_suffix :
  forall a s, search cite_re (a ++ s) = None -> search cite_re s = None.
Proof.
  unfold search. induction a as [|c a IH]; intros s H; [exact H|].
  cbn [app] in H. apply search_go_none_cons in H. destruct H as [_ Hs].
  apply IH. rewrite (search_cite_bol _ _ (is_nl c)). exact Hs.
Qed.

(** ** Step (3): the brace span *)

Lemma search_brace_bol :
  forall s b b', search_go brace_re b s = search_go brace_re b' s.
Proof.
  induction s as [|c t IH]; intros b b'.
  - cbn [search_go]. rewrite !match_at_brace. reflexivity.
  - cbn [search_go]. rewrite (match_at_brace b), (match_at_brace b'). reflexivity.
Qed.

Lemma search_go_cons :
  forall r b c t,
    search_go r b (c :: t)
    = match match_at r b (c :: t) with
      | Some rest =>
          Some (firstn (List.length (c :: t) - List.length rest) (c :: t))
      | None => search_go r (is_nl c) t
      end.
Proof. reflexivity. Qed.

Lemma firstn_consumed :
  forall (pre rest : pystr),
    firstn (List.length (pre ++ rest) - List.length rest) (pre ++ rest) = pre.
Proof.
  intros pre rest. rewrite length_app.
  replace (List.length pre + List.length rest - List.length rest)
    with (List.length pre + 0) by lia.
  rewrite firstn_app_2. cbn [firstn]. apply app_nil_r.
Qed.

(** The match is the span from the first opening brace to the last closing
    brace. *)
Lemma search_brace_span :
  forall a m b,
    has lbrace a = false ->
    has rbrace b = false ->
    search brace_re (a ++ lbrace :: m ++ rbrace :: b) = Some (lbrace :: m ++ [rbrace]).
Proof.
  unfold search. intros a m b Ha Hb. generalize true.
  induction a as [|c a IH]; intro bol.
  - cbn [app]. rewrite search_go_cons, match_at_brace, N.eqb_refl.
    rewrite (after_last_rbrace_app m b Hb).
    replace (lbrace :: m ++ rbrace :: b) with ((lbrace :: m ++ [rbrace]) ++ b)
      by (cbn [app]; rewrite <- app_assoc; reflexivity).
    rewrite firstn_consumed. reflexivity.
  - unfold has in Ha. cbn [existsb] in Ha. apply orb_false_iff in Ha.
    destruct Ha as [Hc Ha].
    cbn [app]. rewrite search_go_cons, match_at_brace, Hc. apply IH. exact Ha.
Qed.

Lemma search_brace_some :
  forall s sp,
    search brace_re s = Some sp ->
    exists a m b,
      s = a ++ sp ++ b /\ sp = lbrace :: m ++ [rbrace] /\
      has lbrace a = false /\ has rbrace b = false.
Proof.
  unfold search. intros s sp. generalize true.
  induction s as [|c t IH]; intros bol H.
  - cbn [search_go] in H. rewrite match_at_brace in H. discriminate H.
  - rewrite search_go_cons, match_at_brace in H.
    destruct (lbrace =? c)%N eqn:Ec.
    + destruct (after_last_rbrace t) as [rest|] eqn:Er.
      * destruct (after_last_rbrace_some t rest Er) as [m [-> Hr]].
        apply N.eqb_eq in Ec. subst c.
        assert (Hf : firstn (List.length (lbrace :: m ++ rbrace :: rest)
                             - List.length rest) (lbrace :: m ++ rbrace :: rest)
                     = lbrace :: m ++ [rbrace]).
        { replace (lbrace :: m ++ rbrace :: rest)
            with ((lbrace :: m ++ [rbrace]) ++ rest)
            by (cbn [app]; rewrite <- app_assoc; reflexivity).
          apply firstn_consumed. }
        rewrite Hf in H. injection H as <-.
        exists [], m, rest. cbn [app]. rewrite <- app_assoc. auto.
      * (* no closing brace after this one: none after a later one either *)
        exfalso. revert H. generalize (is_nl c).
        apply after_last_rbrace_none in Er.
        clear IH Ec. induction t as [|d t IHt]; intros b H.
        -- cbn [search_go] in H. rewrite match_at_brace in H. discriminate H.
        -- unfold has in Er. cbn [existsb] in Er. apply orb_false_iff in Er.
           destruct Er as [_ Er].
           rewrite search_go_cons, match_at_brace in H.
           assert (E : after_last_rbrace t = None)
             by (apply after_last_rbrace_none; exact Er).
           rewrite E in H. destruct (lbrace =? d)%N; eapply IHt; eauto.
    + destruct (IH _ H) as [a [m [b [-> [Hsp [Ha Hb]]]]]].
      exists (c :: a), m, b. unfold has. cbn [existsb]. rewrite Ec. auto.
Qed.

(** ** The sanitizer as a whole *)

(** No citation marker is left in the result: no opening bracket of it is
    followed by a closing bracket on the same line. *)
Theorem sanitize_leaves_no_marker :
  forall raw_text, search cite_re (sanitize raw_text) = None.
Proof.
  intro raw. unfold sanitize.
  set (t := sub_empty cite_re (sub_empty fence_re (strip raw))).
  assert (Ht : search cite_re t = None) by apply sub_cite_leaves_no_marker.
  destruct (search brace_re t) as [sp|] eqn:E; [|exact Ht].
  destruct (search_brace_some t sp E) as [a [m [b [Hs _]]]].
  rewrite Hs in Ht.
  apply search_cite_none_suffix in Ht. apply search_cite_none_prefix in Ht.
  exact Ht.
Qed.

(** The result is the span of the cleaned text from its first opening brace
    to its last closing brace, line feeds included; a cleaned text with no
    closing brace after an opening one is the result as it is. *)
Theorem sanitize_extracts_brace_span :
  forall raw_text,
    (forall a m b,
        cleaned raw_text = a ++ lbrace :: m ++ rbrace :: b ->
        has lbrace a = false ->
        has rbrace b = false ->
        sanitize raw_text = lbrace :: m ++ [rbrace]) /\
    ((forall a m b, cleaned raw_text <> a ++ lbrace :: m ++ rbrace :: b) ->
     sanitize raw_text = cleaned raw_text).
Proof.
  intro raw. unfold sanitize. fold (cleaned raw). split.
  - intros a m b Hc Ha Hb. rewrite Hc. rewrite (search_brace_span a m b Ha Hb).
    reflexivity.
  - intro Hno. destruct (search brace_re (cleaned raw)) as [sp|] eqn:E;
      [|reflexivity].
    destruct (search_brace_some _ sp E) as [a [m [b [Hs [-> _]]]]].
    exfalso. apply (Hno a m b). rewrite Hs. cbn [app]. rewrite <- app_assoc.
    reflexivity.
Qed.

Lemma sanitize_extracts_brace_span_witness :
  sanitize (pyq "Result: {'a': {'b': 1}} done") = pyq "{'a': {'b': 1}}".
Proof.
  apply (proj1 (sanitize_extracts_brace_span (pyq "Result: {'a': {'b': 1}} done"))
           (py "Result: ") (pyq "'a': {'b': 1}") (py " done"));
    reflexivity.
Defined.

(** ** Step (1): the fences *)

Lemma space_not_backtick : forall c, is_space c = true -> (backtick =? c)%N = false.
Proof.
  intros c H. destruct (backtick =? c)%N eqn:E; [|reflexivity].
  apply N.eqb_eq in E. subst c. discriminate H.
Qed.

Lemma closing_fence_eq :
  forall b s,
    closing_fence b s
    = match s with
      | c1 :: c2 :: c3 :: t =>
          if ((backtick =? c1) && (backtick =? c2) && (backtick =? c3))%N
          then if at_eol t then Some t else None
          else None
      | _ => None
      end.
Proof.
  intros b s. unfold closing_fence.
  change (py "```") with [backtick; backtick; backtick]. cbn [Lit run].
  destruct s as [|c1 [|c2 [|c3 t]]]; try reflexivity.
  - destruct (backtick =? c1)%N; reflexivity.
  - destruct (backtick =? c1)%N; [|reflexivity].
    destruct (backtick =? c2)%N; reflexivity.
  - destruct (backtick =? c1)%N; [|reflexivity].
    destruct (backtick =? c2)%N; [|reflexivity].
    destruct (backtick =? c3)%N; [|reflexivity].
    cbn [andb]. destruct t as [|d t]; [reflexivity|].
    cbn [at_eol]. destruct (is_nl d); reflexivity.
Qed.

Lemma closing_fence_head :
  forall b c t, (backtick =? c)%N = false -> closing_fence b (c :: t) = None.
Proof.
  intros b c t H. rewrite closing_fence_eq.
  destruct t as [|c2 [|c3 t]]; try reflexivity. rewrite H. reflexivity.
Qed.

(** The two alternatives of [fence_re]. *)
Lemma match_at_fence :
  forall bol s,
    match_at fence_re bol s
    = match (if bol
             then if starts_with (py "```json") s
                  then star_greedy space (fun _ rest => Some rest) true
                         (skipn 7 s)
                  else None
             else None) with
      | Some r => Some r
      | None => star_greedy space closing_fence bol s
      end.
Proof.
  intros bol s. unfold match_at, fence_re. cbn [run].
  fold closing_fence.
  assert (H : (if bol then run (Cat (Lit (py "```json")) (Star space))
                             (fun _ rest => Some rest) bol s else None)
              = (if bol
                 then if starts_with (py "```json") s
                      then star_greedy space (fun _ rest => Some rest) true (skipn 7 s)
                      else None
                 else None)).
  { destruct bol; [|reflexivity].
    change (py "```json") with [96; 96; 96; 106; 115; 111; 110]%N.
    cbn [Lit run starts_with].
    repeat (destruct s as [|? s]; [reflexivity|];
            match goal with
            | |- context [(?x =? ?c)%N] => destruct (x =? c)%N; [|reflexivity]
            end; cbn [andb]).
    cbn [skipn].
    match goal with
    | |- star_greedy _ _ ?b _ = _ => generalize b
    end.
    induction s as [|x s IH]; intro b; [reflexivity|].
    cbn [star_greedy]. rewrite (IH (is_nl x)). reflexivity. }
  rewrite <- H. destruct bol; reflexivity.
Qed.

Lemma star_space_guarded :
  forall s prev,
    guarded is_backtick prev s = true ->
    star_greedy space closing_fence (bol_of prev) s = None.
Proof.
  induction s as [|c t IH]; intros prev H.
  - reflexivity.
  - cbn [guarded] in H. apply andb_true_iff in H. destruct H as [Hc Ht].
    assert (Hk : closing_fence (bol_of prev) (c :: t) = None).
    { rewrite closing_fence_eq.
      destruct t as [|c2 [|c3 t']]; try reflexivity.
      destruct (backtick =? c)%N eqn:E1; [|reflexivity].
      destruct (backtick =? c2)%N eqn:E2; [|reflexivity].
      destruct (backtick =? c3)%N eqn:E3; [|reflexivity].
      cbn [andb]. apply N.eqb_eq in E2, E3. subst c2 c3.
      cbn [guarded] in Ht. change (is_backtick backtick) with true in Ht.
      destruct t' as [|d t'']; cbn [at_eol].
      - rewrite !andb_false_r in Ht. cbn in Ht. discriminate Ht.
      - destruct (is_nl d); [|reflexivity].
        cbn [negb] in Ht. rewrite !andb_false_r in Ht. cbn in Ht.
        discriminate Ht. }
    cbn [star_greedy]. unfold space at 1.
    destruct (is_space c) eqn:Es; [|exact Hk].
    change (is_nl c) with (bol_of (Some c)). rewrite (IH (Some c) Ht).
    exact Hk.
Qed.

(** No backtick at the start or at the end of a line: no fence matches. *)
Lemma match_at_fence_guarded :
  forall s prev,
    guarded is_backtick prev s = true ->
    match_at fence_re (bol_of prev) s = None.
Proof.
  intros s prev H. rewrite match_at_fence.
  rewrite (star_space_guarded s prev H).
  destruct (bol_of prev) eqn:Eb; [|reflexivity].
  destruct s as [|c t]; [reflexivity|].
  change (py "```json") with [96; 96; 96; 106; 115; 111; 110]%N.
  cbn [starts_with]. destruct (96 =? c)%N eqn:E; [|reflexivity].
  exfalso. cbn [guarded] in H. unfold is_backtick in H.
  rewrite N.eqb_sym in H. change backtick with 96%N in H. rewrite E in H.
  destruct prev as [p|]; cbn [bol_of] in Eb.
  - rewrite Eb in H. discriminate H.
  - discriminate H.
Qed.

Lemma sub_fence_guarded :
  forall s prev,
    guarded is_backtick prev s = true ->
    sub_go fence_re 0 (bol_of prev) s = s.
Proof.
  induction s as [|c t IH]; intros prev H; [reflexivity|].
  cbn [sub_go]. rewrite (match_at_fence_guarded (c :: t) prev H).
  cbn [guarded] in H. apply andb_true_iff in H. destruct H as [_ Ht].
  change (is_nl c) with (bol_of (Some c)). rewrite (IH (Some c) Ht). reflexivity.
Qed.

(** ** [strip] *)

Lemma lstrip_spaces :
  forall ws s, forallb is_space ws = true -> lstrip (ws ++ s) = lstrip s.
Proof.
  induction ws as [|c ws IH]; intros s H; [reflexivity|].
  cbn [forallb] in H. apply andb_true_iff in H. destruct H as [Hc Hw].
  cbn [app lstrip]. rewrite Hc. apply IH. exact Hw.
Qed.

Lemma lstrip_trimmed : forall s, trimmed s = true -> lstrip s = s.
Proof.
  intros s H. unfold trimmed in H. destruct s as [|c t]; [discriminate H|].
  apply andb_true_iff in H. destruct H as [H _]. apply negb_true_iff in H.
  cbn [lstrip]. rewrite H. reflexivity.
Qed.

Lemma trimmed_rev : forall s, trimmed s = true -> trimmed (rev s) = true.
Proof.
  intros s H. unfold trimmed in *. rewrite rev_involutive.
  apply andb_true_iff in H. destruct H as [H1 H2].
  destruct s as [|c t]; [discriminate H1|].
  rewrite H1, andb_true_r. exact H2.
Qed.

Lemma forallb_rev :
  forall (f : codepoint -> bool) l, forallb f (rev l) = forallb f l.
Proof.
  intros f l. induction l as [|c l IH]; [reflexivity|].
  cbn [rev forallb]. rewrite forallb_app, IH. cbn [forallb].
  rewrite andb_true_r. apply andb_comm.
Qed.

(** White space around a trimmed text is what [strip] removes. *)
Lemma strip_padded :
  forall ws1 core ws2,
    forallb is_space ws1 = true ->
    forallb is_space ws2 = true ->
    trimmed core = true ->
    strip (ws1 ++ core ++ ws2) = core.
Proof.
  intros ws1 core ws2 H1 H2 Hc. unfold strip, rstrip.
  rewrite (lstrip_spaces ws1 _ H1).
  assert (Hl : lstrip (core ++ ws2) = core ++ ws2).
  { unfold trimmed in Hc. destruct core as [|c t]; [discriminate Hc|].
    apply andb_true_iff in Hc. destruct Hc as [Hc _]. apply negb_true_iff in Hc.
    cbn [app lstrip]. rewrite Hc. reflexivity. }
  rewrite Hl, rev_app_distr.
  rewrite lstrip_spaces by (rewrite forallb_rev; exact H2).
  rewrite (lstrip_trimmed _ (trimmed_rev _ Hc)). apply rev_involutive.
Qed.

Lemma strip_trimmed : forall s, trimmed s = true -> strip s = s.
Proof.
  intros s H. rewrite <- (app_nil_r s) at 1.
  apply (strip_padded [] s [] eq_refl eq_refl H).
Qed.

(** ** A fenced block *)

Lemma star_space_all :
  forall ws rest b,
    forallb is_space ws = true ->
    match rest with
    | c :: _ => is_space c = false
    | [] => True
    end ->
    star_greedy space (fun _ r => Some r) b (ws ++ rest) = Some rest.
Proof.
  induction ws as [|c ws IH]; intros rest b Hw Hr.
  - cbn [app]. destruct rest as [|d rest]; [reflexivity|].
    cbn [star_greedy]. unfold space. rewrite Hr. reflexivity.
  - cbn [forallb] in Hw. apply andb_true_iff in Hw. destruct Hw as [Hc Hw].
    cbn [app star_greedy]. unfold space at 1. rewrite Hc.
    rewrite (IH rest (is_nl c) Hw Hr). reflexivity.
Qed.

Lemma star_space_closing :
  forall ws b,
    forallb is_space ws = true ->
    star_greedy space closing_fence b (ws ++ py "```") = Some [].
Proof.
  induction ws as [|c ws IH]; intros b Hw.
  - reflexivity.
  - cbn [forallb] in Hw. apply andb_true_iff in Hw. destruct Hw as [Hc Hw].
    cbn [app star_greedy]. unfold space at 1. rewrite Hc.
    rewrite (IH (is_nl c) Hw). reflexivity.
Qed.

(** Inside a text without backticks whose last character is not white
    space, the closing alternative finds nothing. *)
Lemma star_space_body :
  forall body tail b,
    has backtick body = false ->
    body <> [] ->
    is_space (last body 0%N) = false ->
    star_greedy space closing_fence b (body ++ tail) = None.
Proof.
  induction body as [|c body IH]; intros tail b Hb Hne Hl; [congruence|].
  unfold has in Hb. cbn [existsb] in Hb. apply orb_false_iff in Hb.
  destruct Hb as [Hc Hb].
  assert (Hk : closing_fence b (c :: body ++ tail) = None)
    by (apply closing_fence_head; exact Hc).
  cbn [app star_greedy]. unfold space at 1.
  destruct (is_space c) eqn:Es; [|exact Hk].
  destruct body as [|d body'].
  - cbn [last] in Hl. congruence.
  - rewrite (IH tail (is_nl c) Hb); [exact Hk|discriminate|exact Hl].
Qed.

Lemma sub_go_all :
  forall r t b, sub_go r (List.length t) b t = [].
Proof.
  intros r t b. rewrite <- (app_nil_r t) at 2. rewrite sub_go_drop.
  destruct (rev t); reflexivity.
Qed.

(** A match at the head of the text is dropped and the step goes on after
    it. *)
Lemma sub_go_match :
  forall r b pre rest,
    pre <> [] ->
    match_at r b (pre ++ rest) = Some rest ->
    exists b', sub_go r 0 b (pre ++ rest) = sub_go r 0 b' rest.
Proof.
  intros r b pre rest Hne Hm. destruct pre as [|c pre]; [congruence|].
  cbn [app] in *. cbn [sub_go]. rewrite Hm.
  replace (List.length (c :: pre ++ rest) - List.length rest)
    with (S (List.length pre))
    by (cbn [List.length]; rewrite length_app; lia).
  rewrite sub_go_drop. eauto.
Qed.

Lemma sub_fence_body_closing :
  forall body ws2 b,
    has backtick body = false ->
    body = [] \/ is_space (last body 0%N) = false ->
    forallb is_space ws2 = true ->
    sub_go fence_re 0 b (body ++ ws2 ++ py "```") = body.
Proof.
  induction body as [|c body IH]; intros ws2 b Hb Hl Hw.
  - cbn [app].
    assert (Hm : match_at fence_re b (ws2 ++ py "```") = Some []).
    { rewrite match_at_fence, (star_space_closing ws2 b Hw).
      destruct b; [|reflexivity].
      destruct ws2 as [|d ws2]; [reflexivity|].
      cbn [forallb] in Hw. apply andb_true_iff in Hw. destruct Hw as [Hd _].
      change (py "```json") with [96; 96; 96; 106; 115; 111; 110]%N.
      cbn [app starts_with]. change 96%N with backtick.
      rewrite (space_not_backtick d Hd). reflexivity. }
    destruct (ws2 ++ py "```") as [|d t] eqn:E.
    + destruct ws2; discriminate E.
    + cbn [sub_go]. rewrite Hm. cbn [List.length]. rewrite Nat.sub_0_r.
      apply sub_go_all.
  - unfold has in Hb. cbn [existsb] in Hb. apply orb_false_iff in Hb.
    destruct Hb as [Hc Hb].
    destruct Hl as [Hl|Hl]; [discriminate Hl|].
    assert (Hm : match_at fence_re b ((c :: body) ++ ws2 ++ py "```") = None).
    { rewrite match_at_fence.
      rewrite (star_space_body (c :: body) _ b); try assumption.
      - destruct b; [|reflexivity].
        change (py "```json") with [96; 96; 96; 106; 115; 111; 110]%N.
        cbn [app starts_with]. change 96%N with backtick. rewrite Hc. reflexivity.
      - unfold has. cbn [existsb]. rewrite Hc. exact Hb.
      - discriminate. }
    cbn [app sub_go] in *. rewrite Hm. f_equal.
    apply IH; try assumption.
    destruct body as [|d body']; [left; reflexivity|right; exact Hl].
Qed.

Lemma trimmed_last :
  forall s, trimmed s = true -> s <> [] /\ is_space (last s 0%N) = false.
Proof.
  intros s H. unfold trimmed in H. apply andb_true_iff in H. destruct H as [H1 H2].
  split; [destruct s; [discriminate H1|discriminate]|].
  destruct (rev s) as [|l r] eqn:E; [discriminate H2|].
  apply negb_true_iff in H2.
  assert (Hs : s = rev r ++ [l]).
  { rewrite <- (rev_involutive s), E. reflexivity. }
  rewrite Hs, last_last. exact H2.
Qed.

Lemma fenced_block_unfenced :
  forall ws1 body ws2,
    forallb is_space ws1 = true ->
    forallb is_space ws2 = true ->
    has backtick body = false ->
    trimmed body = true ->
    unfence (py "```json" ++ ws1 ++ body ++ ws2 ++ py "```") = body.
Proof.
  intros ws1 body ws2 H1 H2 Hb Ht. unfold unfence.
  destruct (trimmed_last body Ht) as [Hne Hl].
  assert (Hhead : match body ++ ws2 ++ py "```" with
                  | c :: _ => is_space c = false
                  | [] => True
                  end).
  { unfold trimmed in Ht. destruct body as [|c t]; [congruence|].
    apply andb_true_iff in Ht. destruct Ht as [Ht _]. apply negb_true_iff in Ht.
    exact Ht. }
  rewrite strip_trimmed.
  - unfold sub_empty.
    assert (Hm : match_at fence_re true
                   ((py "```json" ++ ws1) ++ body ++ ws2 ++ py "```")
                 = Some (body ++ ws2 ++ py "```")).
    { rewrite match_at_fence. rewrite <- app_assoc.
      change (py "```json") with [96; 96; 96; 106; 115; 111; 110]%N.
      cbn [app starts_with skipn]. rewrite !N.eqb_refl. cbn [andb].
      rewrite (star_space_all ws1 _ true H1 Hhead). reflexivity. }
    rewrite app_assoc.
    destruct (sub_go_match fence_re true (py "```json" ++ ws1) _
                ltac:(discriminate) Hm) as [b' ->].
    apply sub_fence_body_closing; auto.
  - unfold trimmed.
    replace (py "```json" ++ ws1 ++ body ++ ws2 ++ py "```")
      with ((py "```json" ++ ws1 ++ body ++ ws2) ++ py "```")
      by (rewrite <- !app_assoc; reflexivity).
    rewrite rev_app_distr. reflexivity.
Qed.

(** The fences of a block labelled json are removed with the white space
    next to them, and the text between is kept as it is, when it has no
    backtick. *)
Theorem unfence_fenced_block :
  forall ws1 body ws2,
    forallb is_space ws1 = true ->
    forallb is_space ws2 = true ->
    has backtick body = false ->
    trimmed body = true ->
    unfence (py "```json" ++ ws1 ++ body ++ ws2 ++ py "```") = body.
Proof.
  intros ws1 body ws2 H1 H2 Hb Ht.
  apply fenced_block_unfenced; assumption.
Qed.

Lemma unfence_fenced_block_witness :
  unfence (py "```json" ++ [nl] ++ py "[1, 2]" ++ [nl] ++ py "```") = py "[1, 2]".
Proof.
  apply (unfence_fenced_block [nl] (py "[1, 2]") [nl]); reflexivity.
Defined.

Lemma search_cite_no_open :
  forall s, has cite_open s = false -> search cite_re s = None.
Proof.
  unfold search. intro s. generalize true.
  induction s as [|c t IH]; intros b H.
  - cbn [search_go]. rewrite match_at_cite. reflexivity.
  - unfold has in H. cbn [existsb] in H. apply orb_false_iff in H.
    destruct H as [Hc Ht].
    apply search_go_none_cons. split.
    + rewrite match_at_cite, Hc. reflexivity.
    + apply IH. exact Ht.
Qed.

Lemma has_app :
  forall c a b, has c (a ++ b) = has c a || has c b.
Proof. intros c a b. unfold has. apply existsb_app. Qed.

(** A JSON object in a fenced block labelled json comes out as it is: the
    fences and the white space around the block and inside the fences are
    dropped, when the object has no backtick and no opening citation
    bracket. *)
Theorem sanitize_fenced_object :
  forall pad1 ws1 m ws2 pad2,
    forallb is_space pad1 = true ->
    forallb is_space ws1 = true ->
    forallb is_space ws2 = true ->
    forallb is_space pad2 = true ->
    has backtick m = false ->
    has cite_open m = false ->
    sanitize (pad1 ++ (py "```json" ++ ws1 ++ (lbrace :: m ++ [rbrace]) ++ ws2
                         ++ py "```") ++ pad2)
    = lbrace :: m ++ [rbrace].
Proof.
  intros pad1 ws1 m ws2 pad2 Hp1 H1 H2 Hp2 Hb Ho.
  set (body := lbrace :: m ++ [rbrace]).
  assert (Ht : trimmed body = true).
  { unfold trimmed, body. cbn [rev]. rewrite rev_app_distr. reflexivity. }
  assert (Hbb : has backtick body = false).
  { unfold body. change (lbrace :: m ++ [rbrace]) with ([lbrace] ++ m ++ [rbrace]).
    rewrite !has_app, Hb. reflexivity. }
  assert (Hob : has cite_open body = false).
  { unfold body. change (lbrace :: m ++ [rbrace]) with ([lbrace] ++ m ++ [rbrace]).
    rewrite !has_app, Ho. reflexivity. }
  unfold sanitize.
  assert (Hs : strip (pad1 ++ (py "```json" ++ ws1 ++ body ++ ws2 ++ py "```") ++ pad2)
               = strip (py "```json" ++ ws1 ++ body ++ ws2 ++ py "```")).
  { rewrite strip_padded; try assumption.
    - symmetry. apply strip_trimmed.
      unfold trimmed.
      replace (py "```json" ++ ws1 ++ body ++ ws2 ++ py "```")
        with ((py "```json" ++ ws1 ++ body ++ ws2) ++ py "```")
        by (rewrite <- !app_assoc; reflexivity).
      rewrite rev_app_distr. reflexivity.
    - unfold trimmed.
      replace (py "```json" ++ ws1 ++ body ++ ws2 ++ py "```")
        with ((py "```json" ++ ws1 ++ body ++ ws2) ++ py "```")
        by (rewrite <- !app_assoc; reflexivity).
      rewrite rev_app_distr. reflexivity. }
  rewrite Hs. fold (unfence (py "```json" ++ ws1 ++ body ++ ws2 ++ py "```")).
  rewrite (fenced_block_unfenced ws1 body ws2 H1 H2 Hbb Ht).
  rewrite (sub_cite_id body (search_cite_no_open body Hob)).
  unfold body.
  pose proof (search_brace_span [] m [] eq_refl eq_refl) as Hsp.
  cbn [app] in Hsp. rewrite Hsp. reflexivity.
Qed.

Lemma sanitize_fenced_object_witness :
  sanitize ([32%N] ++ (py "```json" ++ [nl] ++ (lbrace :: pyq "'a': [1]" ++ [rbrace])
                         ++ [nl] ++ py "```") ++ [nl])
  = lbrace :: pyq "'a': [1]" ++ [rbrace].
Proof.
  apply (sanitize_fenced_object [32%N] [nl] (pyq "'a': [1]") [nl] [nl]); reflexivity.
Defined.

(** ** Guarded texts *)

Section Guarded.

Variable P : codepoint -> bool.

Lemma guarded_change_prev :
  forall s prev p,
    guarded P prev s = true -> is_nl p = false -> guarded P (Some p) s = true.
Proof.
  intros s prev p H Hp. destruct s as [|c t]; [reflexivity|].
  cbn [guarded] in *. apply andb_true_iff in H. destruct H as [Hc Ht].
  rewrite Ht, andb_true_r. destruct (P c); [|reflexivity].
  apply andb_true_iff in Hc. destruct Hc as [_ Hc]. rewrite Hc, Hp. reflexivity.
Qed.

Lemma guarded_head :
  forall s prev, guarded P None s = true -> guarded P prev s = true.
Proof.
  intros s prev H. destruct s as [|c t]; [reflexivity|].
  cbn [guarded] in *. apply andb_true_iff in H. destruct H as [Hc Ht].
  rewrite Ht, andb_true_r. destruct (P c); [discriminate Hc|reflexivity].
Qed.

Lemma guarded_app :
  forall a b prev,
    guarded P prev a = true -> guarded P None b = true ->
    guarded P prev (a ++ b) = true.
Proof.
  induction a as [|c a IH]; intros b prev Ha Hb.
  - apply guarded_head. exact Hb.
  - cbn [app guarded] in *. apply andb_true_iff in Ha. destruct Ha as [Hc Ha].
    rewrite (IH b (Some c) Ha Hb), andb_true_r.
    destruct (P c); [|reflexivity].
    apply andb_true_iff in Hc. destruct Hc as [Hp Hn]. rewrite Hp.
    destruct a as [|d a]; [discriminate Hn|exact Hn].
Qed.

(** Joining at a character outside the class. *)
Lemma guarded_app_at :
  forall a q b prev,
    guarded P prev (a ++ [q]) = true ->
    guarded P (Some q) b = true ->
    guarded P prev (a ++ q :: b) = true.
Proof.
  induction a as [|c a IH]; intros q b prev Ha Hb.
  - cbn [app guarded] in *. rewrite Hb, andb_true_r.
    destruct (P q); [|reflexivity].
    rewrite andb_false_r in Ha. discriminate Ha.
  - cbn [app guarded] in *. apply andb_true_iff in Ha. destruct Ha as [Hc Ha].
    rewrite (IH q b (Some c) Ha Hb), andb_true_r.
    destruct (P c); [|reflexivity].
    apply andb_true_iff in Hc. destruct Hc as [Hp Hn]. rewrite Hp.
    destruct a as [|d a]; exact Hn.
Qed.

Lemma guarded_none_of :
  forall s prev, forallb (fun c => negb (P c)) s = true -> guarded P prev s = true.
Proof.
  induction s as [|c t IH]; intros prev H; [reflexivity|].
  cbn [forallb] in H. apply andb_true_iff in H. destruct H as [Hc Ht].
  apply negb_true_iff in Hc. cbn [guarded]. rewrite Hc. apply IH. exact Ht.
Qed.

(** A text on one line between two characters that are no line feed. *)
Lemma guarded_one_line :
  forall body p q,
    is_nl p = false -> is_nl q = false -> P q = false ->
    has nl body = false ->
    guarded P (Some p) (body ++ [q]) = true.
Proof.
  induction body as [|c body IH]; intros p q Hp Hq HPq Hb.
  - cbn [app guarded]. rewrite HPq. reflexivity.
  - unfold has in Hb. cbn [existsb] in Hb. apply orb_false_iff in Hb.
    destruct Hb as [Hc Hb].
    assert (Hcn : is_nl c = false) by (unfold is_nl; rewrite N.eqb_sym; exact Hc).
    cbn [app guarded]. rewrite (IH c q Hcn Hq HPq Hb), andb_true_r.
    destruct (P c); [|reflexivity].
    rewrite Hp. cbn [negb andb].
    destruct body as [|d body]; cbn [app].
    + rewrite Hq. reflexivity.
    + unfold has in Hb. cbn [existsb] in Hb. apply orb_false_iff in Hb.
      destruct Hb as [Hd _]. unfold is_nl. rewrite N.eqb_sym, Hd. reflexivity.
Qed.

(** A one-line text put into a guarded text, between two characters outside
    the class, keeps it guarded. *)
Lemma guarded_insert :
  forall a b o mk cl prev,
    guarded P prev (a ++ b) = true ->
    P o = false -> P cl = false ->
    is_nl o = false -> is_nl cl = false ->
    has nl mk = false ->
    guarded P prev (a ++ o :: mk ++ cl :: b) = true.
Proof.
  induction a as [|c a IH]; intros b o mk cl prev H Ho Hcl Hno Hncl Hmk.
  - cbn [app] in *. cbn [guarded]. rewrite Ho. cbn [andb].
    replace (mk ++ cl :: b) with (mk ++ cl :: b) by reflexivity.
    apply guarded_app_at.
    + apply guarded_one_line; assumption.
    + apply (guarded_change_prev b prev cl H Hncl).
  - cbn [app guarded] in *. apply andb_true_iff in H. destruct H as [Hc H].
    rewrite (IH b o mk cl (Some c) H Ho Hcl Hno Hncl Hmk), andb_true_r.
    destruct (P c); [|reflexivity].
    apply andb_true_iff in Hc. destruct Hc as [Hp Hn]. rewrite Hp.
    destruct a as [|d a]; cbn [app].
    + rewrite Hno. reflexivity.
    + exact Hn.
Qed.

End Guarded.

Lemma guarded_weaken :
  forall (P Q : codepoint -> bool) s prev,
    (forall c, Q c = true -> P c = true) ->
    guarded P prev s = true -> guarded Q prev s = true.
Proof.
  intros P Q s. induction s as [|c t IH]; intros prev HPQ H; [reflexivity|].
  cbn [guarded] in *. apply andb_true_iff in H. destruct H as [Hc Ht].
  rewrite (IH (Some c) HPQ Ht), andb_true_r.
  destruct (Q c) eqn:EQ; [|reflexivity].
  rewrite (HPQ c EQ) in Hc. exact Hc.
Qed.

(** ** What [json.loads] reads *)

Lemma hex_val_not_nl : forall c v, hex_val c = Some v -> (nl =? c)%N = false.
Proof.
  intros c v H. destruct (nl =? c)%N eqn:E; [|reflexivity].
  apply N.eqb_eq in E. subst c. discriminate H.
Qed.

Lemma hex4_no_nl :
  forall a b c d v, hex4 a b c d = Some v -> has nl [a; b; c; d] = false.
Proof.
  intros a b c d v H. unfold hex4 in H.
  destruct (hex_val a) eqn:Ea; [|discriminate H].
  destruct (hex_val b) eqn:Eb; [|discriminate H].
  destruct (hex_val c) eqn:Ec; [|discriminate H].
  destruct (hex_val d) eqn:Ed; [|discriminate H].
  unfold has. cbn [existsb].
  rewrite (hex_val_not_nl a _ Ea), (hex_val_not_nl b _ Eb),
    (hex_val_not_nl c _ Ec), (hex_val_not_nl d _ Ed). reflexivity.
Qed.

Lemma unescape_not_nl : forall e ch, unescape e = Some ch -> (nl =? e)%N = false.
Proof.
  intros e ch H. destruct (nl =? e)%N eqn:E; [|reflexivity].
  apply N.eqb_eq in E. subst e. discriminate H.
Qed.

(** A string is read up to its closing quote, and has no line feed in it. *)
Lemma scanstring_consumed :
  forall s str r,
    scanstring s = Some (str, r) ->
    exists body, s = body ++ dquote :: r /\ has nl body = false.
Proof.
  intro s. remember (List.length s) as n eqn:En. revert s En.
  induction n as [n IH] using lt_wf_ind. intros s En str r H.
  assert (Hrec : forall t str' r',
             List.length t < List.length s ->
             scanstring t = Some (str', r') ->
             exists body, t = body ++ dquote :: r' /\ has nl body = false).
  { intros t str' r' Hlt Ht. apply (IH (List.length t)) with (str := str');
      [subst n; exact Hlt|reflexivity|exact Ht]. }
  clear IH En.
  destruct s as [|c t]; [discriminate H|].
  cbn [scanstring] in H.
  destruct (c =? dquote)%N eqn:Eq.
  { injection H as _ <-. apply N.eqb_eq in Eq. subst c. exists []. auto. }
  destruct (c =? backslash)%N eqn:Eb.
  - apply N.eqb_eq in Eb. subst c.
    destruct t as [|e t1]; [discriminate H|].
    destruct (e =? letter_u)%N eqn:Eu.
    + apply N.eqb_eq in Eu. subst e.
      destruct t1 as [|h1 [|h2 [|h3 [|h4 t2]]]]; try discriminate H.
      destruct (hex4 h1 h2 h3 h4) as [u1|] eqn:Eh; [|discriminate H].
      pose proof (hex4_no_nl _ _ _ _ _ Eh) as Hh.
      assert (Hlone : forall str' r',
                 match scanstring t2 with
                 | Some (r0, rest) => Some (u1 :: r0, rest)
                 | None => None
                 end = Some (str', r') ->
                 exists body,
                   backslash :: letter_u :: h1 :: h2 :: h3 :: h4 :: t2
                   = body ++ dquote :: r' /\ has nl body = false).
      { intros str' r' Hl.
        destruct (scanstring t2) as [[r0 rest]|] eqn:E2; [|discriminate Hl].
        injection Hl as _ <-.
        destruct (Hrec t2 r0 rest ltac:(cbn [List.length]; lia) E2)
          as [body [-> Hb]].
        exists (backslash :: letter_u :: h1 :: h2 :: h3 :: h4 :: body).
        split; [reflexivity|].
        change (backslash :: letter_u :: h1 :: h2 :: h3 :: h4 :: body)
          with ([backslash; letter_u] ++ [h1; h2; h3; h4] ++ body).
        rewrite !has_app, Hh, Hb. reflexivity. }
      destruct (is_high_surrogate u1); [|apply (Hlone _ _ H)].
      destruct t2 as [|b [|l [|g1 [|g2 [|g3 [|g4 t3]]]]]];
        try apply (Hlone _ _ H).
      destruct ((b =? backslash) && (l =? letter_u))%N eqn:Ebl;
        [|apply (Hlone _ _ H)].
      apply andb_true_iff in Ebl. destruct Ebl as [E1 E2].
      apply N.eqb_eq in E1, E2. subst b l.
      destruct (hex4 g1 g2 g3 g4) as [u2|] eqn:Eg; [|discriminate H].
      pose proof (hex4_no_nl _ _ _ _ _ Eg) as Hg.
      destruct (is_low_surrogate u2); [|apply (Hlone _ _ H)].
      destruct (scanstring t3) as [[r0 rest]|] eqn:E3; [|discriminate H].
      injection H as _ <-.
      destruct (Hrec t3 r0 rest ltac:(cbn [List.length]; lia) E3)
        as [body [-> Hb]].
      exists (backslash :: letter_u :: h1 :: h2 :: h3 :: h4
                :: backslash :: letter_u :: g1 :: g2 :: g3 :: g4 :: body).
      split; [reflexivity|].
      change (backslash :: letter_u :: h1 :: h2 :: h3 :: h4
                :: backslash :: letter_u :: g1 :: g2 :: g3 :: g4 :: body)
        with ([backslash; letter_u] ++ [h1; h2; h3; h4]
                ++ [backslash; letter_u] ++ [g1; g2; g3; g4] ++ body).
      rewrite !has_app, Hh, Hg, Hb. reflexivity.
    + destruct (unescape e) as [ch|] eqn:Ee; [|discriminate H].
      destruct (scanstring t1) as [[r0 rest]|] eqn:E1; [|discriminate H].
      injection H as _ <-.
      destruct (Hrec t1 r0 rest ltac:(cbn [List.length]; lia) E1)
        as [body [-> Hb]].
      exists (backslash :: e :: body). split; [reflexivity|].
      unfold has in *. cbn [existsb].
      rewrite (unescape_not_nl e ch Ee), Hb. reflexivity.
  - destruct (c <? 32)%N eqn:Ec; [discriminate H|].
    destruct (scanstring t) as [[r0 rest]|] eqn:E1; [|discriminate H].
    injection H as _ <-.
    destruct (Hrec t r0 rest ltac:(cbn [List.length]; lia) E1)
      as [body [-> Hb]].
    exists (c :: body). split; [reflexivity|].
    unfold has in *. cbn [existsb]. rewrite Hb, orb_false_r.
    apply N.ltb_ge in Ec. apply N.eqb_neq. unfold nl. lia.
Qed.

Lemma span_digits_consumed :
  forall s d r,
    span_digits s = (d, r) -> s = d ++ r /\ forallb number_char d = true.
Proof.
  induction s as [|c t IH]; intros d r H; cbn [span_digits] in H.
  - injection H as <- <-. auto.
  - destruct (is_digit c) eqn:Ec.
    + destruct (span_digits t) as [d' r'] eqn:E. injection H as <- <-.
      destruct (IH d' r' eq_refl) as [-> Hd].
      split; [reflexivity|]. cbn [forallb]. rewrite Hd.
      unfold number_char. rewrite Ec. reflexivity.
    + injection H as <- <-. auto.
Qed.

Lemma scan_int_consumed :
  forall s i r,
    scan_int s = Some (i, r) -> s = i ++ r /\ forallb number_char i = true.
Proof.
  intros s i r H. unfold scan_int in H.
  assert (Hgo : forall sign s1,
             forallb number_char sign = true ->
             match s1 with
             | c :: t =>
                 if (c =? 48)%N then Some (sign ++ [c], t)
                 else if is_digit c then
                   let (d, r0) := span_digits t in Some (sign ++ c :: d, r0)
                 else None
             | [] => None
             end = Some (i, r) ->
             sign ++ s1 = i ++ r /\ forallb number_char i = true).
  { intros sign s1 Hs Hm. destruct s1 as [|c t]; [discriminate Hm|].
    destruct (c =? 48)%N eqn:E0.
    - injection Hm as <- <-. rewrite <- app_assoc. split; [reflexivity|].
      rewrite forallb_app, Hs. apply N.eqb_eq in E0. subst c. reflexivity.
    - destruct (is_digit c) eqn:Ed; [|discriminate Hm].
      destruct (span_digits t) as [d r0] eqn:E. injection Hm as <- <-.
      destruct (span_digits_consumed t d r0 E) as [-> Hd].
      rewrite <- app_assoc. split; [reflexivity|].
      rewrite forallb_app, Hs. cbn [forallb]. rewrite Hd.
      unfold number_char. rewrite Ed. reflexivity. }
  destruct s as [|c t]; [discriminate H|].
  destruct (c =? minus)%N eqn:Em.
  - apply N.eqb_eq in Em. subst c.
    apply (Hgo [minus] t eq_refl H).
  - apply (Hgo [] (c :: t) eq_refl H).
Qed.

Lemma scan_frac_consumed :
  forall s f r,
    scan_frac s = (f, r) -> s = f ++ r /\ forallb number_char f = true.
Proof.
  intros s f r H. unfold scan_frac in H.
  destruct s as [|p t]; [injection H as <- <-; auto|].
  destruct (p =? period)%N eqn:Ep; [|injection H as <- <-; auto].
  destruct (span_digits t) as [d r0] eqn:E.
  destruct d as [|d0 d]; [injection H as <- <-; auto|].
  injection H as <- <-.
  destruct (span_digits_consumed t _ r0 E) as [-> Hd].
  split; [reflexivity|]. cbn [forallb] in *. rewrite Hd.
  apply N.eqb_eq in Ep. subst p. reflexivity.
Qed.

Lemma scan_exp_consumed :
  forall s e r,
    scan_exp s = (e, r) -> s = e ++ r /\ forallb number_char e = true.
Proof.
  intros s e r H. unfold scan_exp in H.
  destruct s as [|x t]; [injection H as <- <-; auto|].
  destruct ((x =? 101) || (x =? 69))%N eqn:Ex; [|injection H as <- <-; auto].
  assert (Hx : number_char x = true).
  { unfold number_char. apply orb_true_iff in Ex. destruct Ex as [E|E];
      rewrite E; rewrite ?orb_true_r; reflexivity. }
  assert (Hgo : forall sign t1,
             forallb number_char sign = true ->
             match span_digits t1 with
             | ([], _) => ([], x :: t)
             | (d, r0) => (x :: sign ++ d, r0)
             end = (e, r) ->
             t = sign ++ t1 ->
             x :: t = e ++ r /\ forallb number_char e = true).
  { intros sign t1 Hs Hm Ht.
    destruct (span_digits t1) as [d r0] eqn:E.
    destruct d as [|d0 d]; [injection Hm as <- <-; auto|].
    injection Hm as <- <-.
    destruct (span_digits_consumed t1 _ r0 E) as [-> Hd].
    subst t. split; [cbn [app]; rewrite <- app_assoc; reflexivity|].
    cbn [forallb]. rewrite Hx, forallb_app, Hs. exact Hd. }
  destruct t as [|c t'].
  - apply (Hgo [] [] eq_refl H eq_refl).
  - destruct ((c =? 45) || (c =? 43))%N eqn:Ec.
    + apply (Hgo [c] t'); [|exact H|reflexivity].
      cbn [forallb]. unfold number_char.
      apply orb_true_iff in Ec. destruct Ec as [E|E]; rewrite E;
        rewrite ?orb_true_r; reflexivity.
    + apply (Hgo [] (c :: t') eq_refl H eq_refl).
Qed.

Lemma scan_number_consumed :
  forall s v r,
    scan_number s = Some (v, r) ->
    exists pre, s = pre ++ r /\ forallb number_char pre = true.
Proof.
  intros s v r H. unfold scan_number in H.
  destruct (scan_int s) as [[i s1]|] eqn:Ei; [|discriminate H].
  destruct (scan_frac s1) as [f s2] eqn:Ef.
  destruct (scan_exp s2) as [e s3] eqn:Ee.
  destruct (scan_int_consumed s i s1 Ei) as [-> Hi].
  destruct (scan_frac_consumed s1 f s2 Ef) as [-> Hf].
  destruct (scan_exp_consumed s2 e s3 Ee) as [-> He].
  assert (r = s3) as -> by (destruct f, e; injection H as _ <-; reflexivity).
  exists (i ++ f ++ e). split; [rewrite <- !app_assoc; reflexivity|].
  rewrite !forallb_app, Hi, Hf, He. reflexivity.
Qed.

Lemma number_char_constant :
  forall c, number_char c = true -> constant_char c = true.
Proof. intros c H. unfold constant_char. rewrite H. reflexivity. Qed.

Lemma constant_char_outside :
  forall c, constant_char c = true -> outside_strings c = true.
Proof.
  intros c H. unfold outside_strings, string_only. apply negb_true_iff.
  unfold constant_char, number_char, is_digit in H.
  destruct (c =? backtick)%N eqn:E1; [apply N.eqb_eq in E1; subst c; discriminate H|].
  destruct (c =? cite_open)%N eqn:E2; [apply N.eqb_eq in E2; subst c; discriminate H|].
  destruct (c =? cite_close)%N eqn:E3; [apply N.eqb_eq in E3; subst c; discriminate H|].
  reflexivity.
Qed.

Lemma constant_char_not_space :
  forall c, constant_char c = true -> is_space c = false.
Proof.
  intros c H. destruct (is_space c) eqn:E; [|reflexivity]. exfalso.
  unfold is_space in E. unfold constant_char, number_char, is_digit in H.
  repeat rewrite ?orb_true_iff, ?andb_true_iff, ?N.eqb_eq, ?N.leb_le in E.
  repeat rewrite ?orb_true_iff, ?andb_true_iff, ?N.eqb_eq, ?N.leb_le in H.
  lia.
Qed.

Lemma forallb_impl :
  forall (f g : codepoint -> bool) l,
    (forall c, f c = true -> g c = true) ->
    forallb f l = true -> forallb g l = true.
Proof.
  intros f g l Hfg. induction l as [|c l IH]; intro H; [reflexivity|].
  cbn [forallb] in *. apply andb_true_iff in H. destruct H as [Hc Hl].
  rewrite (Hfg c Hc), (IH Hl). reflexivity.
Qed.

Lemma starts_with_split :
  forall p s, starts_with p s = true -> s = p ++ skipn (List.length p) s.
Proof.
  induction p as [|x p IH]; intros s H; [reflexivity|].
  destruct s as [|y s]; [discriminate H|].
  cbn [starts_with] in H. apply andb_true_iff in H. destruct H as [Hx Hp].
  apply N.eqb_eq in Hx. subst y. cbn [List.length skipn app].
  rewrite <- (IH s Hp). reflexivity.
Qed.

(** A literal or a number is read from digits, letters, signs and the
    period. *)
Lemma scan_constant_consumed :
  forall s v r,
    scan_constant s = Some (v, r) ->
    exists pre, s = pre ++ r /\ pre <> [] /\ forallb constant_char pre = true.
Proof.
  intros s v r H. unfold scan_constant in H.
  assert (Hlit : forall p,
             p <> [] -> forallb constant_char p = true ->
             starts_with p s = true ->
             r = skipn (List.length p) s ->
             exists pre, s = pre ++ r /\ pre <> [] /\
                         forallb constant_char pre = true).
  { intros p Hne Hp Hs ->. exists p. split; [apply starts_with_split; exact Hs|].
    split; assumption. }
  destruct (starts_with (py "null") s) eqn:E1.
  { injection H as _ <-. apply (Hlit (py "null")); try reflexivity; try assumption.
    discriminate. }
  destruct (starts_with (py "true") s) eqn:E2.
  { injection H as _ <-. apply (Hlit (py "true")); try reflexivity; try assumption.
    discriminate. }
  destruct (starts_with (py "false") s) eqn:E3.
  { injection H as _ <-. apply (Hlit (py "false")); try reflexivity; try assumption.
    discriminate. }
  destruct (scan_number s) as [[v' r']|] eqn:En.
  { injection H as _ <-.
    destruct (scan_number_consumed s v' r' En) as [pre [-> Hp]].
    exists pre. split; [reflexivity|]. split.
    - intro; subst pre. unfold scan_number in En. cbn [app] in En.
      destruct (scan_int r') as [[i s1]|] eqn:Ei; [|discriminate En].
      destruct (scan_frac s1) as [f s2] eqn:Ef.
      destruct (scan_exp s2) as [e s3] eqn:Ee.
      destruct (scan_int_consumed r' i s1 Ei) as [Hr Hi].
      destruct (scan_frac_consumed s1 f s2 Ef) as [-> _].
      destruct (scan_exp_consumed s2 e s3 Ee) as [-> _].
      assert (r' = s3) by (destruct f, e; injection En as _ <-; reflexivity).
      subst s3.
      assert (Hl : List.length r' = List.length (i ++ f ++ e ++ r'))
        by (rewrite <- Hr; reflexivity).
      rewrite !length_app in Hl.
      assert (i = []) by (destruct i; [reflexivity|cbn in Hl; lia]).
      subst i. unfold scan_int in Ei.
      destruct r' as [|c t]; [discriminate Ei|].
      destruct (c =? minus)%N.
      + destruct t as [|c' t']; [discriminate Ei|].
        destruct (c' =? 48)%N; [discriminate Ei|].
        destruct (is_digit c'); [|discriminate Ei].
        destruct (span_digits t'). discriminate Ei.
      + destruct (c =? 48)%N; [discriminate Ei|].
        destruct (is_digit c); [|discriminate Ei].
        destruct (span_digits t). discriminate Ei.
    - apply (forallb_impl number_char); [exact number_char_constant|exact Hp]. }
  destruct (starts_with (py "NaN") s) eqn:E4.
  { injection H as _ <-. apply (Hlit (py "NaN")); try reflexivity; try assumption.
    discriminate. }
  destruct (starts_with (py "Infinity") s) eqn:E5.
  { injection H as _ <-. apply (Hlit (py "Infinity")); try reflexivity; try assumption.
    discriminate. }
  destruct (starts_with (py "-Infinity") s) eqn:E6; [|discriminate H].
  injection H as _ <-. apply (Hlit (py "-Infinity")); try reflexivity; try assumption.
  discriminate.
Qed.

Lemma reads_single :
  forall prev c r, string_only c = false -> reads prev (c :: r) r.
Proof.
  intros prev c r H. exists [c]. split; [reflexivity|].
  cbn [guarded]. rewrite H. reflexivity.
Qed.

Lemma reads_cons :
  forall prev c t r,
    string_only c = false -> reads (Some c) t r -> reads prev (c :: t) r.
Proof.
  intros prev c t r H [pre [-> Hg]]. exists (c :: pre). split; [reflexivity|].
  cbn [guarded]. rewrite H, Hg. reflexivity.
Qed.

Lemma reads_weaken :
  forall prev s r, reads None s r -> reads prev s r.
Proof.
  intros prev s r [pre [-> Hg]]. exists pre. split; [reflexivity|].
  apply guarded_head. exact Hg.
Qed.

Lemma reads_trans :
  forall prev s r1 r2, reads prev s r1 -> reads None r1 r2 -> reads prev s r2.
Proof.
  intros prev s r1 r2 [p1 [-> H1]] [p2 [-> H2]]. exists (p1 ++ p2).
  split; [rewrite app_assoc; reflexivity|]. apply guarded_app; assumption.
Qed.

Lemma reads_outside :
  forall prev pre r,
    forallb outside_strings pre = true -> reads prev (pre ++ r) r.
Proof.
  intros prev pre r H. exists pre. split; [reflexivity|].
  apply guarded_none_of. exact H.
Qed.

Lemma json_ws_outside :
  forall c, is_json_ws c = true -> outside_strings c = true.
Proof.
  intros c H. unfold outside_strings, string_only. apply negb_true_iff.
  destruct (c =? backtick)%N eqn:E1; [apply N.eqb_eq in E1; subst c; discriminate H|].
  destruct (c =? cite_open)%N eqn:E2; [apply N.eqb_eq in E2; subst c; discriminate H|].
  destruct (c =? cite_close)%N eqn:E3; [apply N.eqb_eq in E3; subst c; discriminate H|].
  reflexivity.
Qed.

Lemma skip_ws_split :
  forall s, exists ws, s = ws ++ skip_ws s /\ forallb is_json_ws ws = true.
Proof.
  induction s as [|c t IH].
  - exists []. auto.
  - cbn [skip_ws]. destruct (is_json_ws c) eqn:Ec.
    + destruct IH as [ws [Ht Hw]]. exists (c :: ws). cbn [app forallb].
      rewrite Ec, Hw, <- Ht. auto.
    + exists []. auto.
Qed.

Lemma reads_skip_ws : forall s, reads None s (skip_ws s).
Proof.
  intro s. destruct (skip_ws_split s) as [ws [Hs Hw]].
  rewrite Hs at 1. apply reads_outside.
  apply (forallb_impl is_json_ws); [exact json_ws_outside|exact Hw].
Qed.

Lemma reads_string :
  forall t str r, scanstring t = Some (str, r) -> reads (Some dquote) t r.
Proof.
  intros t str r H. destruct (scanstring_consumed t str r H) as [body [-> Hb]].
  exists (body ++ [dquote]). split; [rewrite <- app_assoc; reflexivity|].
  apply guarded_one_line; auto.
Qed.

(** What a successful parse has read is guarded: a backtick or a citation
    bracket occurs inside a string only, so with a character before it and
    one after it on its line. *)
Lemma scan_reads :
  forall n,
    (forall s v r, scan_once n s = Some (v, r) -> reads None s r) /\
    (forall s pairs v r,
        object_members n s pairs = Some (v, r) -> reads (Some dquote) s r) /\
    (forall s values v r, array_items n s values = Some (v, r) -> reads None s r).
Proof.
  induction n as [|n [IHs [IHo IHa]]].
  - repeat split; intros; discriminate.
  - repeat split.
    + intros s v r H. cbn [scan_once] in H.
      destruct s as [|c t]; [discriminate H|].
      destruct (c =? dquote)%N eqn:Eq.
      { apply N.eqb_eq in Eq. subst c.
        destruct (scanstring t) as [[str rest]|] eqn:Es; [|discriminate H].
        injection H as _ <-. apply reads_cons; [reflexivity|].
        apply (reads_string t str rest Es). }
      destruct (c =? lbrace)%N eqn:Eb.
      { apply N.eqb_eq in Eb. subst c.
        apply reads_cons; [reflexivity|]. apply reads_weaken.
        apply (reads_trans None t (skip_ws t)); [apply reads_skip_ws|].
        destruct (skip_ws t) as [|d t1]; [discriminate H|].
        destruct (d =? rbrace)%N eqn:Er.
        - injection H as _ <-. apply N.eqb_eq in Er. subst d.
          apply reads_single. reflexivity.
        - destruct (d =? dquote)%N eqn:Ed; [|discriminate H].
          apply N.eqb_eq in Ed. subst d.
          apply reads_cons; [reflexivity|]. apply (IHo t1 [] v r H). }
      destruct (c =? lbracket)%N eqn:Ek.
      { apply N.eqb_eq in Ek. subst c.
        apply reads_cons; [reflexivity|]. apply reads_weaken.
        apply (reads_trans None t (skip_ws t)); [apply reads_skip_ws|].
        destruct (skip_ws t) as [|d t1]; [discriminate H|].
        destruct (d =? rbracket)%N eqn:Er.
        - injection H as _ <-. apply N.eqb_eq in Er. subst d.
          apply reads_single. reflexivity.
        - apply (IHa (d :: t1) [] v r H). }
      destruct (scan_constant_consumed (c :: t) v r H) as [pre [-> [_ Hp]]].
      apply reads_outside.
      apply (forallb_impl constant_char); [exact constant_char_outside|exact Hp].
    + intros s pairs v r H. cbn [object_members] in H.
      destruct (scanstring s) as [[key s1]|] eqn:Es; [|discriminate H].
      apply (reads_trans (Some dquote) s s1); [apply (reads_string s key s1 Es)|].
      apply (reads_trans None s1 (skip_ws s1)); [apply reads_skip_ws|].
      destruct (skip_ws s1) as [|c s2]; [discriminate H|].
      destruct (c =? colon)%N eqn:Ec; [|discriminate H].
      apply N.eqb_eq in Ec. subst c.
      apply (reads_trans None _ s2); [apply reads_single; reflexivity|].
      apply (reads_trans None s2 (skip_ws s2)); [apply reads_skip_ws|].
      destruct (scan_once n (skip_ws s2)) as [[value s3]|] eqn:Ev; [|discriminate H].
      apply (reads_trans None _ s3); [apply (IHs _ value s3 Ev)|].
      apply (reads_trans None s3 (skip_ws s3)); [apply reads_skip_ws|].
      destruct (skip_ws s3) as [|d s4]; [discriminate H|].
      destruct (d =? rbrace)%N eqn:Er.
      { injection H as _ <-. apply N.eqb_eq in Er. subst d.
        apply reads_single. reflexivity. }
      destruct (d =? comma)%N eqn:Em; [|discriminate H].
      apply N.eqb_eq in Em. subst d.
      apply (reads_trans None _ s4); [apply reads_single; reflexivity|].
      apply (reads_trans None s4 (skip_ws s4)); [apply reads_skip_ws|].
      destruct (skip_ws s4) as [|q s5]; [discriminate H|].
      destruct (q =? dquote)%N eqn:Eq; [|discriminate H].
      apply N.eqb_eq in Eq. subst q.
      apply reads_cons; [reflexivity|]. apply (IHo s5 _ v r H).
    + intros s values v r H. cbn [array_items] in H.
      destruct (scan_once n s) as [[value s1]|] eqn:Ev; [|discriminate H].
      apply (reads_trans None s s1); [apply (IHs s value s1 Ev)|].
      apply (reads_trans None s1 (skip_ws s1)); [apply reads_skip_ws|].
      destruct (skip_ws s1) as [|d s2]; [discriminate H|].
      destruct (d =? rbracket)%N eqn:Er.
      { injection H as _ <-. apply N.eqb_eq in Er. subst d.
        apply reads_single. reflexivity. }
      destruct (d =? comma)%N eqn:Em; [|discriminate H].
      apply N.eqb_eq in Em. subst d.
      apply (reads_trans None _ s2); [apply reads_single; reflexivity|].
      apply (reads_trans None s2 (skip_ws s2)); [apply reads_skip_ws|].
      apply (IHa _ _ v r H).
Qed.

(** In a text that [json.loads] accepts, a backtick or a citation bracket
    is never the first or the last character of a line. *)
Lemma json_loads_guarded :
  forall s v, json_loads s = Some v -> guarded string_only None s = true.
Proof.
  intros s v H. unfold json_loads in H.
  destruct (scan_once (S (List.length s)) (skip_ws s)) as [[v' rest]|] eqn:E;
    [|discriminate H].
  destruct (skip_ws rest) as [|x y] eqn:Er; [|discriminate H].
  assert (R : reads None s []).
  { apply (reads_trans None s (skip_ws s)); [apply reads_skip_ws|].
    apply (reads_trans None _ rest).
    - apply (proj1 (scan_reads _) _ v' rest E).
    - rewrite <- Er. apply reads_skip_ws. }
  destruct R as [pre [-> Hg]]. rewrite app_nil_r. exact Hg.
Qed.

(** ** A citation marker inside a JSON object *)

Lemma sub_cite_prefix :
  forall a rest,
    has cite_open a = false ->
    sub_empty cite_re (a ++ rest) = a ++ sub_empty cite_re rest.
Proof.
  induction a as [|c a IH]; intros rest H; [reflexivity|].
  unfold has in H. cbn [existsb] in H. apply orb_false_iff in H.
  destruct H as [Hc Ha]. cbn [app].
  rewrite sub_cite_keep by (left; exact Hc). rewrite (IH rest Ha). reflexivity.
Qed.

Lemma string_only_backtick :
  forall c, is_backtick c = true -> string_only c = true.
Proof.
  intros c H. unfold is_backtick in H. unfold string_only. rewrite H. reflexivity.
Qed.

Lemma trimmed_ends :
  forall c mid l,
    is_space c = false -> is_space l = false -> trimmed (c :: mid ++ [l]) = true.
Proof.
  intros c mid l Hc Hl. unfold trimmed.
  change (c :: mid ++ [l]) with ((c :: mid) ++ [l]). rewrite rev_app_distr.
  cbn [rev app]. rewrite Hc, Hl. reflexivity.
Qed.

(** A text with a marker put into an object, seen from both ends. *)
Lemma marked_ends :
  forall J1 J2 m mk,
    J1 ++ J2 = lbrace :: m ++ [rbrace] ->
    exists c mid l,
      J1 ++ cite_open :: mk ++ cite_close :: J2 = c :: mid ++ [l] /\
      is_space c = false /\ is_space l = false.
Proof.
  intros J1 J2 m mk H.
  assert (Hfirst : exists c t, J1 ++ cite_open :: mk ++ cite_close :: J2 = c :: t
                               /\ is_space c = false).
  { destruct J1 as [|c J1].
    - exists cite_open, (mk ++ cite_close :: J2). split; reflexivity.
    - cbn [app] in H. injection H as -> _.
      exists lbrace, (J1 ++ cite_open :: mk ++ cite_close :: J2).
      split; reflexivity. }
  assert (Hlast : exists i l, J1 ++ cite_open :: mk ++ cite_close :: J2 = i ++ [l]
                              /\ is_space l = false).
  { destruct (rev J2) as [|l r] eqn:E.
    - assert (J2 = []) as ->.
      { rewrite <- (rev_involutive J2), E. reflexivity. }
      exists (J1 ++ cite_open :: mk), cite_close. split; [|reflexivity].
      rewrite <- app_assoc. reflexivity.
    - assert (HJ2 : J2 = rev r ++ [l]).
      { rewrite <- (rev_involutive J2), E. reflexivity. }
      assert (l = rbrace) as ->.
      { rewrite HJ2 in H.
        change (lbrace :: m ++ [rbrace]) with ((lbrace :: m) ++ [rbrace]) in H.
        rewrite app_assoc in H. apply app_inj_tail in H. destruct H as [_ H].
        exact H. }
      exists (J1 ++ cite_open :: mk ++ cite_close :: rev r), rbrace.
      split; [|reflexivity]. rewrite HJ2, <- app_assoc. cbn [app].
      rewrite <- app_assoc. reflexivity. }
  destruct Hfirst as [c [t [Hc Hsc]]]. destruct Hlast as [i [l [Hl Hsl]]].
  destruct i as [|c' i].
  - rewrite Hl in Hc. destruct J1; cbn [app] in Hl.
    + destruct mk; discriminate Hl.
    + injection Hl as _ Hl. destruct J1; discriminate Hl.
  - exists c, i, l. rewrite Hl in Hc. cbn [app] in Hc. injection Hc as -> _.
    rewrite Hl. auto.
Qed.

Lemma marker_removed :
  forall pad1 J1 mk J2 pad2 m v,
    forallb is_space pad1 = true ->
    forallb is_space pad2 = true ->
    J1 ++ J2 = lbrace :: m ++ [rbrace] ->
    json_loads (J1 ++ J2) = Some v ->
    has cite_open (J1 ++ J2) = false ->
    has cite_close mk = false ->
    has nl mk = false ->
    sanitize (pad1 ++ (J1 ++ cite_open :: mk ++ cite_close :: J2) ++ pad2)
    = J1 ++ J2.
Proof.
  intros pad1 J1 mk J2 pad2 m v Hp1 Hp2 Hobj Hv Ho Hc Hn.
  unfold sanitize.
  destruct (marked_ends J1 J2 m mk Hobj) as [c [mid [l [Hends [Hsc Hsl]]]]].
  rewrite strip_padded; try assumption;
    [|rewrite Hends; apply trimmed_ends; assumption].
  assert (Hg : guarded is_backtick None
                 (J1 ++ cite_open :: mk ++ cite_close :: J2) = true).
  { apply guarded_insert; try reflexivity; [|exact Hn].
    apply (guarded_weaken string_only is_backtick);
      [exact string_only_backtick|].
    apply (json_loads_guarded _ v Hv). }
  unfold sub_empty at 2.
  change true with (bol_of None) at 1. rewrite (sub_fence_guarded _ None Hg).
  rewrite has_app in Ho. apply orb_false_iff in Ho. destruct Ho as [Ho1 Ho2].
  rewrite (sub_cite_prefix J1 _ Ho1), (sub_cite_marker mk J2 Hc Hn).
  rewrite (sub_cite_id J2 (search_cite_no_open J2 Ho2)).
  rewrite Hobj.
  pose proof (search_brace_span [] m [] eq_refl eq_refl) as Hsp.
  cbn [app] in Hsp. rewrite Hsp. reflexivity.
Qed.

(** A citation marker put anywhere into the text of a JSON object, also
    inside one of its strings, is removed, and the object comes out as it
    was, so that it parses to the same value.  The object has no opening
    citation bracket of its own, and the marker is on one line and has no
    closing bracket inside; white space around the text is dropped. *)
Theorem sanitize_removes_marker :
  forall pad1 J1 mk J2 pad2 m v,
    forallb is_space pad1 = true ->
    forallb is_space pad2 = true ->
    J1 ++ J2 = lbrace :: m ++ [rbrace] ->
    json_loads (J1 ++ J2) = Some v ->
    has cite_open (J1 ++ J2) = false ->
    has cite_close mk = false ->
    has nl mk = false ->
    sanitize (pad1 ++ (J1 ++ cite_open :: mk ++ cite_close :: J2) ++ pad2)
    = J1 ++ J2
    /\ json_loads
         (sanitize (pad1 ++ (J1 ++ cite_open :: mk ++ cite_close :: J2) ++ pad2))
       = Some v.
Proof.
  intros pad1 J1 mk J2 pad2 m v Hp1 Hp2 Hobj Hv Ho Hc Hn.
  pose proof (marker_removed pad1 J1 mk J2 pad2 m v Hp1 Hp2 Hobj Hv Ho Hc Hn)
    as Hs.
  split; [exact Hs|]. rewrite Hs. exact Hv.
Qed.

Lemma sanitize_removes_marker_witness :
  sanitize ([nl] ++ (pyq "{'a': 'x" ++ cite_open :: py "4:0" ++ cite_close :: pyq "`y'}")
              ++ [32%N])
  = pyq "{'a': 'x" ++ pyq "`y'}"
  /\ json_loads
       (sanitize ([nl] ++ (pyq "{'a': 'x" ++ cite_open :: py "4:0"
                             ++ cite_close :: pyq "`y'}") ++ [32%N]))
     = Some (JObj [(pyq "a", JStr (py "x`y"))]).
Proof.
  apply (sanitize_removes_marker [nl] (pyq "{'a': 'x") (py "4:0") (pyq "`y'}")
           [32%N] (pyq "'a': 'x`y'"));
    reflexivity.
Defined.

(** ** The shape of a JSON text *)

Lemma json_ws_space : forall c, is_json_ws c = true -> is_space c = true.
Proof.
  intros c H. unfold is_json_ws in H.
  repeat rewrite ?orb_true_iff, ?N.eqb_eq in H.
  destruct H as [[[-> | ->] | ->] | ->]; reflexivity.
Qed.

Lemma reads_then_ends :
  forall prev s r1 c r,
    reads prev s r1 ->
    (exists p, r1 = p ++ c :: r) ->
    exists p, s = p ++ c :: r.
Proof.
  intros prev s r1 c r [pre [-> _]] [p ->]. exists (pre ++ p).
  rewrite app_assoc. reflexivity.
Qed.

(** The members of an object are read up to its closing brace. *)
Lemma object_members_ends :
  forall n s pairs v r,
    object_members n s pairs = Some (v, r) -> exists p, s = p ++ rbrace :: r.
Proof.
  induction n as [|n IH]; intros s pairs v r H; [discriminate H|].
  cbn [object_members] in H.
  destruct (scanstring s) as [[key s1]|] eqn:Es; [|discriminate H].
  apply (reads_then_ends (Some dquote) s s1); [apply (reads_string s key s1 Es)|].
  apply (reads_then_ends None s1 (skip_ws s1)); [apply reads_skip_ws|].
  destruct (skip_ws s1) as [|c s2]; [discriminate H|].
  destruct (c =? colon)%N eqn:Ec; [|discriminate H].
  apply N.eqb_eq in Ec. subst c.
  apply (reads_then_ends None _ s2); [apply reads_single; reflexivity|].
  apply (reads_then_ends None s2 (skip_ws s2)); [apply reads_skip_ws|].
  destruct (scan_once n (skip_ws s2)) as [[value s3]|] eqn:Ev; [|discriminate H].
  apply (reads_then_ends None _ s3);
    [apply (proj1 (scan_reads n) _ value s3 Ev)|].
  apply (reads_then_ends None s3 (skip_ws s3)); [apply reads_skip_ws|].
  destruct (skip_ws s3) as [|d s4]; [discriminate H|].
  destruct (d =? rbrace)%N eqn:Er.
  { injection H as _ <-. apply N.eqb_eq in Er. subst d. exists []. reflexivity. }
  destruct (d =? comma)%N eqn:Em; [|discriminate H].
  apply N.eqb_eq in Em. subst d.
  apply (reads_then_ends None _ s4); [apply reads_single; reflexivity|].
  apply (reads_then_ends None s4 (skip_ws s4)); [apply reads_skip_ws|].
  destruct (skip_ws s4) as [|q s5]; [discriminate H|].
  destruct (q =? dquote)%N eqn:Eq; [|discriminate H].
  apply N.eqb_eq in Eq. subst q.
  apply (reads_then_ends None _ s5); [apply reads_single; reflexivity|].
  apply (IH s5 _ v r H).
Qed.

(** The items of an array are read up to its closing bracket. *)
Lemma array_items_ends :
  forall n s values v r,
    array_items n s values = Some (v, r) -> exists p, s = p ++ rbracket :: r.
Proof.
  induction n as [|n IH]; intros s values v r H; [discriminate H|].
  cbn [array_items] in H.
  destruct (scan_once n s) as [[value s1]|] eqn:Ev; [|discriminate H].
  apply (reads_then_ends None s s1); [apply (proj1 (scan_reads n) s value s1 Ev)|].
  apply (reads_then_ends None s1 (skip_ws s1)); [apply reads_skip_ws|].
  destruct (skip_ws s1) as [|d s2]; [discriminate H|].
  destruct (d =? rbracket)%N eqn:Er.
  { injection H as _ <-. apply N.eqb_eq in Er. subst d. exists []. reflexivity. }
  destruct (d =? comma)%N eqn:Em; [|discriminate H].
  apply N.eqb_eq in Em. subst d.
  apply (reads_then_ends None _ s2); [apply reads_single; reflexivity|].
  apply (reads_then_ends None s2 (skip_ws s2)); [apply reads_skip_ws|].
  apply (IH _ _ v r H).
Qed.

Lemma trimmed_all :
  forall s,
    s <> [] -> forallb (fun c => negb (is_space c)) s = true -> trimmed s = true.
Proof.
  intros s Hne H. unfold trimmed. apply andb_true_iff. split.
  - destruct s as [|c t]; [congruence|]. cbn [forallb] in H.
    apply andb_true_iff in H. apply H.
  - rewrite <- forallb_rev in H. destruct (rev s) as [|l r] eqn:E.
    + exfalso. apply Hne. rewrite <- (rev_involutive s), E. reflexivity.
    + cbn [forallb] in H. apply andb_true_iff in H. apply H.
Qed.

(** A JSON value is read from a text that begins and ends with a character
    that is no white space. *)
Lemma scan_once_trimmed :
  forall n s v r,
    scan_once n s = Some (v, r) -> exists pre, s = pre ++ r /\ trimmed pre = true.
Proof.
  intros n s v r H. destruct n as [|n]; [discriminate H|].
  cbn [scan_once] in H. destruct s as [|c t]; [discriminate H|].
  assert (Hclosed : forall o cl,
             is_space o = false -> is_space cl = false ->
             (exists p, t = p ++ cl :: r) ->
             exists pre, o :: t = pre ++ r /\ trimmed pre = true).
  { intros o cl Ho Hcl [p ->]. exists (o :: p ++ [cl]). split.
    - cbn [app]. rewrite <- app_assoc. reflexivity.
    - apply trimmed_ends; assumption. }
  destruct (c =? dquote)%N eqn:Eq.
  { apply N.eqb_eq in Eq. subst c.
    destruct (scanstring t) as [[str rest]|] eqn:Es; [|discriminate H].
    injection H as _ <-.
    destruct (scanstring_consumed t str rest Es) as [body [Ht _]].
    apply (Hclosed dquote dquote); try reflexivity. exists body. exact Ht. }
  destruct (c =? lbrace)%N eqn:Eb.
  { apply N.eqb_eq in Eb. subst c.
    apply (Hclosed lbrace rbrace); try reflexivity.
    apply (reads_then_ends None t (skip_ws t)); [apply reads_skip_ws|].
    destruct (skip_ws t) as [|d t1]; [discriminate H|].
    destruct (d =? rbrace)%N eqn:Er.
    - injection H as _ <-. apply N.eqb_eq in Er. subst d. exists []. reflexivity.
    - destruct (d =? dquote)%N eqn:Ed; [|discriminate H].
      apply N.eqb_eq in Ed. subst d.
      apply (reads_then_ends None _ t1); [apply reads_single; reflexivity|].
      apply (object_members_ends n t1 [] v r H). }
  destruct (c =? lbracket)%N eqn:Ek.
  { apply N.eqb_eq in Ek. subst c.
    apply (Hclosed lbracket rbracket); try reflexivity.
    apply (reads_then_ends None t (skip_ws t)); [apply reads_skip_ws|].
    destruct (skip_ws t) as [|d t1]; [discriminate H|].
    destruct (d =? rbracket)%N eqn:Er.
    - injection H as _ <-. apply N.eqb_eq in Er. subst d. exists []. reflexivity.
    - apply (array_items_ends n (d :: t1) [] v r H). }
  destruct (scan_constant_consumed (c :: t) v r H) as [pre [Hs [Hne Hp]]].
  exists pre. split; [exact Hs|]. apply trimmed_all; [exact Hne|].
  apply (forallb_impl constant_char); [|exact Hp].
  intros x Hx. rewrite (constant_char_not_space x Hx). reflexivity.
Qed.

(** A text that [json.loads] accepts is a value with white space around
    it; the value begins and ends with a character that is no white space,
    and a backtick or a citation bracket is never the first or the last
    character of one of its lines. *)
Lemma json_text_shape :
  forall x v,
    json_loads x = Some v ->
    exists ws1 core ws2,
      x = ws1 ++ core ++ ws2 /\
      forallb is_space ws1 = true /\ forallb is_space ws2 = true /\
      trimmed core = true /\ guarded string_only None core = true.
Proof.
  intros x v H. unfold json_loads in H.
  destruct (scan_once (S (List.length x)) (skip_ws x)) as [[v' rest]|] eqn:E;
    [|discriminate H].
  destruct (skip_ws rest) as [|a b] eqn:Er; [|discriminate H].
  destruct (skip_ws_split x) as [ws1 [Hx H1]].
  destruct (skip_ws_split rest) as [ws2 [Hrest H2]].
  rewrite Er, app_nil_r in Hrest. subst rest.
  destruct (proj1 (scan_reads _) _ v' ws2 E) as [core [Hc Hg]].
  destruct (scan_once_trimmed _ _ v' ws2 E) as [core' [Hc' Ht]].
  assert (core' = core) as ->.
  { rewrite Hc in Hc'. apply app_inv_tail in Hc'. symmetry. exact Hc'. }
  exists ws1, core, ws2. split; [rewrite <- Hc; exact Hx|].
  repeat split; try assumption.
  - apply (forallb_impl is_json_ws); [exact json_ws_space|exact H1].
  - apply (forallb_impl is_json_ws); [exact json_ws_space|exact H2].
Qed.

(** ** The sanitizer on a JSON text *)

Lemma guarded_suffix :
  forall P a b prev,
    guarded P prev (a ++ b) = true -> exists prev', guarded P prev' b = true.
Proof.
  intros P a. induction a as [|c a IH]; intros b prev H.
  - exists prev. exact H.
  - cbn [app guarded] in H. apply andb_true_iff in H. destruct H as [_ H].
    apply (IH b (Some c) H).
Qed.

Lemma guarded_from :
  forall P a c t prev,
    guarded P prev (a ++ c :: t) = true -> P c = false ->
    guarded P None (c :: t) = true.
Proof.
  intros P a c t prev H Hc. destruct (guarded_suffix P a (c :: t) prev H) as [q Hq].
  cbn [guarded] in *. rewrite Hc in *. exact Hq.
Qed.

Lemma guarded_upto :
  forall P s l b prev,
    guarded P prev (s ++ l :: b) = true -> P l = false ->
    guarded P prev (s ++ [l]) = true.
Proof.
  intros P s. induction s as [|c s IH]; intros l b prev H Hl.
  - cbn [app guarded]. rewrite Hl. reflexivity.
  - cbn [app guarded] in *. apply andb_true_iff in H. destruct H as [Hc H].
    rewrite (IH l b (Some c) H Hl), andb_true_r.
    destruct s as [|d s]; exact Hc.
Qed.

Lemma guarded_last :
  forall P i l prev, guarded P prev (i ++ [l]) = true -> P l = false.
Proof.
  intros P i. induction i as [|c i IH]; intros l prev H.
  - cbn [app guarded] in H. destruct (P l); [|reflexivity].
    rewrite andb_false_r in H. discriminate H.
  - cbn [app guarded] in H. apply andb_true_iff in H. destruct H as [_ H].
    apply (IH l (Some c) H).
Qed.

(** After a guarded text has lost its markers, it still begins on the line
    it began on. *)
Lemma sub_cite_head :
  forall s prev,
    guarded string_only prev s = true ->
    at_eol s = false ->
    at_eol (sub_empty cite_re s) = false.
Proof.
  intro s. pattern s. apply sub_cite_ind; clear s.
  - intros prev _ H. discriminate H.
  - intros c t Hk _ prev _ H. rewrite (sub_cite_keep c t Hk). exact H.
  - intros m rest Hc Hn IH prev Hg _. rewrite (sub_cite_marker m rest Hc Hn).
    change (cite_open :: m ++ cite_close :: rest)
      with ((cite_open :: m) ++ cite_close :: rest) in Hg.
    destruct (guarded_suffix _ _ _ _ Hg) as [q Hq].
    cbn [guarded] in Hq. change (string_only cite_close) with true in Hq.
    apply andb_true_iff in Hq. destruct Hq as [Hq Hr].
    apply andb_true_iff in Hq. destruct Hq as [_ Hq].
    apply (IH (Some cite_close) Hr).
    destruct rest as [|d rest]; [discriminate Hq|].
    cbn [at_eol]. apply negb_true_iff. exact Hq.
Qed.

(** Removing the markers of a guarded text puts no backtick at the start or
    at the end of a line. *)
Lemma sub_cite_guarded :
  forall s prev,
    guarded string_only prev s = true ->
    guarded is_backtick prev (sub_empty cite_re s) = true.
Proof.
  intro s. pattern s. apply sub_cite_ind; clear s.
  - reflexivity.
  - intros c t Hk IH prev Hg. rewrite (sub_cite_keep c t Hk).
    cbn [guarded] in *. apply andb_true_iff in Hg. destruct Hg as [Hc Ht].
    apply andb_true_iff. split; [|apply (IH (Some c) Ht)].
    destruct (is_backtick c) eqn:Eb; [|reflexivity].
    rewrite (string_only_backtick c Eb) in Hc.
    apply andb_true_iff in Hc. destruct Hc as [Hp Hn]. rewrite Hp. cbn [andb].
    assert (He : at_eol (sub_empty cite_re t) = false).
    { apply (sub_cite_head t (Some c) Ht).
      destruct t as [|d t]; [discriminate Hn|].
      cbn [at_eol]. apply negb_true_iff. exact Hn. }
    destruct (sub_empty cite_re t) as [|e r]; [discriminate He|].
    cbn [at_eol] in He. rewrite He. reflexivity.
  - intros m rest Hc Hn IH prev Hg. rewrite (sub_cite_marker m rest Hc Hn).
    assert (Hprev : exists p, prev = Some p /\ is_nl p = false).
    { cbn [guarded] in Hg. change (string_only cite_open) with true in Hg.
      apply andb_true_iff in Hg. destruct Hg as [Hg _].
      apply andb_true_iff in Hg. destruct Hg as [Hg _].
      destruct prev as [p|]; [|discriminate Hg].
      exists p. split; [reflexivity|]. apply negb_true_iff. exact Hg. }
    destruct Hprev as [p [-> Hp]].
    replace (cite_open :: m ++ cite_close :: rest)
      with ((cite_open :: m ++ [cite_close]) ++ rest) in Hg
      by (cbn [app]; rewrite <- app_assoc; reflexivity).
    destruct (guarded_suffix _ _ _ _ Hg) as [q Hq].
    apply (guarded_change_prev is_backtick _ q p (IH q Hq) Hp).
Qed.

Lemma sub_cite_last :
  forall s i l,
    s = i ++ [l] -> (cite_close =? l)%N = false ->
    exists r, sub_empty cite_re s = r ++ [l].
Proof.
  intro s. pattern s. apply sub_cite_ind; clear s.
  - intros i l H. destruct i; discriminate H.
  - intros c t Hk IH i l H Hl. rewrite (sub_cite_keep c t Hk).
    destruct i as [|c' i]; cbn [app] in H.
    + injection H as Hcl Ht. subst c t. exists []. reflexivity.
    + injection H as Hcc Ht. subst c' t. destruct (IH i l eq_refl Hl) as [r ->].
      exists (c :: r). reflexivity.
  - intros m rest Hc Hn IH i l H Hl. rewrite (sub_cite_marker m rest Hc Hn).
    destruct (rev rest) as [|x y] eqn:E.
    + assert (rest = []) as ->
        by (rewrite <- (rev_involutive rest), E; reflexivity).
      change (cite_open :: m ++ [cite_close])
        with ((cite_open :: m) ++ [cite_close]) in H.
      apply app_inj_tail in H. destruct H as [_ <-].
      rewrite N.eqb_refl in Hl. discriminate Hl.
    + assert (Hr : rest = rev y ++ [x])
        by (rewrite <- (rev_involutive rest), E; reflexivity).
      rewrite Hr in H.
      replace (cite_open :: m ++ cite_close :: rev y ++ [x])
        with ((cite_open :: m ++ cite_close :: rev y) ++ [x]) in H
        by (cbn [app]; rewrite <- app_assoc; reflexivity).
      apply app_inj_tail in H. destruct H as [_ <-].
      apply (IH (rev y) x Hr Hl).
Qed.

Lemma trimmed_intro :
  forall s c t i l,
    s = c :: t -> s = i ++ [l] ->
    is_space c = false -> is_space l = false -> trimmed s = true.
Proof.
  intros s c t i l E1 E2 Hc Hl. unfold trimmed. apply andb_true_iff. split.
  - rewrite E1, Hc. reflexivity.
  - rewrite E2, rev_app_distr. cbn [rev app]. rewrite Hl. reflexivity.
Qed.

Lemma sub_cite_trimmed :
  forall s,
    trimmed s = true -> guarded string_only None s = true ->
    trimmed (sub_empty cite_re s) = true.
Proof.
  intros s Ht Hg. destruct (trimmed_last s Ht) as [Hne Hl].
  destruct (exists_last Hne) as [i [l Hs]].
  rewrite Hs, last_last in Hl.
  assert (Hcl : (cite_close =? l)%N = false).
  { pose proof Hg as Hg'. rewrite Hs in Hg'. apply guarded_last in Hg'.
    destruct (cite_close =? l)%N eqn:E; [|reflexivity].
    apply N.eqb_eq in E. subst l. vm_compute in Hg'. discriminate Hg'. }
  destruct (sub_cite_last s i l Hs Hcl) as [r Hr].
  destruct s as [|c t]; [congruence|].
  assert (Hc : is_space c = false).
  { unfold trimmed in Ht. apply andb_true_iff in Ht. destruct Ht as [Ht _].
    apply negb_true_iff in Ht. exact Ht. }
  assert (Hoc : (cite_open =? c)%N = false).
  { cbn [guarded] in Hg. destruct (cite_open =? c)%N eqn:E; [|reflexivity].
    apply N.eqb_eq in E. subst c. discriminate Hg. }
  apply (trimmed_intro _ c (sub_empty cite_re t) r l).
  - apply sub_cite_keep. left. exact Hoc.
  - exact Hr.
  - exact Hc.
  - exact Hl.
Qed.

(** The first step and the white-space trimming leave a trimmed text
    without a backtick at the start or at the end of a line as it is. *)
Lemma sanitize_trimmed :
  forall s,
    trimmed s = true -> guarded is_backtick None s = true ->
    sanitize s
    = match search brace_re (sub_empty cite_re s) with
      | Some m => m
      | None => sub_empty cite_re s
      end.
Proof.
  intros s Ht Hg. unfold sanitize. rewrite (strip_trimmed s Ht).
  unfold sub_empty at 2 4. change true with (bol_of None).
  rewrite (sub_fence_guarded s None Hg). reflexivity.
Qed.

Lemma sanitize_padded :
  forall ws1 core ws2,
    forallb is_space ws1 = true -> forallb is_space ws2 = true ->
    trimmed core = true ->
    sanitize (ws1 ++ core ++ ws2) = sanitize core.
Proof.
  intros ws1 core ws2 H1 H2 Ht. unfold sanitize.
  rewrite (strip_padded ws1 core ws2 H1 H2 Ht), (strip_trimmed core Ht).
  reflexivity.
Qed.

(** What the sanitizer gives for a trimmed text in which the backtick and
    the citation brackets stay inside the lines is a text it leaves as it
    is. *)
Lemma sanitize_fixed_point :
  forall core,
    trimmed core = true -> guarded string_only None core = true ->
    sanitize (sanitize core) = sanitize core.
Proof.
  intros core Ht Hg.
  pose proof (sub_cite_guarded core None Hg) as Hg2.
  pose proof (sub_cite_trimmed core Ht Hg) as Ht2.
  pose proof (sub_cite_leaves_no_marker core) as Hn2.
  rewrite (sanitize_trimmed core Ht
             (guarded_weaken string_only is_backtick core None
                string_only_backtick Hg)).
  set (c2 := sub_empty cite_re core) in *.
  destruct (search brace_re c2) as [sp|] eqn:Es.
  - destruct (search_brace_some c2 sp Es) as [a [m [b [Hc2 [Hsp [Ha Hb]]]]]].
    assert (Hgs : guarded is_backtick None sp = true).
    { rewrite Hc2, Hsp in Hg2. cbn [app] in Hg2. rewrite <- app_assoc in Hg2.
      apply guarded_from in Hg2; [|reflexivity].
      change (lbrace :: m ++ [rbrace] ++ b)
        with ((lbrace :: m) ++ rbrace :: b) in Hg2.
      apply guarded_upto in Hg2; [|reflexivity].
      rewrite Hsp. exact Hg2. }
    assert (Hts : trimmed sp = true)
      by (rewrite Hsp; apply trimmed_ends; reflexivity).
    assert (Hns : search cite_re sp = None).
    { rewrite Hc2 in Hn2. apply search_cite_none_suffix in Hn2.
      apply search_cite_none_prefix in Hn2. exact Hn2. }
    rewrite (sanitize_trimmed sp Hts Hgs), (sub_cite_id sp Hns).
    rewrite Hsp.
    pose proof (search_brace_span [] m [] eq_refl eq_refl) as Hspan.
    cbn [app] in Hspan. rewrite Hspan. reflexivity.
  - rewrite (sanitize_trimmed c2 Ht2 Hg2), (sub_cite_id c2 Hn2), Es.
    reflexivity.
Qed.

Lemma sanitize_twice_on_json :
  forall x v, json_loads x = Some v -> sanitize (sanitize x) = sanitize x.
Proof.
  intros x v H.
  destruct (json_text_shape x v H) as [ws1 [core [ws2 [-> [H1 [H2 [Ht Hg]]]]]]].
  rewrite (sanitize_padded ws1 core ws2 H1 H2 Ht).
  apply (sanitize_fixed_point core Ht Hg).
Qed.

(** On a JSON text the sanitizer is idempotent: for every text that
    [json.loads] accepts, with any backticks, citation brackets and braces
    in its strings, sanitizing what the sanitizer returned changes nothing. *)
Theorem sanitize_idempotent_on_json :
  forall x v, json_loads x = Some v -> sanitize (sanitize x) = sanitize x.
Proof.
  intros x v H. apply (sanitize_twice_on_json x v H).
Qed.

Lemma sanitize_idempotent_on_json_witness :
  sanitize (sanitize (pyq " ['{`', '" ++ cite_open :: pyq "a" ++ cite_close :: pyq "}', 1] "))
  = sanitize (pyq " ['{`', '" ++ cite_open :: pyq "a" ++ cite_close :: pyq "}', 1] ").
Proof.
  apply (sanitize_idempotent_on_json
           (pyq " ['{`', '" ++ cite_open :: pyq "a" ++ cite_close :: pyq "}', 1] ")
           (JArr [JStr (py "{`"); JStr (cite_open :: py "a" ++ cite_close :: py "}");
                  JInt (py "1")])).
  reflexivity.
Defined.

(** * app/services/law_advisor.py *)

Ltac run_labor := unfold analyze_labor_contract, labor_try; run_analyze.

(** The engine calls of one labour analysis are an initial part of the
    pipeline (open, upload, thread, run, retrieval) with the fixed
    instructions, the id of the uploaded file and the configured assistant
    id; the uploaded file is deleted, as the last call, exactly when the
    file opened and the upload returned, also when a later call raises. *)
Theorem analyze_labor_contract_calls :
  forall genv en file_path st assistant_id,
    genv (py "ASSISTANT_ID") = Some assistant_id ->
    assistant_id <> [] ->
    exists fid tid n del,
      trace (snd (analyze_labor_contract genv en file_path st))
      = trace st
        ++ firstn n (pipeline file_path labor_instructions assistant_id fid tid)
        ++ del /\
      1 <= n /\
      ((open_rb en file_path = None /\ files_create en file_path = inr fid /\
        del = [EFilesDelete fid] /\ 2 <= n) \/
       ((open_rb en file_path <> None \/
         exists e, files_create en file_path = inl e) /\
        del = [] /\ n <= 2)).
Proof.
  intros genv en file_path st a Hg Hne.
  unfold analyze_labor_contract. rewrite Hg.
  destruct a as [|c id]; [congruence|].
  unfold labor_try, pipeline. run_analyze; repeat rewrite <- app_assoc; cbn [app].
  all: try match goal with
           | H : files_create _ _ = inr ?f |- _ =>
               match goal with
               | H2 : threads_create _ _ _ = inr ?t |- _ =>
                   exists f, t
               | _ => exists f, (@nil codepoint)
               end
           | _ => exists (@nil codepoint), (@nil codepoint)
           end.
  all: first
         [ exists 1, (@nil event); cbn [firstn app];
           split; [reflexivity|]; split; [lia|]; right;
           split; [left; discriminate|]; split; [reflexivity|lia]
         | exists 2, (@nil event); cbn [firstn app];
           split; [reflexivity|]; split; [lia|]; right;
           split; [right; eauto|]; split; [reflexivity|lia]
         | exists 2; eexists; cbn [firstn app];
           split; [reflexivity|]; split; [lia|]; left;
           split; [reflexivity|]; split; [reflexivity|];
           split; [reflexivity|lia]
         | exists 3; eexists; cbn [firstn app];
           split; [reflexivity|]; split; [lia|]; left;
           split; [reflexivity|]; split; [reflexivity|];
           split; [reflexivity|lia]
         | exists 4; eexists; cbn [firstn app];
           split; [reflexivity|]; split; [lia|]; left;
           split; [reflexivity|]; split; [reflexivity|];
           split; [reflexivity|lia]
         | exists 5; eexists; cbn [firstn app];
           split; [reflexivity|]; split; [lia|]; left;
           split; [reflexivity|]; split; [reflexivity|];
           split; [reflexivity|lia] ].
Qed.

Lemma analyze_labor_contract_calls_witness :
  exists fid tid n del,
    trace (snd (analyze_labor_contract labor_env
                  (demo_engine (py "failed") []) (py "f.pdf") initial))
    = firstn n (pipeline (py "f.pdf") labor_instructions (py "asst_labor") fid tid)
      ++ del /\
    del = [EFilesDelete fid].
Proof.
  destruct (analyze_labor_contract_calls labor_env (demo_engine (py "failed") [])
              (py "f.pdf") initial (py "asst_labor") eq_refl
              ltac:(discriminate))
    as [fid [tid [n [del [H [_ [[_ [_ [Hd _]]]|[[Ho|[e He]] _]]]]]]]].
  - exists fid, tid, n, del. split; [exact H|exact Hd].
  - exfalso. apply Ho. reflexivity.
  - discriminate He.
Defined.

(** End to end: with the assistant configured, every call returning and
    the run completed, a response that is a fenced block labelled json is
    returned without its fences and the white space next to them, when the
    text between has no backtick; the uploaded file has been deleted. *)
Theorem analyze_labor_contract_fenced_reply :
  forall genv en file_path st assistant_id fid tid status ws1 body ws2,
    genv (py "ASSISTANT_ID") = Some assistant_id ->
    assistant_id <> [] ->
    open_rb en file_path = None ->
    files_create en file_path = inr fid ->
    threads_create en labor_instructions fid = inr tid ->
    runs_create_and_poll en tid assistant_id = inr status ->
    str_eqb status (py "completed") = true ->
    messages_first_text en tid
    = inr (py "```json" ++ ws1 ++ body ++ ws2 ++ py "```") ->
    forallb is_space ws1 = true ->
    forallb is_space ws2 = true ->
    has backtick body = false ->
    trimmed body = true ->
    fst (analyze_labor_contract genv en file_path st) = Value body /\
    trace (snd (analyze_labor_contract genv en file_path st))
    = trace st
      ++ pipeline file_path labor_instructions assistant_id fid tid
      ++ [EFilesDelete fid].
Proof.
  intros genv en file_path st a fid tid status ws1 body ws2
    Hg Hne Ho Hc Ht Hr Hs Hm H1 H2 Hb Htr.
  unfold analyze_labor_contract. rewrite Hg.
  destruct a as [|c id]; [congruence|].
  unfold labor_try, pipeline. monad_step.
  rewrite Ho. monad_step. rewrite Hc. monad_step. rewrite Ht. monad_step.
  rewrite Hr. monad_step. rewrite Hs. monad_step. rewrite Hm. monad_step.
  rewrite (fenced_block_unfenced ws1 body ws2 H1 H2 Hb Htr).
  destruct (files_delete en fid); monad_step;
    repeat rewrite <- app_assoc; cbn [app]; split; reflexivity.
Qed.

Lemma analyze_labor_contract_fenced_reply_witness :
  fst (analyze_labor_contract labor_env
         (demo_engine (py "completed")
            (py "```json" ++ [nl] ++ pyq "{'a': 1}" ++ [nl] ++ py "```"))
         (py "f.pdf") initial)
  = Value (pyq "{'a': 1}") /\
  trace (snd (analyze_labor_contract labor_env
                (demo_engine (py "completed")
                   (py "```json" ++ [nl] ++ pyq "{'a': 1}" ++ [nl] ++ py "```"))
                (py "f.pdf") initial))
  = trace initial
    ++ pipeline (py "f.pdf") labor_instructions (py "asst_labor")
         (py "file-1") (py "thread_1")
    ++ [EFilesDelete (py "file-1")].
Proof.
  apply (analyze_labor_contract_fenced_reply labor_env
           (demo_engine (py "completed")
              (py "```json" ++ [nl] ++ pyq "{'a': 1}" ++ [nl] ++ py "```"))
           (py "f.pdf") initial (py "asst_labor") (py "file-1") (py "thread_1")
           (py "completed") [nl] (pyq "{'a': 1}") [nl]);
    solve [reflexivity | discriminate].
Defined.

(** * An engine failure through [_process_analysis] *)

Lemma scanstring_plain_closed :
  forall a rest,
    forallb plain_char a = true ->
    scanstring (a ++ dquote :: rest) = Some (a, rest).
Proof.
  intros a rest H. rewrite (scanstring_plain a _ H).
  change (scanstring (dquote :: rest)) with (Some (@nil codepoint, rest)).
  cbv beta iota. rewrite app_nil_r. reflexivity.
Qed.

(** One member whose value is a string, followed by another member. *)
Lemma object_members_string_comma :
  forall f key s1 value s2 pairs,
    scanstring s1 = Some (value, comma :: 32%N :: dquote :: s2) ->
    forall s,
      scanstring s = Some (key, colon :: 32%N :: dquote :: s1) ->
      object_members (S (S f)) s pairs
      = object_members (S f) s2 (pairs ++ [(key, JStr value)]).
Proof.
  intros f key s1 value s2 pairs Hv s Hk.
  rewrite object_members_unfold.
  rewrite Hk.
  change (skip_ws (colon :: 32%N :: dquote :: s1)) with (colon :: 32%N :: dquote :: s1).
  change (colon =? colon)%N with true. cbv iota.
  change (skip_ws (32%N :: dquote :: s1)) with (dquote :: s1).
  rewrite scan_once_string, Hv.
  reflexivity.
Qed.

Lemma json_loads_two_strings :
  forall v1 k2 v2,
    forallb plain_char v1 = true ->
    forallb plain_char k2 = true ->
    forallb plain_char v2 = true ->
    json_loads (two_strings_text v1 k2 v2)
    = Some (JObj (dict_of_pairs [(py "error", JStr v1); (k2, JStr v2)])).
Proof.
  intros v1 k2 v2 H1 Hk H2. unfold json_loads, two_strings_text.
  set (rest := v1 ++ dquote :: comma :: 32%N :: dquote
                 :: k2 ++ dquote :: colon :: 32%N :: dquote
                 :: v2 ++ [dquote; rbrace]).
  change (skip_ws (lbrace :: dquote
                     :: py "error" ++ dquote :: colon :: 32%N :: dquote :: rest))
    with (lbrace :: dquote
            :: py "error" ++ dquote :: colon :: 32%N :: dquote :: rest).
  change (List.length (lbrace :: dquote
                         :: py "error" ++ dquote :: colon :: 32%N :: dquote :: rest))
    with (S (S (S (List.length
                     (skipn 1 (py "error") ++ dquote :: colon :: 32%N :: dquote
                        :: rest))))).
  rewrite scan_once_object_key.
  unfold rest.
  rewrite (object_members_string_comma _ (py "error")
             (v1 ++ dquote :: comma :: 32%N :: dquote
                :: k2 ++ dquote :: colon :: 32%N :: dquote
                :: v2 ++ [dquote; rbrace])
             v1
             (k2 ++ dquote :: colon :: 32%N :: dquote :: v2 ++ [dquote; rbrace])
             []).
  - rewrite (object_members_last_string _ k2 (v2 ++ [dquote; rbrace]) v2 []).
    + reflexivity.
    + apply scanstring_plain_closed. exact H2.
    + apply scanstring_plain_closed. exact Hk.
  - apply scanstring_plain_closed. exact H1.
  - apply (scanstring_plain_closed (py "error")). reflexivity.
Qed.

Lemma error_run_failed_text :
  forall status,
    error_run_failed status = two_strings_text (py "AI 분석 실패") (py "status") status.
Proof.
  intro status. unfold error_run_failed, two_strings_text.
  assert (Hpre : pyq "{'error': 'AI 분석 실패', 'status': '"
                 = lbrace :: dquote :: py "error" ++ dquote :: colon :: 32%N :: dquote
                   :: py "AI 분석 실패" ++ dquote :: comma :: 32%N :: dquote
                   :: py "status" ++ [dquote; colon; 32%N; dquote])
    by (vm_compute; reflexivity).
  assert (Hsuf : pyq "'}" = [dquote; rbrace]) by reflexivity.
  rewrite Hpre, Hsuf.
  generalize (py "AI 분석 실패"). intro m.
  generalize (py "error"). intro e.
  generalize (py "status"). intro k.
  cbn [app]. repeat (rewrite <- app_assoc; cbn [app]). reflexivity.
Qed.

Lemma error_internal_text :
  forall details,
    error_internal details
    = two_strings_text (py "서버 내부 에러") (py "details") details.
Proof.
  intro details. unfold error_internal, two_strings_text.
  assert (Hpre : pyq "{'error': '서버 내부 에러', 'details': '"
                 = lbrace :: dquote :: py "error" ++ dquote :: colon :: 32%N :: dquote
                   :: py "서버 내부 에러" ++ dquote :: comma :: 32%N :: dquote
                   :: py "details" ++ [dquote; colon; 32%N; dquote])
    by (vm_compute; reflexivity).
  assert (Hsuf : pyq "'}" = [dquote; rbrace]) by reflexivity.
  rewrite Hpre, Hsuf.
  generalize (py "서버 내부 에러"). intro m.
  generalize (py "error"). intro e.
  generalize (py "details"). intro k.
  cbn [app]. repeat (rewrite <- app_assoc; cbn [app]). reflexivity.
Qed.


(** ** The risk scan on a failure payload *)












(** * The post-processing only deletes *)

Lemma subseq_refl : forall s, subseq s s.
Proof. induction s as [|c s IH]; constructor; exact IH. Qed.

Lemma subseq_nil_l : forall s, subseq [] s.
Proof. induction s as [|c s IH]; constructor; exact IH. Qed.

Lemma subseq_trans : forall a b c, subseq a b -> subseq b c -> subseq a c.
Proof.
  intros a b c Hab Hbc. revert a Hab.
  induction Hbc as [|x b c Hbc IH|x b c Hbc IH]; intros a Hab.
  - exact Hab.
  - inversion Hab as [|y a' b' Ha'|y a' b' Ha']; subst.
    + apply subseq_keep. apply IH. exact Ha'.
    + apply subseq_drop. apply IH. exact Ha'.
  - apply subseq_drop. apply IH. exact Hab.
Qed.

Lemma subseq_app :
  forall a b c d, subseq a b -> subseq c d -> subseq (a ++ c) (b ++ d).
Proof.
  intros a b c d Hab Hcd.
  induction Hab as [|x a b Hab IH|x a b Hab IH]; cbn [app].
  - exact Hcd.
  - apply subseq_keep. exact IH.
  - apply subseq_drop. exact IH.
Qed.

Lemma subseq_rev : forall a b, subseq a b -> subseq (rev a) (rev b).
Proof.
  intros a b H. induction H as [|x a b H IH|x a b H IH]; cbn [rev].
  - constructor.
  - apply subseq_app; [exact IH|apply subseq_refl].
  - rewrite <- (app_nil_r (rev a)). apply subseq_app; [exact IH|].
    apply subseq_nil_l.
Qed.

Lemma subseq_firstn : forall n (s : pystr), subseq (firstn n s) s.
Proof.
  induction n as [|n IH]; intro s; [apply subseq_nil_l|].
  destruct s as [|c s]; cbn [firstn]; constructor. apply IH.
Qed.

Lemma lstrip_subseq : forall s, subseq (lstrip s) s.
Proof.
  induction s as [|c s IH]; [constructor|].
  cbn [lstrip]. destruct (is_space c).
  - apply subseq_drop. exact IH.
  - apply subseq_refl.
Qed.

Lemma strip_subseq : forall s, subseq (strip s) s.
Proof.
  intro s. unfold strip, rstrip.
  apply (subseq_trans _ (lstrip s)); [|apply lstrip_subseq].
  rewrite <- (rev_involutive (lstrip s)) at 2.
  apply subseq_rev. apply lstrip_subseq.
Qed.

(** [re.sub] with the empty replacement deletes characters, whatever the
    pattern. *)
Lemma sub_go_subseq :
  forall r s skip bol, subseq (sub_go r skip bol s) s.
Proof.
  intros r s. induction s as [|c t IH]; intros skip bol; [constructor|].
  cbn [sub_go]. destruct skip as [|k].
  - destruct (match_at r bol (c :: t)) as [rest|].
    + destruct (List.length (c :: t) - List.length rest) as [|k].
      * apply subseq_keep. apply IH.
      * apply subseq_drop. apply IH.
    + apply subseq_keep. apply IH.
  - apply subseq_drop. apply IH.
Qed.

(** What [re.search] finds is a part of the text. *)
Lemma search_go_subseq :
  forall r s bol m, search_go r bol s = Some m -> subseq m s.
Proof.
  intros r s. induction s as [|c t IH]; intros bol m H.
  - cbn [search_go] in H. destruct (match_at r bol []) as [rest|];
      [|discriminate H].
    injection H as <-. constructor.
  - rewrite search_go_cons in H.
    destruct (match_at r bol (c :: t)) as [rest|].
    + injection H as <-. apply subseq_firstn.
    + apply subseq_drop. apply (IH (is_nl c) m H).
Qed.

(** The post-processing of both advisors only deletes characters: what
    [analyze_labor_contract] keeps of a response text is the text with some
    characters deleted, and what [analyze_contract] keeps is that again
    with some characters deleted; nothing is added, replaced or reordered. *)
Theorem sanitize_only_deletes :
  forall raw_text,
    subseq (unfence raw_text) raw_text /\
    subseq (sanitize raw_text) (unfence raw_text) /\
    subseq (sanitize raw_text) raw_text.
Proof.
  intro raw.
  assert (H1 : subseq (unfence raw) raw).
  { unfold unfence, sub_empty.
    apply (subseq_trans _ (strip raw)); [apply sub_go_subseq|apply strip_subseq]. }
  assert (H2 : subseq (sanitize raw) (unfence raw)).
  { unfold sanitize. fold (unfence raw).
    assert (Hc : subseq (sub_empty cite_re (unfence raw)) (unfence raw))
      by apply sub_go_subseq.
    destruct (search brace_re (sub_empty cite_re (unfence raw))) as [m|] eqn:E;
      [|exact Hc].
    apply (subseq_trans _ (sub_empty cite_re (unfence raw))); [|exact Hc].
    apply (search_go_subseq brace_re _ true m E). }
  split; [exact H1|]. split; [exact H2|].
  apply (subseq_trans _ (unfence raw)); assumption.
Qed.

(** * The instruction chain and the registry *)

(** The if/elif chain of instructions and the registry know the same
    categories: a category has instructions exactly when it is a key of the
    registry.  So a call that has passed the registry never takes the final
    [else] of the chain. *)
Theorem instructions_match_registry :
  forall genv category,
    ((exists instructions, instructions_for category = Some instructions) <->
     In category (map fst (ASSISTANT_MAP genv))) /\
    (forall assistant_id,
        resolve genv category = Some assistant_id ->
        exists instructions, instructions_for category = Some instructions).
Proof.
  intros genv category. split; [split|].
  - intros [i H]. unfold instructions_for in H. unfold ASSISTANT_MAP.
    cbn [map fst In].
    destruct (str_eqb category (py "REAL_ESTATE")) eqn:E1;
      [apply str_eqb_eq in E1; auto|].
    destruct (str_eqb category (py "WORK")) eqn:E2;
      [apply str_eqb_eq in E2; auto|].
    destruct (str_eqb category (py "CONSUMER")) eqn:E3;
      [apply str_eqb_eq in E3; auto|].
    destruct (str_eqb category (py "NDA")) eqn:E4;
      [apply str_eqb_eq in E4; auto|].
    destruct (str_eqb category (py "GENERAL")) eqn:E5;
      [apply str_eqb_eq in E5; auto 6|].
    discriminate H.
  - unfold ASSISTANT_MAP. cbn [map fst In].
    intros [<-|[<-|[<-|[<-|[<-|[]]]]]]; eexists; reflexivity.
  - intros a H. apply (resolve_has_instructions genv category a H).
Qed.

Lemma instructions_match_registry_witness :
  exists instructions, instructions_for (py "WORK") = Some instructions.
Proof.
  apply (proj2 (instructions_match_registry demo_env (py "WORK")) (py "asst_work")).
  reflexivity.
Defined.

(** * The failure payloads of [analyze_contract] *)

Lemma engine_fault_failure :
  forall en file_path instructions assistant_id kind text,
    engine_fault en file_path instructions assistant_id kind text ->
    engine_failure en file_path instructions assistant_id
      (match kind with
       | RaisedException => error_internal text
       | RunNotCompleted => error_run_failed text
       end).
Proof.
  intros en file_path i a kind text H. destruct H.
  - apply fail_open; assumption.
  - apply fail_upload; assumption.
  - apply (@fail_job en file_path i a fid e); assumption.
  - apply (@fail_poll en file_path i a fid tid e); assumption.
  - apply (@fail_retrieve en file_path i a fid tid status e); assumption.
  - apply (@fail_status en file_path i a fid tid status); assumption.
Qed.

Lemma error_internal_literal :
  forall text,
    error_internal text
    = pyq "{'error': '서버 내부 에러', 'details': '" ++ text ++ pyq "'}".
Proof. intro text. unfold error_internal. reflexivity. Qed.

Lemma error_run_failed_literal :
  forall text,
    error_run_failed text
    = pyq "{'error': 'AI 분석 실패', 'status': '" ++ text ++ pyq "'}".
Proof. intro text. unfold error_run_failed. reflexivity. Qed.

Lemma json_loads_error_internal :
  forall text,
    forallb plain_char text = true ->
    json_loads (error_internal text)
    = Some (JObj [(py "error", JStr (py "서버 내부 에러"));
                  (py "details", JStr text)]).
Proof.
  intros text Ht. rewrite error_internal_text.
  rewrite (json_loads_two_strings (py "서버 내부 에러") (py "details") text
             eq_refl eq_refl Ht).
  reflexivity.
Qed.

Lemma json_loads_error_run_failed :
  forall text,
    forallb plain_char text = true ->
    json_loads (error_run_failed text)
    = Some (JObj [(py "error", JStr (py "AI 분석 실패"));
                  (py "status", JStr text)]).
Proof.
  intros text Ht. rewrite error_run_failed_text.
  rewrite (json_loads_two_strings (py "AI 분석 실패") (py "status") text
             eq_refl eq_refl Ht).
  reflexivity.
Qed.

(** C6, as the code has it: with a resolved category the call never raises;
    when a call of the engine raises, it returns the text
    {"error": "서버 내부 에러", "details": "<str(e)>"}, and when the run ends in a
    status other than completed, the text
    {"error": "AI 분석 실패", "status": "<status>"}, the detail put between the
    quotes as it is.  When the detail has no double quote, backslash or
    control character, that text is the JSON object with the key error and
    the detail under the second key. *)
Theorem engine_failures_returned_as_payload :
  forall genv en file_path category assistant_id st,
    resolve genv category = Some assistant_id ->
    exists instructions,
      instructions_for category = Some instructions /\
      (exists s, fst (analyze_contract genv en file_path category st) = Value s) /\
      (forall text,
          engine_fault en file_path instructions assistant_id RaisedException text ->
          fst (analyze_contract genv en file_path category st)
          = Value (pyq "{'error': '서버 내부 에러', 'details': '" ++ text ++ pyq "'}") /\
          (forallb plain_char text = true ->
           json_loads (pyq "{'error': '서버 내부 에러', 'details': '" ++ text ++ pyq "'}")
           = Some (JObj [(py "error", JStr (py "서버 내부 에러"));
                         (py "details", JStr text)]))) /\
      (forall text,
          engine_fault en file_path instructions assistant_id RunNotCompleted text ->
          fst (analyze_contract genv en file_path category st)
          = Value (pyq "{'error': 'AI 분석 실패', 'status': '" ++ text ++ pyq "'}") /\
          (forallb plain_char text = true ->
           json_loads (pyq "{'error': 'AI 분석 실패', 'status': '" ++ text ++ pyq "'}")
           = Some (JObj [(py "error", JStr (py "AI 분석 실패"));
                         (py "status", JStr text)]))).
Proof.
  intros genv en file_path category a st Hr.
  destruct (resolve_has_instructions genv category _ Hr) as [i Hi].
  exists i. split; [exact Hi|].
  rewrite (analyze_contract_resolved genv en file_path category _ _ Hr Hi).
  split; [apply guarded_run_returns|]. split.
  - intros text H. rewrite <- (error_internal_literal text). split.
    + apply (guarded_run_failure en file_path i a st).
      apply (engine_fault_failure _ _ _ _ RaisedException text H).
    + apply json_loads_error_internal.
  - intros text H. rewrite <- (error_run_failed_literal text). split.
    + apply (guarded_run_failure en file_path i a st).
      apply (engine_fault_failure _ _ _ _ RunNotCompleted text H).
    + apply json_loads_error_run_failed.
Qed.

Lemma engine_failures_returned_as_payload_witness :
  resolve demo_env (py "WORK") = Some (py "asst_work") /\
  fst (analyze_contract demo_env (demo_engine (py "expired") []) (py "f.pdf")
         (py "WORK") initial)
  = Value (pyq "{'error': 'AI 분석 실패', 'status': 'expired'}") /\
  json_loads (pyq "{'error': 'AI 분석 실패', 'status': 'expired'}")
  = Some (JObj [(py "error", JStr (py "AI 분석 실패"));
                (py "status", JStr (py "expired"))]).
Proof.
  split; [reflexivity|].
  destruct (engine_failures_returned_as_payload
              demo_env (demo_engine (py "expired") []) (py "f.pdf") (py "WORK")
              (py "asst_work") initial eq_refl)
    as [i [Hi [_ [_ H]]]].
  assert (i = instructions_WORK) by
    (change (instructions_for (py "WORK")) with (Some instructions_WORK) in Hi;
     congruence).
  subst i.
  destruct (H (py "expired")) as [H1 H2].
  - apply (@fault_status _ _ _ _ (py "file-1") (py "thread_1") (py "expired"));
      reflexivity.
  - split; [exact H1|]. apply H2. reflexivity.
Defined.

(** C6, as the claim has it, fails: when the upload raises an exception
    whose text has double quotes, the call returns a text that is no JSON. *)
Lemma failure_payload_with_quotes_is_not_json :
  let r := analyze_contract demo_env demo_engine_quoted_error (py "f.pdf")
             (py "WORK") initial in
  resolve demo_env (py "WORK") = Some (py "asst_work") /\
  fst r = Value (pyq "{'error': '서버 내부 에러', 'details': 'Invalid value for 'purpose''}") /\
  forall s, fst r = Value s -> json_loads s = None.
Proof.
  cbv zeta. split; [reflexivity|]. split; [vm_compute; reflexivity|].
  intros s H. vm_compute in H. injection H as <-. vm_compute. reflexivity.
Qed.

(** * What the two advisors return, case by case *)

(** The engine answers in one of three ways. *)
Lemma engine_cases :
  forall en file_path instructions assistant_id,
    (exists text,
        engine_fault en file_path instructions assistant_id RaisedException text) \/
    (exists text,
        engine_fault en file_path instructions assistant_id RunNotCompleted text) \/
    (exists raw_text,
        engine_completes en file_path instructions assistant_id raw_text).
Proof.
  intros en file_path i a.
  destruct (open_rb en file_path) as [e|] eqn:Ho.
  { left. exists (exc_str e). apply fault_open. exact Ho. }
  destruct (files_create en file_path) as [e|fid] eqn:Hc.
  { left. exists (exc_str e). apply fault_upload; assumption. }
  destruct (threads_create en i fid) as [e|tid] eqn:Ht.
  { left. exists (exc_str e). apply (@fault_job en file_path i a fid e); assumption. }
  destruct (runs_create_and_poll en tid a) as [e|status] eqn:Hr.
  { left. exists (exc_str e).
    apply (@fault_poll en file_path i a fid tid e); assumption. }
  destruct (str_eqb status (py "completed")) eqn:Hs.
  - destruct (messages_first_text en tid) as [e|raw] eqn:Hm.
    + left. exists (exc_str e).
      apply (@fault_retrieve en file_path i a fid tid status e); assumption.
    + right. right. exists raw, fid, tid, status. auto 7.
  - right. left. exists status.
    apply (@fault_status en file_path i a fid tid status); assumption.
Qed.

Lemma error_no_assistant_literal :
  forall category,
    error_no_assistant category
    = pyq "{'error': 'Assistant ID를 찾을 수 없습니다. (Category: " ++ category
        ++ pyq ")'}".
Proof. intro category. unfold error_no_assistant. reflexivity. Qed.

(** Every call of [analyze_contract] returns, and what it returns is fixed
    by the registry and by what the engine answered: the payload naming the
    category when the registry does not resolve it; the payload with the
    text of the exception when a call of the engine raised; the payload
    with the status when the run did not end as completed; and the
    sanitized text of the first response when every call returned and the
    run completed. *)
Theorem analyze_contract_result_shape :
  forall genv en file_path category st,
    let r := fst (analyze_contract genv en file_path category st) in
    match resolve genv category with
    | None =>
        r = Value (pyq "{'error': 'Assistant ID를 찾을 수 없습니다. (Category: "
                     ++ category ++ pyq ")'}")
    | Some assistant_id =>
        exists instructions,
          instructions_for category = Some instructions /\
          ((exists text,
               engine_fault en file_path instructions assistant_id
                 RaisedException text /\
               r = Value (pyq "{'error': '서버 내부 에러', 'details': '" ++ text
                            ++ pyq "'}")) \/
           (exists text,
               engine_fault en file_path instructions assistant_id
                 RunNotCompleted text /\
               r = Value (pyq "{'error': 'AI 분석 실패', 'status': '" ++ text
                            ++ pyq "'}")) \/
           (exists raw_text,
               engine_completes en file_path instructions assistant_id raw_text /\
               r = Value (sanitize raw_text)))
    end.
Proof.
  intros genv en file_path category st r. subst r.
  destruct (resolve genv category) as [a|] eqn:Hr.
  - destruct (resolve_has_instructions genv category _ Hr) as [i Hi].
    exists i. split; [exact Hi|].
    rewrite (analyze_contract_resolved genv en file_path category _ _ Hr Hi).
    destruct (engine_cases en file_path i a) as [[text H]|[[text H]|[raw H]]].
    + left. exists text. split; [exact H|].
      rewrite <- (error_internal_literal text).
      apply (guarded_run_failure en file_path i a st).
      apply (engine_fault_failure _ _ _ _ RaisedException text H).
    + right. left. exists text. split; [exact H|].
      rewrite <- (error_run_failed_literal text).
      apply (guarded_run_failure en file_path i a st).
      apply (engine_fault_failure _ _ _ _ RunNotCompleted text H).
    + right. right. exists raw. split; [exact H|].
      destruct H as [fid [tid [status [Ho [Hc [Ht [Hp [Hs Hm]]]]]]]].
      apply (guarded_run_completed en file_path i a fid tid status raw st
               Ho Hc Ht Hp Hs Hm).
  - rewrite <- (error_no_assistant_literal category).
    rewrite unresolved_category_aux by exact Hr. reflexivity.
Qed.

(** ** [analyze_labor_contract] *)

Lemma labor_error_exception_literal :
  forall text,
    labor_error_exception text
    = pyq "{'error': '에러 발생', 'details': '" ++ text ++ pyq "'}".
Proof. intro text. unfold labor_error_exception. reflexivity. Qed.

Lemma labor_error_status_literal :
  forall text,
    labor_error_status text
    = pyq "{'error': '분석 실패', 'status': '" ++ text ++ pyq "'}".
Proof. intro text. unfold labor_error_status. reflexivity. Qed.

Lemma labor_error_unset_literal :
  labor_error_unset = pyq "{'error': 'ASSISTANT_ID가 설정되지 않았습니다.'}".
Proof. reflexivity. Qed.

Lemma labor_fault_result :
  forall genv en file_path st c id kind text,
    genv (py "ASSISTANT_ID") = Some (c :: id) ->
    engine_fault en file_path labor_instructions (c :: id) kind text ->
    fst (analyze_labor_contract genv en file_path st)
    = Value (match kind with
             | RaisedException => labor_error_exception text
             | RunNotCompleted => labor_error_status text
             end).
Proof.
  intros genv en file_path st c id kind text Hg H.
  unfold analyze_labor_contract. rewrite Hg. unfold labor_try.
  destruct H; monad_step;
    repeat match goal with
           | H : _ = _ |- _ => rewrite H; clear H; monad_step
           end;
    run_analyze; reflexivity.
Qed.

Lemma labor_completed_result :
  forall genv en file_path st c id raw_value,
    genv (py "ASSISTANT_ID") = Some (c :: id) ->
    engine_completes en file_path labor_instructions (c :: id) raw_value ->
    fst (analyze_labor_contract genv en file_path st) = Value (unfence raw_value).
Proof.
  intros genv en file_path st c id raw Hg
    [fid [tid [status [Ho [Hc [Ht [Hp [Hs Hm]]]]]]]].
  unfold analyze_labor_contract. rewrite Hg. unfold labor_try. monad_step.
  rewrite Ho; monad_step. rewrite Hc; monad_step. rewrite Ht; monad_step.
  rewrite Hp; monad_step. rewrite Hs; monad_step. rewrite Hm; monad_step.
  destruct (files_delete en fid); reflexivity.
Qed.

(** Every call of [analyze_labor_contract] returns, and what it returns is
    fixed by the environment and by what the engine answered: with
    ASSISTANT_ID unset or empty, the payload saying so, and nothing is
    called; otherwise the payload with the text of the exception when a
    call of the engine raised, the payload with the status when the run did
    not end as completed, and the first response text without its fences
    when every call returned and the run completed. *)
Theorem analyze_labor_contract_result_shape :
  forall genv en file_path st,
    let r := fst (analyze_labor_contract genv en file_path st) in
    match genv (py "ASSISTANT_ID") with
    | Some (c :: id) =>
        (exists text,
            engine_fault en file_path labor_instructions (c :: id)
              RaisedException text /\
            r = Value (pyq "{'error': '에러 발생', 'details': '" ++ text ++ pyq "'}")) \/
        (exists text,
            engine_fault en file_path labor_instructions (c :: id)
              RunNotCompleted text /\
            r = Value (pyq "{'error': '분석 실패', 'status': '" ++ text ++ pyq "'}")) \/
        (exists raw_value,
            engine_completes en file_path labor_instructions (c :: id) raw_value /\
            r = Value (unfence raw_value))
    | _ =>
        r = Value (pyq "{'error': 'ASSISTANT_ID가 설정되지 않았습니다.'}") /\
        snd (analyze_labor_contract genv en file_path st) = st
    end.
Proof.
  intros genv en file_path st r. subst r.
  destruct (genv (py "ASSISTANT_ID")) as [[|c id]|] eqn:Hg.
  - rewrite <- labor_error_unset_literal.
    unfold analyze_labor_contract. rewrite Hg. split; reflexivity.
  - destruct (engine_cases en file_path labor_instructions (c :: id))
      as [[text H]|[[text H]|[raw H]]].
    + left. exists text. split; [exact H|].
      rewrite <- (labor_error_exception_literal text).
      apply (labor_fault_result genv en file_path st c id RaisedException text Hg H).
    + right. left. exists text. split; [exact H|].
      rewrite <- (labor_error_status_literal text).
      apply (labor_fault_result genv en file_path st c id RunNotCompleted text Hg H).
    + right. right. exists raw. split; [exact H|].
      apply (labor_completed_result genv en file_path st c id raw Hg H).
  - rewrite <- labor_error_unset_literal.
    unfold analyze_labor_contract. rewrite Hg. split; reflexivity.
Qed.

(** * The sanitizer on clean and on marked JSON *)

Lemma sanitize_clean_object :
  forall x m v,
    json_loads x = Some v ->
    x = lbrace :: m ++ [rbrace] ->
    has cite_open x = false ->
    sanitize x = x.
Proof.
  intros x m v Hv Hx Ho.
  assert (Ht : trimmed x = true)
    by (rewrite Hx; apply trimmed_ends; reflexivity).
  assert (Hg : guarded is_backtick None x = true).
  { apply (guarded_weaken string_only is_backtick);
      [exact string_only_backtick|].
    apply (json_loads_guarded x v Hv). }
  rewrite (sanitize_trimmed x Ht Hg).
  rewrite (sub_cite_id x (search_cite_no_open x Ho)).
  rewrite Hx.
  pose proof (search_brace_span [] m [] eq_refl eq_refl) as Hsp.
  cbn [app] in Hsp. rewrite Hsp. reflexivity.
Qed.

(** C7: the sanitization is idempotent on JSON text: for every text that
    [json.loads] accepts, applying it twice gives what applying it once
    gives.  A JSON object that is already clean (no white space around it,
    no opening citation bracket) is left as it is. *)
Theorem sanitize_idempotent_on_clean_json :
  forall x v,
    json_loads x = Some v ->
    sanitize (sanitize x) = sanitize x /\
    (forall m,
        x = lbrace :: m ++ [rbrace] -> has cite_open x = false -> sanitize x = x).
Proof.
  intros x v H. split.
  - apply (sanitize_twice_on_json x v H).
  - intros m Hx Ho. apply (sanitize_clean_object x m v H Hx Ho).
Qed.

Lemma sanitize_idempotent_on_clean_json_witness :
  sanitize (sanitize (pyq "{'risk_level': 'HIGH', 'clauses': []}"))
  = sanitize (pyq "{'risk_level': 'HIGH', 'clauses': []}") /\
  sanitize (pyq "{'risk_level': 'HIGH', 'clauses': []}")
  = pyq "{'risk_level': 'HIGH', 'clauses': []}".
Proof.
  destruct (sanitize_idempotent_on_clean_json
              (pyq "{'risk_level': 'HIGH', 'clauses': []}")
              (JObj [(py "risk_level", JStr (py "HIGH")); (py "clauses", JArr [])])
              eq_refl) as [H1 H2].
  split; [exact H1|].
  apply (H2 (pyq "'risk_level': 'HIGH', 'clauses': []")); reflexivity.
Defined.

(** C9, as the code has it: a citation marker put anywhere into the text
    of a JSON object is removed and the object comes out as it was, so the
    result parses, to the same value, when the object has no opening
    citation bracket of its own and the marker is on one line and has no
    closing bracket inside. *)
Theorem marker_removed_and_result_parses :
  forall pad1 J1 mk J2 pad2 m v,
    forallb is_space pad1 = true ->
    forallb is_space pad2 = true ->
    J1 ++ J2 = lbrace :: m ++ [rbrace] ->
    json_loads (J1 ++ J2) = Some v ->
    has cite_open (J1 ++ J2) = false ->
    has cite_close mk = false ->
    has nl mk = false ->
    sanitize (pad1 ++ (J1 ++ cite_open :: mk ++ cite_close :: J2) ++ pad2)
    = J1 ++ J2
    /\ json_loads
         (sanitize (pad1 ++ (J1 ++ cite_open :: mk ++ cite_close :: J2) ++ pad2))
       = Some v.
Proof.
  intros pad1 J1 mk J2 pad2 m v Hp1 Hp2 Hobj Hv Ho Hc Hn.
  pose proof (marker_removed pad1 J1 mk J2 pad2 m v Hp1 Hp2 Hobj Hv Ho Hc Hn)
    as Hs.
  split; [exact Hs|]. rewrite Hs. exact Hv.
Qed.

Lemma marker_removed_and_result_parses_witness :
  sanitize ([] ++ (pyq "{'a': [1" ++ cite_open :: py "4:0†source"
                     ++ cite_close :: pyq "]}") ++ [])
  = pyq "{'a': [1" ++ pyq "]}"
  /\ json_loads
       (sanitize ([] ++ (pyq "{'a': [1" ++ cite_open :: py "4:0†source"
                           ++ cite_close :: pyq "]}") ++ []))
     = Some (JObj [(py "a", JArr [JInt (py "1")])]).
Proof.
  apply (marker_removed_and_result_parses [] (pyq "{'a': [1") (py "4:0†source")
           (pyq "]}") [] (pyq "'a': [1]"));
    reflexivity.
Defined.

(** C9, as the claim has it, fails: in a JSON object that has an opening
    citation bracket in one of its strings, the removal starts at that
    bracket and takes the text up to the end of the marker with it; what is
    left does not parse. *)
Lemma marker_after_open_bracket_breaks_json :
  let J := pyq "{'a':'【','b':[1]}" in
  let raw_text := pyq "{'a':'【','b':[1" ++ py "【4:0†source】" ++ pyq "]}" in
  json_loads J = Some (JObj [(py "a", JStr (py "【")); (py "b", JArr [JInt (py "1")])]) /\
  sanitize raw_text = pyq "{'a':']}" /\
  json_loads (sanitize raw_text) = None.
Proof.
  vm_compute. repeat split; reflexivity.
Qed.
